(** * The recording daemon's mixer (recording-daemon/mix.c)

    A shallow embedding of [mix.c]: the mixer session [mix_s], index
    allocation, (re)configuration of the filter graph, silence filling,
    frame submission and the drain loop, followed by the properties of the
    timeline bookkeeping.

    libavfilter, libavresample and the output module are outside the file:
    every call into them goes through one interface, [Extern], that answers
    a [call] with a [reply] and a new state of the outside world.  The model
    keeps a [trace] of these calls, of the messages logged and of the frames
    released, so that what the mixer did can be observed. *)

From Stdlib Require Import ZArith String.
From stdpp Require Import base numbers list strings.

Local Open Scope Z_scope.

(** ** Machine integers *)

(** [uint64_t], [unsigned int], [int64_t] and [int] as integers with the
    wrap-around written out. *)
Definition u64 (z : Z) : Z := z mod 2 ^ 64.
Definition u32 (z : Z) : Z := z mod 2 ^ 32.
Definition s64 (z : Z) : Z := (z + 2 ^ 63) mod 2 ^ 64 - 2 ^ 63.
Definition s32 (z : Z) : Z := (z + 2 ^ 31) mod 2 ^ 32 - 2 ^ 31.

(** [#define NUM_INPUTS 4] *)
Definition NUM_INPUTS : nat := 4.

(** [(uint64_t) -1LL], the mark of an offset not yet initialised. *)
Definition PTS_UNSET : Z := u64 (-1).

Definition NULL : Z := 0.
Definition AV_SAMPLE_FMT_S16 : Z := 1.
Definition AVERROR_EAGAIN : Z := -11.
Definition LOG_ERR : Z := 3.
Definition LOG_WARN : Z := 4.

(** ** Frames and the session *)

(** The fields of an [AVFrame] the mixer reads or writes. [pts] is an
    [int64_t], [nb_samples] and [format] are [int]. [data] is the content of
    the buffer of samples, [extended_data[0]], byte by byte over its
    [linesize[0]] bytes; it is empty while the frame has no buffers. *)
Record AVFrame := mkFrame {
  format : Z;
  pts : Z;
  nb_samples : Z;
  sample_rate : Z;
  channel_layout : Z;
  data : list Z
}.

Definition frame_zero : AVFrame := mkFrame 0 0 0 0 0 [].

Definition frame_set_pts (f : AVFrame) (v : Z) : AVFrame :=
  mkFrame (format f) v (nb_samples f) (sample_rate f) (channel_layout f) (data f).
Definition frame_set_nb_samples (f : AVFrame) (v : Z) : AVFrame :=
  mkFrame (format f) (pts f) v (sample_rate f) (channel_layout f) (data f).
Definition frame_set_data (f : AVFrame) (v : list Z) : AVFrame :=
  mkFrame (format f) (pts f) (nb_samples f) (sample_rate f) (channel_layout f) v.

(** [memset(s, c, n)] on the bytes [l] that start at [s]. *)
Definition memset (l : list Z) (c : Z) (n : nat) : list Z :=
  replicate (n `min` length l) c ++ drop n l.

(** [struct mix_s]. Pointers to library objects are integers, [NULL] being
    0; the frames the session owns are kept by content, [None] for a null
    pointer. *)
Record mix_s := mkMix {
  clockrate : Z;
  channels : Z;
  graph : Z;
  src_ctxs : list Z;
  pts_offs : list Z;
  in_pts : list Z;
  amix_ctx : Z;
  sink_ctx : Z;
  next_idx : nat;
  sink_frame : AVFrame;
  avresample : Z;
  swr_frame : option AVFrame;
  swr_buffers : Z;
  out_pts : Z;
  silence_frame : option AVFrame
}.

Definition set_format (m : mix_s) (cr ch : Z) : mix_s :=
  mkMix cr ch (graph m) (src_ctxs m) (pts_offs m) (in_pts m) (amix_ctx m)
    (sink_ctx m) (next_idx m) (sink_frame m) (avresample m) (swr_frame m)
    (swr_buffers m) (out_pts m) (silence_frame m).
Definition set_graph (m : mix_s) (v : Z) : mix_s :=
  mkMix (clockrate m) (channels m) v (src_ctxs m) (pts_offs m) (in_pts m)
    (amix_ctx m) (sink_ctx m) (next_idx m) (sink_frame m) (avresample m)
    (swr_frame m) (swr_buffers m) (out_pts m) (silence_frame m).
Definition set_src_ctxs (m : mix_s) (v : list Z) : mix_s :=
  mkMix (clockrate m) (channels m) (graph m) v (pts_offs m) (in_pts m)
    (amix_ctx m) (sink_ctx m) (next_idx m) (sink_frame m) (avresample m)
    (swr_frame m) (swr_buffers m) (out_pts m) (silence_frame m).
Definition set_pts_offs (m : mix_s) (v : list Z) : mix_s :=
  mkMix (clockrate m) (channels m) (graph m) (src_ctxs m) v (in_pts m)
    (amix_ctx m) (sink_ctx m) (next_idx m) (sink_frame m) (avresample m)
    (swr_frame m) (swr_buffers m) (out_pts m) (silence_frame m).
Definition set_in_pts (m : mix_s) (v : list Z) : mix_s :=
  mkMix (clockrate m) (channels m) (graph m) (src_ctxs m) (pts_offs m) v
    (amix_ctx m) (sink_ctx m) (next_idx m) (sink_frame m) (avresample m)
    (swr_frame m) (swr_buffers m) (out_pts m) (silence_frame m).
Definition set_amix_ctx (m : mix_s) (v : Z) : mix_s :=
  mkMix (clockrate m) (channels m) (graph m) (src_ctxs m) (pts_offs m)
    (in_pts m) v (sink_ctx m) (next_idx m) (sink_frame m) (avresample m)
    (swr_frame m) (swr_buffers m) (out_pts m) (silence_frame m).
Definition set_sink_ctx (m : mix_s) (v : Z) : mix_s :=
  mkMix (clockrate m) (channels m) (graph m) (src_ctxs m) (pts_offs m)
    (in_pts m) (amix_ctx m) v (next_idx m) (sink_frame m) (avresample m)
    (swr_frame m) (swr_buffers m) (out_pts m) (silence_frame m).
Definition set_next_idx (m : mix_s) (v : nat) : mix_s :=
  mkMix (clockrate m) (channels m) (graph m) (src_ctxs m) (pts_offs m)
    (in_pts m) (amix_ctx m) (sink_ctx m) v (sink_frame m) (avresample m)
    (swr_frame m) (swr_buffers m) (out_pts m) (silence_frame m).
Definition set_sink_frame (m : mix_s) (v : AVFrame) : mix_s :=
  mkMix (clockrate m) (channels m) (graph m) (src_ctxs m) (pts_offs m)
    (in_pts m) (amix_ctx m) (sink_ctx m) (next_idx m) v (avresample m)
    (swr_frame m) (swr_buffers m) (out_pts m) (silence_frame m).
Definition set_avresample (m : mix_s) (v : Z) : mix_s :=
  mkMix (clockrate m) (channels m) (graph m) (src_ctxs m) (pts_offs m)
    (in_pts m) (amix_ctx m) (sink_ctx m) (next_idx m) (sink_frame m) v
    (swr_frame m) (swr_buffers m) (out_pts m) (silence_frame m).
Definition set_swr_frame (m : mix_s) (v : option AVFrame) : mix_s :=
  mkMix (clockrate m) (channels m) (graph m) (src_ctxs m) (pts_offs m)
    (in_pts m) (amix_ctx m) (sink_ctx m) (next_idx m) (sink_frame m)
    (avresample m) v (swr_buffers m) (out_pts m) (silence_frame m).
Definition set_swr_buffers (m : mix_s) (v : Z) : mix_s :=
  mkMix (clockrate m) (channels m) (graph m) (src_ctxs m) (pts_offs m)
    (in_pts m) (amix_ctx m) (sink_ctx m) (next_idx m) (sink_frame m)
    (avresample m) (swr_frame m) v (out_pts m) (silence_frame m).
Definition set_out_pts (m : mix_s) (v : Z) : mix_s :=
  mkMix (clockrate m) (channels m) (graph m) (src_ctxs m) (pts_offs m)
    (in_pts m) (amix_ctx m) (sink_ctx m) (next_idx m) (sink_frame m)
    (avresample m) (swr_frame m) (swr_buffers m) v (silence_frame m).
Definition set_silence_frame (m : mix_s) (v : option AVFrame) : mix_s :=
  mkMix (clockrate m) (channels m) (graph m) (src_ctxs m) (pts_offs m)
    (in_pts m) (amix_ctx m) (sink_ctx m) (next_idx m) (sink_frame m)
    (avresample m) (swr_frame m) (swr_buffers m) (out_pts m) v.

(** [mix_new]: the structure is zeroed ([g_slice_alloc0]), the format is
    marked unset with -1, the sink frame is allocated and every offset is
    marked uninitialised. *)
Definition mix_new : mix_s :=
  mkMix (-1) (-1) NULL (replicate NUM_INPUTS NULL)
    (replicate NUM_INPUTS PTS_UNSET) (replicate NUM_INPUTS 0)
    NULL NULL 0%nat frame_zero NULL None 0 0 None.

(** ** The outside world *)

(** What [snprintf] puts in the argument string of a filter. *)
Inductive filter_args :=
| amix_args (inputs : nat)
| abuffer_args (rate : Z) (layout : Z)
| no_args.

(** The library functions the mixer calls, with the arguments that matter. *)
Inductive call :=
| avfilter_graph_alloc
| avfilter_get_by_name (name : string)
| avfilter_graph_create_filter (flt : Z) (args : filter_args) (g : Z)
| avfilter_link (src : Z) (srcpad : nat) (dst : Z) (dstpad : nat)
| avfilter_graph_config (g : Z)
| avfilter_free (ctx : Z)
| avfilter_graph_free (g : Z)
| avresample_free (ctx : Z)
| avresample_alloc_context
| av_opt_set_int (ctx : Z) (name : string) (val : Z)
| avresample_open (ctx : Z)
| avresample_available (ctx : Z)
| avresample_get_delay (ctx : Z)
| avresample_convert (ctx : Z) (dst_samples : Z) (f : AVFrame)
| av_frame_alloc
| av_frame_get_buffer (f : AVFrame)
| av_buffersrc_write_frame (ctx : Z) (f : AVFrame)
| av_buffersrc_add_frame (ctx : Z) (f : AVFrame)
| av_buffersink_get_frame (ctx : Z)
| output_add (f : option AVFrame).

(** The answer to a call: the value returned ([rc], a status, a count or a
    pointer), the pointer stored through an out-parameter and the frame
    filled in, for the calls that have one. *)
Record reply := mkReply {
  rc : Z;
  out_ptr : Z;
  out_frame : AVFrame
}.

(** [respond] answers a call in a state of the world. The three functions
    of libavutil that compute a value from their arguments alone are taken as
    they are: [av_rescale_rnd a b c] is the call with [AV_ROUND_UP]. *)
Class Extern (W : Type) := {
  respond : W → call → reply * W;
  av_get_default_channel_layout : Z → Z;
  av_rescale_rnd : Z → Z → Z → Z;
  av_rescale : Z → Z → Z → Z
}.

(** What an observer sees of a run. *)
Inductive event :=
| Called (c : call) (r : reply)
| Logged (level : Z) (msg : string) (detail : string)
| Freed (f : option AVFrame).

#[export] Instance AVFrame_eq_dec : EqDecision AVFrame.
Proof. solve_decision. Defined.
#[export] Instance filter_args_eq_dec : EqDecision filter_args.
Proof. solve_decision. Defined.
#[export] Instance call_eq_dec : EqDecision call.
Proof. solve_decision. Defined.
#[export] Instance reply_eq_dec : EqDecision reply.
Proof. solve_decision. Defined.
#[export] Instance event_eq_dec : EqDecision event.
Proof. solve_decision. Defined.

Record state (W : Type) := mkState {
  mix : mix_s;
  world : W;
  trace : list event
}.
Arguments mkState {W}.
Arguments mix {W}.
Arguments world {W}.
Arguments trace {W}.

(** ** A monad for the mixer's code

    A computation reads and writes the [state]; [None] means that a loop
    used up its fuel. The most recent event is the head of the trace. *)
Definition M (W A : Type) : Type := state W → option (A * state W).

Definition ret {W A} (a : A) : M W A := λ st, Some (a, st).

Definition bind {W A B} (c : M W A) (k : A → M W B) : M W B :=
  λ st, match c st with
        | Some (a, st') => k a st'
        | None => None
        end.

Notation "x <- c ;; k" := (bind c (λ x, k))
  (at level 100, c at next level, right associativity).
Notation "c ;; k" := (bind c (λ _, k))
  (at level 100, right associativity).

Definition get_mix {W} : M W mix_s := λ st, Some (mix st, st).

Definition modify_mix {W} (f : mix_s → mix_s) : M W unit :=
  λ st, Some (tt, mkState (f (mix st)) (world st) (trace st)).

Definition emit {W} (e : event) : M W unit :=
  λ st, Some (tt, mkState (mix st) (world st) (e :: trace st)).

Definition ext `{Extern W} (c : call) : M W reply :=
  λ st, let '(r, w) := respond (world st) c in
        Some (r, mkState (mix st) w (Called c r :: trace st)).

Definition ilog {W} (level : Z) (msg detail : string) : M W unit :=
  emit (Logged level msg detail).

Definition av_frame_free {W} (f : option AVFrame) : M W unit :=
  emit (Freed f).

Definition when {W} (b : bool) (c : M W unit) : M W unit :=
  if b then c else ret tt.

(** [for (int i = 0; i < NUM_INPUTS; i++) body] *)
Fixpoint for_each {W} (l : list nat) (body : nat → M W unit) : M W unit :=
  match l with
  | [] => ret tt
  | i :: l' => body i ;; for_each l' body
  end.

(** Code that can jump to its [err] label: [inl msg] is the jump, with the
    message [err] pointed to. *)
Definition ebind {W A B} (c : M W (string + A)) (k : A → M W (string + B))
  : M W (string + B) :=
  r <- c ;;
  match r with
  | inl e => ret (inl e)
  | inr a => k a
  end.

Notation "x <-? c ;; k" := (ebind c (λ x, k))
  (at level 100, c at next level, right associativity).

Definition lift {W A} (c : M W A) : M W (string + A) :=
  a <- c ;; ret (inr a).

Definition goto_err_if {W} (b : bool) (msg : string) : M W (string + unit) :=
  ret (if b then inl msg else inr tt).

Definition out_of_fuel {W A} : M W A := λ _, None.

(** ** The mixer *)

Section Mixer.
Context {W : Type} `{!Extern W}.

(** [mix_get_index]: [return mix->next_idx++;] on an [unsigned int]. *)
Definition mix_get_index : M W nat :=
  m <- get_mix ;;
  modify_mix (λ m, set_next_idx m (Z.to_nat (u32 (Z.of_nat (next_idx m) + 1)))) ;;
  ret (next_idx m).

Definition mix_shutdown : M W unit :=
  m <- get_mix ;;
  when (negb (amix_ctx m =? NULL)) (ext (avfilter_free (amix_ctx m)) ;; ret tt) ;;
  modify_mix (λ m, set_amix_ctx m NULL) ;;
  when (negb (sink_ctx m =? NULL)) (ext (avfilter_free (sink_ctx m)) ;; ret tt) ;;
  modify_mix (λ m, set_sink_ctx m NULL) ;;
  for_each (seq 0 NUM_INPUTS) (λ i,
    m <- get_mix ;;
    when (negb (src_ctxs m !!! i =? NULL))
      (ext (avfilter_free (src_ctxs m !!! i)) ;; ret tt) ;;
    modify_mix (λ m, set_src_ctxs m (<[i := NULL]> (src_ctxs m)))) ;;
  m <- get_mix ;;
  ext (avresample_free (avresample m)) ;;
  modify_mix (λ m, set_avresample m NULL) ;;
  ext (avfilter_graph_free (graph m)) ;;
  modify_mix (λ m, set_graph m NULL).

(** [mix_destroy]: the topology goes, then the three frames of the
    session; the structure itself is freed and is of no further use. *)
Definition mix_destroy : M W unit :=
  mix_shutdown ;;
  m <- get_mix ;;
  av_frame_free (Some (sink_frame m)) ;;
  av_frame_free (swr_frame m) ;;
  av_frame_free (silence_frame m).

(** The loop of [mix_config] over the inputs: one [abuffer] per input,
    linked to pad [i] of [amix]. *)
Fixpoint mix_config_inputs (l : list nat) (flt : Z) : M W (string + unit) :=
  match l with
  | [] => ret (inr tt)
  | i :: l' =>
      m <-? lift get_mix ;;
      r <-? lift (ext (avfilter_graph_create_filter flt
                    (abuffer_args (clockrate m)
                       (av_get_default_channel_layout (channels m)))
                    (graph m))) ;;
      _ <-? lift (modify_mix (λ m, set_src_ctxs m (<[i := out_ptr r]> (src_ctxs m)))) ;;
      _ <-? goto_err_if (negb (rc r =? 0)) "failed to create abuffer filter context" ;;
      m <-? lift get_mix ;;
      r <-? lift (ext (avfilter_link (src_ctxs m !!! i) 0 (amix_ctx m) i)) ;;
      _ <-? goto_err_if (negb (rc r =? 0)) "failed to link abuffer to amix" ;;
      mix_config_inputs l' flt
  end.

(** [mix_config] from the allocation of the graph to [return 0]. *)
Definition mix_config_build : M W (string + unit) :=
  g <-? lift (ext avfilter_graph_alloc) ;;
  _ <-? lift (modify_mix (λ m, set_graph m (rc g))) ;;
  _ <-? goto_err_if (rc g =? NULL) "failed to alloc filter graph" ;;
  flt <-? lift (ext (avfilter_get_by_name "amix")) ;;
  _ <-? goto_err_if (rc flt =? NULL) "no amix filter available" ;;
  m <-? lift get_mix ;;
  r <-? lift (ext (avfilter_graph_create_filter (rc flt) (amix_args NUM_INPUTS) (graph m))) ;;
  _ <-? lift (modify_mix (λ m, set_amix_ctx m (out_ptr r))) ;;
  _ <-? goto_err_if (negb (rc r =? 0)) "failed to create amix filter context" ;;
  flt <-? lift (ext (avfilter_get_by_name "abuffer")) ;;
  _ <-? goto_err_if (rc flt =? NULL) "no abuffer filter available" ;;
  _ <-? mix_config_inputs (seq 0 NUM_INPUTS) (rc flt) ;;
  flt <-? lift (ext (avfilter_get_by_name "abuffersink")) ;;
  _ <-? goto_err_if (rc flt =? NULL) "no abuffersink filter available" ;;
  m <-? lift get_mix ;;
  r <-? lift (ext (avfilter_graph_create_filter (rc flt) no_args (graph m))) ;;
  _ <-? lift (modify_mix (λ m, set_sink_ctx m (out_ptr r))) ;;
  _ <-? goto_err_if (negb (rc r =? 0)) "failed to create abuffersink filter context" ;;
  m <-? lift get_mix ;;
  r <-? lift (ext (avfilter_link (amix_ctx m) 0 (sink_ctx m) 0)) ;;
  _ <-? goto_err_if (negb (rc r =? 0)) "failed to link amix to abuffersink" ;;
  r <-? lift (ext (avfilter_graph_config (graph m))) ;;
  goto_err_if (negb (rc r =? 0)) "failed to configure filter chain".

(** The label [format_mismatch] of [mix_config]. The parameters are
    [unsigned int] and are stored in [int] fields. *)
Definition mix_config_format_mismatch (cr ch : Z) : M W Z :=
  mix_shutdown ;;
  modify_mix (λ m, set_format m (s32 cr) (s32 ch)) ;;
  r <- mix_config_build ;;
  match r with
  | inr _ => ret 0
  | inl err =>
      mix_shutdown ;;
      ilog LOG_ERR "Failed to initialize mixer: %s" err ;;
      ret (-1)
  end.

(** [mix_config]: the stored [int] is compared with the [unsigned int]
    parameter as an [unsigned int]. *)
Definition mix_config (cr ch : Z) : M W Z :=
  m <- get_mix ;;
  if negb (u32 (clockrate m) =? cr) then mix_config_format_mismatch cr ch
  else if negb (u32 (channels m) =? ch) then mix_config_format_mismatch cr ch
  else ret 0.

(** The creation of the silence frame, on first use. [None] is the
    [return] taken when its buffers cannot be had; the frame stays in the
    session all the same. The source uses the pointer [av_frame_alloc]
    returns without testing it; it is taken to be valid. A call of
    [av_frame_get_buffer] that succeeds leaves the frame with a buffer, whose
    content is the library's to choose; [memset] then clears it over its
    [linesize[0]] bytes. *)
Definition mix_silence_frame (silence_samples : Z) : M W (option AVFrame) :=
  m <- get_mix ;;
  match silence_frame m with
  | Some sf => ret (Some sf)
  | None =>
      ext av_frame_alloc ;;
      let sf := mkFrame AV_SAMPLE_FMT_S16 0 (s32 silence_samples) (clockrate m)
                  (av_get_default_channel_layout (channels m)) [] in
      modify_mix (λ m, set_silence_frame m (Some sf)) ;;
      r <- ext (av_frame_get_buffer sf) ;;
      if rc r <? 0 then
        ilog LOG_ERR "Failed to get silence frame buffers" "" ;;
        ret None
      else
        let sf := frame_set_data sf (data (out_frame r)) in
        let sf := frame_set_data sf (memset (data sf) 0 (length (data sf))) in
        modify_mix (λ m, set_silence_frame m (Some sf)) ;;
        ret (Some sf)
  end.

(** The [while] loop of [mix_silence_fill_idx_upto]. The chunk is the
    smaller of [silence_samples] and the distance left, stored in the [int]
    field [nb_samples] and added to the 64-bit counter before the frame is
    written to the input. *)
Fixpoint mix_silence_loop (fuel : nat) (silence_samples : Z) (idx : nat)
    (upto : Z) : M W unit :=
  m <- get_mix ;;
  if in_pts m !!! idx <? upto then
    match fuel with
    | O => out_of_fuel
    | S fuel' =>
        o <- mix_silence_frame silence_samples ;;
        match o with
        | None => ret tt
        | Some sf =>
            let sf := frame_set_pts sf (s64 (in_pts m !!! idx)) in
            let sf := frame_set_nb_samples sf
                        (s32 (Z.min silence_samples (u64 (upto - in_pts m !!! idx)))) in
            modify_mix (λ m, set_silence_frame m (Some sf)) ;;
            modify_mix (λ m, set_in_pts m
                               (<[idx := u64 (in_pts m !!! idx + nb_samples sf)]> (in_pts m))) ;;
            r <- ext (av_buffersrc_write_frame (src_ctxs m !!! idx) sf) ;;
            when (negb (rc r =? 0))
              (ilog LOG_WARN "Failed to write silence frame to buffer" "") ;;
            mix_silence_loop fuel' silence_samples idx upto
        end
    end
  else ret tt.

(** [unsigned int silence_samples = mix->clockrate / 100;] *)
Definition mix_silence_fill_idx_upto (fuel : nat) (idx : nat) (upto : Z)
  : M W unit :=
  m <- get_mix ;;
  mix_silence_loop fuel (u32 (clockrate m ÷ 100)) idx upto.

(** [mix_silence_fill]: [out_pts] is compared with the [int] clock rate as
    an unsigned 64-bit number. *)
Definition mix_silence_fill (fuel : nat) : M W unit :=
  m <- get_mix ;;
  if out_pts m <? u64 (clockrate m) then ret tt
  else
    for_each (seq 0 NUM_INPUTS) (λ i,
      m <- get_mix ;;
      mix_silence_fill_idx_upto fuel i (u64 (out_pts m - u64 (clockrate m)))).

(** The opening of the resampler, on the first frame that needs it. *)
Definition mix_resample_open (frame : AVFrame) : M W (string + unit) :=
  m <-? lift get_mix ;;
  if avresample m =? NULL then
    h <-? lift (ext avresample_alloc_context) ;;
    _ <-? lift (modify_mix (λ m, set_avresample m (rc h))) ;;
    _ <-? goto_err_if (rc h =? NULL) "failed to alloc resample context" ;;
    _ <-? lift (ext (av_opt_set_int (rc h) "in_channel_layout"
                       (av_get_default_channel_layout (channels m)))) ;;
    _ <-? lift (ext (av_opt_set_int (rc h) "in_sample_fmt" (format frame))) ;;
    _ <-? lift (ext (av_opt_set_int (rc h) "in_sample_rate" (clockrate m))) ;;
    _ <-? lift (ext (av_opt_set_int (rc h) "out_channel_layout"
                       (av_get_default_channel_layout (channels m)))) ;;
    _ <-? lift (ext (av_opt_set_int (rc h) "out_sample_fmt" AV_SAMPLE_FMT_S16)) ;;
    _ <-? lift (ext (av_opt_set_int (rc h) "out_sample_rate" (clockrate m))) ;;
    r <-? lift (ext (avresample_open (rc h))) ;;
    goto_err_if (rc r <? 0) "failed to init resample context"
  else ret (inr tt).

(** A new, larger [swr_frame]. [av_frame_copy_props] copies the
    timestamp and no samples; a call of [av_frame_get_buffer] that succeeds
    leaves the frame with a buffer, whose content is the library's to
    choose. *)
Definition mix_resample_grow (frame : AVFrame) (dst_samples : Z)
  : M W (string + AVFrame) :=
  m <-? lift get_mix ;;
  _ <-? lift (av_frame_free (swr_frame m)) ;;
  p <-? lift (ext av_frame_alloc) ;;
  if rc p =? NULL then
    _ <-? lift (modify_mix (λ m, set_swr_frame m None)) ;;
    ret (inl "failed to alloc resampling frame"%string)
  else
    let sf := mkFrame (format frame) (pts frame) dst_samples (clockrate m)
                (channel_layout frame) [] in
    _ <-? lift (modify_mix (λ m, set_swr_frame m (Some sf))) ;;
    r <-? lift (ext (av_frame_get_buffer sf)) ;;
    _ <-? goto_err_if (rc r <? 0) "failed to get resample buffers" ;;
    let sf := frame_set_data sf (data (out_frame r)) in
    _ <-? lift (modify_mix (λ m, set_swr_frame m (Some sf))) ;;
    _ <-? lift (modify_mix (λ m, set_swr_buffers m dst_samples)) ;;
    ret (inr sf).

(** The conversion. [avresample_convert] writes the samples it makes into
    the buffer of [swr_frame], whatever it returns. *)
Definition mix_resample_convert (frame : AVFrame) : M W (string + AVFrame) :=
  _ <-? mix_resample_open frame ;;
  m <-? lift get_mix ;;
  a <-? lift (ext (avresample_available (avresample m))) ;;
  d <-? lift (ext (avresample_get_delay (avresample m))) ;;
  let dst_samples :=
    s32 (rc a + av_rescale_rnd (rc d + nb_samples frame) (clockrate m) (clockrate m)) in
  sf <-? match swr_frame m with
         | None => mix_resample_grow frame dst_samples
         | Some sf =>
             if swr_buffers m <? dst_samples
             then mix_resample_grow frame dst_samples
             else ret (inr sf)
         end ;;
  let sf := frame_set_nb_samples sf dst_samples in
  _ <-? lift (modify_mix (λ m, set_swr_frame m (Some sf))) ;;
  r <-? lift (ext (avresample_convert (avresample m) dst_samples frame)) ;;
  let sf := frame_set_data sf (data (out_frame r)) in
  _ <-? lift (modify_mix (λ m, set_swr_frame m (Some sf))) ;;
  _ <-? goto_err_if (rc r <? 0) "failed to resample audio" ;;
  let sf := frame_set_pts (frame_set_nb_samples sf (rc r))
              (av_rescale (pts frame) (clockrate m) (clockrate m)) in
  _ <-? lift (modify_mix (λ m, set_swr_frame m (Some sf))) ;;
  ret (inr sf).

(** [mix_resample_frame]: the frame itself when it is already S16, the
    converted frame otherwise, [None] (a null pointer) after its [err]
    label. *)
Definition mix_resample_frame (frame : AVFrame) : M W (option AVFrame) :=
  if format frame =? AV_SAMPLE_FMT_S16 then ret (Some frame)
  else
    r <- mix_resample_convert frame ;;
    match r with
    | inr sf => ret (Some sf)
    | inl err => ilog LOG_ERR "Error resampling: %s" err ;; ret None
    end.

(** The label [err] of [mix_add]. *)
Definition mix_add_err (frame : option AVFrame) (err : string) : M W Z :=
  ilog LOG_ERR "Failed to add frame to mixer: %s" err ;;
  av_frame_free frame ;;
  ret (-1).

(** [mix_add] up to the call of [mix_silence_fill]: [Some r] when the
    function has returned [r] through its [err] label, [None] when control
    reaches the [while (1)] loop. The timestamp of the frame is an
    [int64_t], the counters are [uint64_t]. *)
Definition mix_add_submit (fuel : nat) (frame : AVFrame) (idx : nat)
  : M W (option Z) :=
  if (NUM_INPUTS <=? idx)%nat
  then r <- mix_add_err (Some frame) "index out of range" ;; ret (Some r)
  else
    m <- get_mix ;;
    if src_ctxs m !!! idx =? NULL
    then r <- mix_add_err (Some frame) "mixer not initialized" ;; ret (Some r)
    else
      when (pts_offs m !!! idx =? PTS_UNSET)
        (modify_mix (λ m, set_pts_offs m
                            (<[idx := u64 (out_pts m - pts frame)]> (pts_offs m)))) ;;
      m <- get_mix ;;
      let frame := frame_set_pts frame (s64 (pts frame + pts_offs m !!! idx)) in
      mix_silence_fill_idx_upto fuel idx (u64 (pts frame)) ;;
      let next_pts := u64 (pts frame + nb_samples frame) in
      m <- get_mix ;;
      r <- ext (av_buffersrc_add_frame (src_ctxs m !!! idx) frame) ;;
      if negb (rc r =? 0)
      then r <- mix_add_err (Some frame) "failed to add frame to mixer" ;; ret (Some r)
      else
        when (out_pts m <? next_pts) (modify_mix (λ m, set_out_pts m next_pts)) ;;
        when (in_pts m !!! idx <? next_pts)
          (modify_mix (λ m, set_in_pts m (<[idx := next_pts]> (in_pts m)))) ;;
        av_frame_free (Some frame) ;;
        mix_silence_fill fuel ;;
        ret None.

(** One turn of the [while (1)] loop of [mix_add]; [frame] is the local
    variable of that name. [inl r] leaves the function with [r], [inr f]
    goes round again. *)
Definition mix_add_pull (frame : option AVFrame) : M W (Z + option AVFrame) :=
  m <- get_mix ;;
  r <- ext (av_buffersink_get_frame (sink_ctx m)) ;;
  if rc r <? 0 then
    if rc r =? AVERROR_EAGAIN then ret (inl 0)
    else r <- mix_add_err frame "failed to get frame from mixer" ;; ret (inl r)
  else
    modify_mix (λ m, set_sink_frame m (out_frame r)) ;;
    frame <- mix_resample_frame (out_frame r) ;;
    r <- ext (output_add frame) ;;
    modify_mix (λ m, set_sink_frame m frame_zero) ;;
    if negb (rc r =? 0) then ret (inl (-1))
    else ret (inr frame).

Fixpoint mix_add_drain (fuel : nat) (frame : option AVFrame) : M W Z :=
  match fuel with
  | O => out_of_fuel
  | S fuel' =>
      r <- mix_add_pull frame ;;
      match r with
      | inl code => ret code
      | inr frame => mix_add_drain fuel' frame
      end
  end.

Definition mix_add (fuel : nat) (frame : AVFrame) (idx : nat) : M W Z :=
  r <- mix_add_submit fuel frame idx ;;
  match r with
  | Some code => ret code
  | None => mix_add_drain fuel None
  end.

(** The operations a caller has on a session. *)
Inductive op :=
| op_config (clockrate channels : Z)
| op_get_index
| op_add (frame : AVFrame) (idx : nat).

Definition run_op (fuel : nat) (o : op) : M W Z :=
  match o with
  | op_config cr ch => mix_config cr ch
  | op_get_index => i <- mix_get_index ;; ret (Z.of_nat i)
  | op_add frame idx => mix_add fuel frame idx
  end.

Fixpoint run_ops (fuel : nat) (l : list op) : M W (list Z) :=
  match l with
  | [] => ret []
  | o :: l' => r <- run_op fuel o ;; rs <- run_ops fuel l' ;; ret (r :: rs)
  end.

(** The states a session can be in: a new session in any world, and what an
    operation that returns makes of a reachable state. *)
Inductive reachable : state W → Prop :=
| reachable_new w : reachable (mkState mix_new w [])
| reachable_op st fuel o r st' :
    reachable st → run_op fuel o st = Some (r, st') → reachable st'.

(** The silence frame as [mix_silence_fill_idx_upto] first fills it in,
    and with the buffer that the answer [r] of [av_frame_get_buffer] gave
    it, cleared. *)
Definition silence_template (s : Z) (m : mix_s) : AVFrame :=
  mkFrame AV_SAMPLE_FMT_S16 0 (s32 s) (clockrate m)
    (av_get_default_channel_layout (channels m)) [].

Definition silence_cleared (sf : AVFrame) (r : reply) : AVFrame :=
  frame_set_data sf (memset (data (out_frame r)) 0 (length (data (out_frame r)))).

(** The size of the chunk written when the input stands at [inp]. *)
Definition silence_chunk (s upto inp : Z) : Z :=
  s32 (Z.min s (u64 (upto - inp))).

(** The state after one turn of the loop of silence, from a state [st1]
    that has the silence frame [sf]. *)
Definition silence_step (s : Z) (idx : nat) (upto : Z) (sf : AVFrame)
    (st1 : state W) : state W :=
  let inp := in_pts (mix st1) !!! idx in
  let f := frame_set_nb_samples (frame_set_pts sf (s64 inp))
             (silence_chunk s upto inp) in
  let c := av_buffersrc_write_frame (src_ctxs (mix st1) !!! idx) f in
  let r := respond (world st1) c in
  mkState
    (set_in_pts (set_silence_frame (mix st1) (Some f))
       (<[idx := u64 (inp + nb_samples f)]> (in_pts (mix st1))))
    r.2
    ((if rc r.1 =? 0 then []
      else [Logged LOG_WARN "Failed to write silence frame to buffer" ""])
     ++ Called c r.1 :: trace st1).


(** The session once the offset of input [idx] is resolved against
    [frame], the frame with its timestamp adjusted, and the session once its
    counters have taken in a frame that ends at [next_pts]. *)
Definition offset_resolved (frame : AVFrame) (idx : nat) (m : mix_s) : mix_s :=
  if pts_offs m !!! idx =? PTS_UNSET
  then set_pts_offs m (<[idx := u64 (out_pts m - pts frame)]> (pts_offs m))
  else m.

Definition frame_adjusted (frame : AVFrame) (idx : nat) (m : mix_s) : AVFrame :=
  frame_set_pts frame (s64 (pts frame + pts_offs m !!! idx)).

Definition counters_updated (next_pts : Z) (idx : nat) (m : mix_s) : mix_s :=
  let m1 := if out_pts m <? next_pts then set_out_pts m next_pts else m in
  if in_pts m !!! idx <? next_pts
  then set_in_pts m1 (<[idx := next_pts]> (in_pts m1))
  else m1.

(** The state in which [mix_add] leaves through its [err] label. *)
Definition add_failed (frame : option AVFrame) (err : string) (st : state W)
  : state W :=
  mkState (mix st) (world st)
    (Freed frame :: Logged LOG_ERR "Failed to add frame to mixer: %s" err
     :: trace st).

(** [pulled st frame k st' frame']: from [st], [k] turns of the loop of
    [mix_add] have each handed a frame to the output, which took it; the
    loop is about to start its next turn in [st']. *)
Inductive pulled : state W → option AVFrame → nat → state W → option AVFrame → Prop :=
| pulled_0 st frame : pulled st frame 0 st frame
| pulled_S st frame st1 frame1 k st2 frame2 :
    mix_add_pull frame st = Some (inr frame1, st1) →
    pulled st1 frame1 k st2 frame2 →
    pulled st frame (S k) st2 frame2.

End Mixer.

(** ** Reading a trace *)

(** The events of [st'] that [st] does not have yet, newest first. *)
Definition new_events {W} (st st' : state W) : list event :=
  take (length (trace st') - length (trace st)) (trace st').

(** The silence frames written to an input, oldest first. *)
Definition silence_writes (ev : list event) : list AVFrame :=
  omap (λ e, match e with
             | Called (av_buffersrc_write_frame _ f) _ => Some f
             | _ => None
             end) (reverse ev).

(** The silence frames written, each with the filter context it went to
    and the answer it got, oldest first. *)
Definition silence_written (ev : list event) : list (Z * AVFrame * reply) :=
  omap (λ e, match e with
             | Called (av_buffersrc_write_frame ctx f) r => Some (ctx, f, r)
             | _ => None
             end) (reverse ev).



(** [counted from l to]: the frames written [l] account for the way a
    counter has moved from [from] to [to]. Each frame, whatever the answer
    it got, starts where the counter stood, has at least one sample, and has
    moved the counter on by its samples. *)
Fixpoint counted (from : Z) (l : list (Z * AVFrame * reply)) (to : Z) : Prop :=
  match l with
  | [] => to = from
  | w :: l' =>
      u64 (pts w.1.2) = from ∧ 0 < nb_samples w.1.2
      ∧ counted (from + nb_samples w.1.2) l' to
  end.

(** The message of [mix_silence_fill_idx_upto] when the silence frame gets
    no buffers. *)
Definition silence_alloc_failed : event :=
  Logged LOG_ERR "Failed to get silence frame buffers" "".

(** Every frame handed to [av_buffersrc_add_frame] was accepted, has a
    sample count that is not negative and ends below 2^64. *)
Definition frames_accepted (ev : list event) : Prop :=
  ∀ ctx f r, Called (av_buffersrc_add_frame ctx f) r ∈ ev →
    rc r = 0 ∧ 0 ≤ nb_samples f ∧ u64 (pts f) + nb_samples f < 2 ^ 64.

(** ** Predicates on a session *)

Definition in_u64 (z : Z) : Prop := 0 ≤ z < 2 ^ 64.

(** The arrays have [NUM_INPUTS] cells and every field holds a value of its
    C type. *)
Record mix_wf (m : mix_s) : Prop := {
  wf_src_ctxs : length (src_ctxs m) = NUM_INPUTS;
  wf_pts_offs : length (pts_offs m) = NUM_INPUTS;
  wf_in_pts : length (in_pts m) = NUM_INPUTS;
  wf_in_pts_range : Forall in_u64 (in_pts m);
  wf_out_pts : in_u64 (out_pts m);
  wf_clockrate : - 2 ^ 31 ≤ clockrate m < 2 ^ 31
}.

(** [advanced m m']: from [m] to [m'] inputs have been moved forward and
    nothing else of the timeline has changed. *)
Definition advanced (m m' : mix_s) : Prop :=
  out_pts m' = out_pts m ∧ clockrate m' = clockrate m
  ∧ pts_offs m' = pts_offs m ∧ src_ctxs m' = src_ctxs m
  ∧ length (in_pts m') = length (in_pts m)
  ∧ ∀ j, in_pts m !!! j ≤ in_pts m' !!! j.

(** No pointer into the filter graph is left. *)
Definition unbuilt (m : mix_s) : Prop :=
  graph m = NULL ∧ amix_ctx m = NULL ∧ sink_ctx m = NULL
  ∧ ∀ i, (i < NUM_INPUTS)%nat → src_ctxs m !!! i = NULL.

(** The largest [in_pts], 0 for inputs that never had a frame. *)
Definition max_in_pts (m : mix_s) : Z := foldr Z.max 0 (in_pts m).

(** No input is more than one second behind the output. The clock rate is
    read as [mix_silence_fill] reads it. *)
Definition drift_bounded (m : mix_s) : Prop :=
  u64 (clockrate m) ≤ out_pts m →
  ∀ i, (i < NUM_INPUTS)%nat → out_pts m - u64 (clockrate m) ≤ in_pts m !!! i.


(** ** A world to run the mixer in

    A small stand-in for the libraries: pointers are handed out in
    sequence, every call succeeds unless the list kept for that function
    says otherwise, the resampler hands back the samples it is given, and
    the sink of the graph yields the frames of [sim_ready], then [EAGAIN]. *)
Record sim := mkSim {
  sim_next : Z;
  sim_graph_alloc : list Z;
  sim_get_buffer : list Z;
  sim_write_frame : list Z;
  sim_add_frame : list Z;
  sim_resample_open : list Z;
  sim_output_add : list Z;
  sim_ready : list AVFrame
}.

Definition sim_ok : sim := mkSim 1 [] [] [] [] [] [] [].

Definition sim_reply (z : Z) : reply := mkReply z 0 frame_zero.

(** The buffer a frame is given: two bytes for each sample, not cleared. *)
Definition sim_buffer (f : AVFrame) : AVFrame :=
  frame_set_data frame_zero (replicate (Z.to_nat (2 * nb_samples f)) 85).

Definition sim_respond (w : sim) (c : call) : reply * sim :=
  let fresh := mkSim (sim_next w + 1) (sim_graph_alloc w) (sim_get_buffer w)
                 (sim_write_frame w) (sim_add_frame w) (sim_resample_open w)
                 (sim_output_add w) (sim_ready w) in
  match c with
  | avfilter_graph_alloc =>
      match sim_graph_alloc w with
      | [] => (sim_reply (sim_next w), fresh)
      | z :: l =>
          (sim_reply z,
           mkSim (sim_next w + 1) l (sim_get_buffer w) (sim_write_frame w)
             (sim_add_frame w) (sim_resample_open w) (sim_output_add w)
             (sim_ready w))
      end
  | avfilter_get_by_name _ | avresample_alloc_context | av_frame_alloc =>
      (sim_reply (sim_next w), fresh)
  | avfilter_graph_create_filter _ _ _ =>
      (mkReply 0 (sim_next w) frame_zero, fresh)
  | av_frame_get_buffer f =>
      match sim_get_buffer w with
      | [] => (mkReply 0 0 (sim_buffer f), w)
      | z :: l =>
          (sim_reply z,
           mkSim (sim_next w) (sim_graph_alloc w) l (sim_write_frame w)
             (sim_add_frame w) (sim_resample_open w) (sim_output_add w)
             (sim_ready w))
      end
  | av_buffersrc_write_frame _ _ =>
      match sim_write_frame w with
      | [] => (sim_reply 0, w)
      | z :: l =>
          (sim_reply z,
           mkSim (sim_next w) (sim_graph_alloc w) (sim_get_buffer w) l
             (sim_add_frame w) (sim_resample_open w) (sim_output_add w)
             (sim_ready w))
      end
  | av_buffersrc_add_frame _ _ =>
      match sim_add_frame w with
      | [] => (sim_reply 0, w)
      | z :: l =>
          (sim_reply z,
           mkSim (sim_next w) (sim_graph_alloc w) (sim_get_buffer w)
             (sim_write_frame w) l (sim_resample_open w) (sim_output_add w)
             (sim_ready w))
      end
  | avresample_open _ =>
      match sim_resample_open w with
      | [] => (sim_reply 0, w)
      | z :: l =>
          (sim_reply z,
           mkSim (sim_next w) (sim_graph_alloc w) (sim_get_buffer w)
             (sim_write_frame w) (sim_add_frame w) l (sim_output_add w)
             (sim_ready w))
      end
  | avresample_convert _ _ f => (mkReply (nb_samples f) 0 f, w)
  | av_buffersink_get_frame _ =>
      match sim_ready w with
      | [] => (sim_reply AVERROR_EAGAIN, w)
      | f :: l =>
          (mkReply 0 0 f,
           mkSim (sim_next w) (sim_graph_alloc w) (sim_get_buffer w)
             (sim_write_frame w) (sim_add_frame w) (sim_resample_open w)
             (sim_output_add w) l)
      end
  | output_add _ =>
      match sim_output_add w with
      | [] => (sim_reply 0, w)
      | z :: l =>
          (sim_reply z,
           mkSim (sim_next w) (sim_graph_alloc w) (sim_get_buffer w)
             (sim_write_frame w) (sim_add_frame w) (sim_resample_open w) l
             (sim_ready w))
      end
  | _ => (sim_reply 0, w)
  end.

#[export] Instance sim_extern : Extern sim := {
  respond := sim_respond;
  av_get_default_channel_layout n :=
    if n =? 1 then 4 else if n =? 2 then 3 else 0;
  av_rescale_rnd a b c := if c <=? 0 then - 2 ^ 63 else - (- (a * b) / c);
  av_rescale a b c := if c <=? 0 then - 2 ^ 63 else (2 * a * b + c) / (2 * c)
}.

(** A frame of [n] samples of S16 audio at 8000 Hz, mono, stamped [t];
    its samples are left out. *)
Definition pcm (t n : Z) : AVFrame := mkFrame AV_SAMPLE_FMT_S16 t n 8000 4 [].

(** A new session in the world [w]. *)
Definition sim_new (w : sim) : state sim := mkState mix_new w [].

(** The state after the operations [l], if they all return. *)
Definition sim_after (fuel : nat) (w : sim) (l : list op) : option (state sim) :=
  snd <$> run_ops fuel l (sim_new w).

(** The first [n] indices a session hands out. *)
Fixpoint mix_get_indices `{!Extern W} (n : nat) : M W (list nat) :=
  match n with
  | O => ret []
  | S n' => i <- mix_get_index ;; l <- mix_get_indices n' ;; ret (i :: l)
  end.

(** The state after the operations [l]; the new session if one of them
    does not return. *)
Definition sim_state (fuel : nat) (w : sim) (l : list op) : state sim :=
  default (sim_new w) (sim_after fuel w l).

(** Worlds in which one call fails. *)
Definition sim_no_buffers : sim := mkSim 1 [] [-12] [] [] [] [] [].
Definition sim_add_refused : sim := mkSim 1 [] [] [] [0; -1] [] [] [].
Definition sim_write_refused : sim := mkSim 1 [] [] [-1] [] [] [] [].
Definition sim_no_graph : sim := mkSim 1 [NULL] [] [] [] [] [] [].

(** A frame of planar float audio, which the output has to convert. *)
Definition fltp (t n : Z) : AVFrame := mkFrame 8 t n 8000 4 [].

Definition sim_no_resampler : sim := mkSim 1 [] [] [] [] [-1] [] [fltp 0 160].
Definition sim_no_resampler_strict : sim :=
  mkSim 1 [] [] [] [] [-1] [-1] [fltp 0 160].
Definition sim_sink_refuses : sim :=
  mkSim 1 [] [] [] [] [] [0; -1] [pcm 0 160; pcm 160 160; pcm 320 160].

(** ** Reasoning about computations *)

(** [inv P c]: a session that satisfies [P] still does after [c]. *)
Definition inv {W A} (P : mix_s → Prop) (c : M W A) : Prop :=
  ∀ st a st', c st = Some (a, st') → P (mix st) → P (mix st').

(** [grows c]: [c] only adds events to the trace. *)
Definition grows {W A} (c : M W A) : Prop :=
  ∀ st a st', c st = Some (a, st') → ∃ ev, trace st' = ev ++ trace st.

(** ** Further vocabulary

    What the properties of the second part are stated with. *)

(** [emits Q c]: [c] only adds events to the trace, and every event it adds
    satisfies [Q]. *)
Definition emits {W A} (Q : event → Prop) (c : M W A) : Prop :=
  ∀ st a st', c st = Some (a, st') →
    ∃ ev, trace st' = ev ++ trace st ∧ Forall Q ev.

(** The filter contexts handed to [avfilter_free], oldest first. *)
Definition filters_freed (ev : list event) : list Z :=
  omap (λ e, match e with
             | Called (avfilter_free p) _ => Some p
             | _ => None
             end) (reverse ev).

(** The frames handed to [av_frame_free], oldest first. *)
Definition frames_freed (ev : list event) : list (option AVFrame) :=
  omap (λ e, match e with
             | Freed f => Some f
             | _ => None
             end) (reverse ev).

(** The frames handed to [av_buffersrc_add_frame], with the input they went
    to, oldest first. *)
Definition frames_added (ev : list event) : list (Z * AVFrame) :=
  omap (λ e, match e with
             | Called (av_buffersrc_add_frame ctx f) _ => Some (ctx, f)
             | _ => None
             end) (reverse ev).

(** The calls that build or take down the topology. *)
Definition topology_call (c : call) : bool :=
  match c with
  | avfilter_graph_alloc | avfilter_get_by_name _
  | avfilter_graph_create_filter _ _ _ | avfilter_link _ _ _ _
  | avfilter_graph_config _ | avfilter_free _ | avfilter_graph_free _
  | avresample_free _ => true
  | _ => false
  end.

(** The calls of the resampler and of its frame. *)
Definition resample_call (c : call) : bool :=
  match c with
  | avresample_alloc_context | av_opt_set_int _ _ _ | avresample_open _
  | avresample_available _ | avresample_get_delay _
  | avresample_convert _ _ _ | av_frame_alloc | av_frame_get_buffer _ => true
  | _ => false
  end.

(** The events of [mix_shutdown]. *)
Definition shutdown_event (e : event) : Prop :=
  match e with
  | Called (avfilter_free p) _ => p ≠ NULL
  | Called (avresample_free _) _ | Called (avfilter_graph_free _) _ => True
  | _ => False
  end.

(** The events of [mix_config]: calls on the topology and the message of a
    failed build. *)
Definition config_event (e : event) : Prop :=
  match e with
  | Called c _ => topology_call c = true
  | Logged level msg _ => level = LOG_ERR ∧ msg = "Failed to initialize mixer: %s"%string
  | Freed _ => False
  end.

(** The events of the silence fill. *)
Definition silence_event (e : event) : Prop :=
  match e with
  | Called av_frame_alloc _ | Called (av_frame_get_buffer _) _
  | Called (av_buffersrc_write_frame _ _) _ => True
  | Logged level msg _ =>
      (level = LOG_ERR ∧ msg = "Failed to get silence frame buffers"%string)
      ∨ (level = LOG_WARN ∧ msg = "Failed to write silence frame to buffer"%string)
  | _ => False
  end.

(** The events of [mix_resample_frame]. *)
Definition resample_event (e : event) : Prop :=
  match e with
  | Called c _ => resample_call c = true
  | Logged level msg _ => level = LOG_ERR ∧ msg = "Error resampling: %s"%string
  | Freed _ => True
  end.

(** The session [mix_shutdown] leaves: no topology and no resampler. *)
Definition shut (m : mix_s) : mix_s :=
  set_graph
    (set_avresample
       (set_src_ctxs (set_sink_ctx (set_amix_ctx m NULL) NULL)
          (replicate NUM_INPUTS NULL))
       NULL)
    NULL.

Section Topology.
Context {W : Type} `{!Extern W}.

(** [built m ev]: the events [ev] have built the topology the session [m]
    holds: a graph, an [abuffer] for every input made for the format of the
    session and linked to its pad of [amix], [amix] linked to the sink, and
    the graph configured, every call with success. *)
Definition built (m : mix_s) (ev : list event) : Prop :=
  graph m ≠ NULL
  ∧ (∀ i, (i < NUM_INPUTS)%nat →
       ∃ flt r1 r2,
         rc r1 = 0 ∧ out_ptr r1 = src_ctxs m !!! i ∧ rc r2 = 0
         ∧ Called (avfilter_graph_create_filter flt
                     (abuffer_args (clockrate m)
                        (av_get_default_channel_layout (channels m)))
                     (graph m)) r1 ∈ ev
         ∧ Called (avfilter_link (src_ctxs m !!! i) 0 (amix_ctx m) i) r2 ∈ ev)
  ∧ (∃ r, rc r = 0
          ∧ Called (avfilter_link (amix_ctx m) 0 (sink_ctx m) 0) r ∈ ev)
  ∧ (∃ r, rc r = 0 ∧ Called (avfilter_graph_config (graph m)) r ∈ ev).

End Topology.

(** The events of the loop of [mix_add] that drains the sink. *)
Definition drain_event (e : event) : Prop :=
  match e with
  | Called (av_buffersink_get_frame _) _ | Called (output_add _) _ => True
  | Called c _ => resample_call c = true
  | Logged level msg _ =>
      level = LOG_ERR
      ∧ (msg = "Error resampling: %s"%string
         ∨ msg = "Failed to add frame to mixer: %s"%string)
  | Freed _ => True
  end.

(** The events of the turns of that loop the output has accepted. *)
Definition pulled_event (e : event) : Prop :=
  match e with
  | Called (av_buffersink_get_frame _) r => 0 ≤ rc r
  | Called (output_add _) r => rc r = 0
  | Called c _ => resample_call c = true
  | Logged level msg _ => level = LOG_ERR ∧ msg = "Error resampling: %s"%string
  | Freed _ => True
  end.

(** Every frame handed to [av_buffersrc_add_frame] was accepted. *)
Definition added_ok (ev : list event) : Prop :=
  ∀ ctx f r, Called (av_buffersrc_add_frame ctx f) r ∈ ev → rc r = 0.

(** [mix_add] turns the frame away at its two first tests. *)
Definition index_rejected (idx : nat) (m : mix_s) : bool :=
  (NUM_INPUTS <=? idx)%nat || (src_ctxs m !!! idx =? NULL).

(** The frame as [mix_add] hands it to the input: with its timestamp
    moved by the offset of the input, resolved first if need be. *)
Definition frame_submitted (frame : AVFrame) (idx : nat) (m : mix_s) : AVFrame :=
  frame_adjusted frame idx (offset_resolved frame idx m).

(** No call on the sink of the graph or on the output. *)
Definition no_output (e : event) : Prop :=
  match e with
  | Called (av_buffersink_get_frame _) _ | Called (output_add _) _ => False
  | _ => True
  end.

(** No call that builds or takes down the topology. *)
Definition no_topology (e : event) : Prop :=
  match e with
  | Called c _ => topology_call c = false
  | _ => True
  end.

(** [tiles size from to l]: the pieces [l], each a start and a length,
    lie end to end from [from] to [to], none empty and none longer than
    [size]. *)
Fixpoint tiles (size from to : Z) (l : list (Z * Z)) : Prop :=
  match l with
  | [] => to = from
  | (start, n) :: l' => start = from ∧ 0 < n ≤ size ∧ tiles size (from + n) to l'
  end.

(** Two frames made for the same format: sample format, rate and channel
    layout. *)
Definition same_make (f g : AVFrame) : Prop :=
  format g = format f ∧ sample_rate g = sample_rate f
  ∧ channel_layout g = channel_layout f.

(** The session holds a silence frame made as [sf] was. *)
Definition silence_frame_like (sf : AVFrame) (m : mix_s) : Prop :=
  ∃ sf', silence_frame m = Some sf' ∧ same_make sf sf'.

(** [fails_in L c]: when [c] jumps to its [err] label, the message is one
    of [L]. *)
Definition fails_in {W A} (L : list string) (c : M W (string + A)) : Prop :=
  ∀ st e st', c st = Some (inl e, st') → e ∈ L.

(** The messages of [mix_resample_frame] and of [mix_config]. *)
Definition resample_errors : list string :=
  ["failed to alloc resample context"; "failed to init resample context";
   "failed to alloc resampling frame"; "failed to get resample buffers";
   "failed to resample audio"]%string.

Definition config_errors : list string :=
  ["failed to alloc filter graph"; "no amix filter available";
   "failed to create amix filter context"; "no abuffer filter available";
   "failed to create abuffer filter context"; "failed to link abuffer to amix";
   "no abuffersink filter available";
   "failed to create abuffersink filter context";
   "failed to link amix to abuffersink"; "failed to configure filter chain"]%string.

(** No call that allocates, sets up or opens the resampler. *)
Definition no_resampler_open (e : event) : Prop :=
  match e with
  | Called avresample_alloc_context _ | Called (av_opt_set_int _ _ _) _
  | Called (avresample_open _) _ => False
  | _ => True
  end.

(** [added_ok], computed. *)
Definition added_okb (ev : list event) : bool :=
  forallb (λ e, match e with
                | Called (av_buffersrc_add_frame _ _) r => rc r =? 0
                | _ => true
                end) ev.

(** The filter contexts a session holds. *)
Definition contexts (m : mix_s) : list Z :=
  amix_ctx m :: sink_ctx m :: src_ctxs m.

(** A world whose sink has one frame ready. *)
Definition sim_one_ready : sim := mkSim 1 [] [] [] [] [] [] [pcm 0 160].

(** * Properties *)

(** ** Machine integers *)

Lemma u64_range z : in_u64 (u64 z).
Proof. unfold in_u64, u64. by apply Z.mod_pos_bound. Qed.

Lemma s32_range z : - 2 ^ 31 ≤ s32 z < 2 ^ 31.
Proof. unfold s32. pose proof (Z.mod_pos_bound (z + 2 ^ 31) (2 ^ 32)). lia. Qed.

Lemma u64_id z : in_u64 z → u64 z = z.
Proof. unfold in_u64, u64. intros. by apply Z.mod_small. Qed.

Lemma u64_s64 z : u64 (s64 z) = u64 z.
Proof.
  unfold u64, s64.
  rewrite Zminus_mod_idemp_l.
  f_equal. lia.
Qed.

Lemma s32_id z : - 2 ^ 31 ≤ z < 2 ^ 31 → s32 z = z.
Proof. unfold s32. intros. rewrite Z.mod_small; lia. Qed.

Lemma u32_s32 z : 0 ≤ z < 2 ^ 32 → u32 (s32 z) = z.
Proof.
  intros Hz. unfold u32, s32.
  rewrite Zminus_mod_idemp_l.
  replace (z + 2 ^ 31 - 2 ^ 31) with z by lia.
  by apply Z.mod_small.
Qed.

Ltac wf_setter :=
  intros;
  match goal with H : mix_wf _ |- _ => destruct H end;
  constructor; simpl; rewrite ?length_insert;
  auto using s32_range, Forall_insert.


Section Rules.
Context {W : Type} `{!Extern W}.

Lemma run_bind {A B} (c : M W A) (k : A → M W B) st b st' :
  (x <- c ;; k x) st = Some (b, st') ↔
  ∃ a st1, c st = Some (a, st1) ∧ k a st1 = Some (b, st').
Proof.
  unfold bind. destruct (c st) as [[a st1]|].
  - split; [eauto | intros (? & ? & [= <- <-] & ?); done].
  - split; [done | intros (? & ? & [=] & ?)].
Qed.

Section Inv.
Context (P : mix_s → Prop).

Lemma inv_ret {A} (a : A) : inv (W:=W) P (ret a).
Proof. intros st a' st' [= <- <-]. done. Qed.

Lemma inv_get_mix : inv (W:=W) P get_mix.
Proof. intros st a st' [= <- <-]. done. Qed.

Lemma inv_out_of_fuel {A} : inv (W:=W) (A:=A) P out_of_fuel.
Proof. intros st a st' [=]. Qed.

Lemma inv_emit e : inv (W:=W) P (emit e).
Proof. intros st a st' [= <- <-]. done. Qed.

Lemma inv_ext c : inv P (ext c).
Proof.
  intros st a st'. unfold ext. destruct (respond _ _). intros [= <- <-]. done.
Qed.

Lemma inv_modify g : (∀ m, P m → P (g m)) → inv (W:=W) P (modify_mix g).
Proof. intros Hg st a st' [= <- <-]. apply Hg. Qed.

Lemma inv_bind {A C} (c : M W A) (k : A → M W C) :
  inv P c → (∀ a, inv P (k a)) → inv P (x <- c ;; k x).
Proof.
  intros Hc Hk st b st' (a & st1 & H1 & H2)%run_bind HP.
  eapply Hk; [done |]. eapply Hc; done.
Qed.

Lemma inv_when b c : inv (W:=W) P c → inv P (when b c).
Proof. destruct b; [done | intros _; apply inv_ret]. Qed.

Lemma inv_for_each l body :
  (∀ i, inv (W:=W) P (body i)) → inv P (for_each l body).
Proof.
  intros Hb. induction l as [|i l IH]; simpl.
  - apply inv_ret.
  - apply inv_bind; auto.
Qed.

Lemma inv_lift {A} (c : M W A) : inv P c → inv P (lift c).
Proof. intros Hc. apply inv_bind; [done | intros; apply inv_ret]. Qed.

Lemma inv_goto_err_if b msg : inv (W:=W) P (goto_err_if b msg).
Proof. apply inv_ret. Qed.

Lemma inv_ebind {A C} (c : M W (string + A)) (k : A → M W (string + C)) :
  inv P c → (∀ a, inv P (k a)) → inv P (x <-? c ;; k x).
Proof.
  intros Hc Hk. apply inv_bind; [done |]. intros [e|a]; [apply inv_ret | done].
Qed.

End Inv.

Lemma grows_ret {A} (a : A) : grows (W:=W) (ret a).
Proof. intros st a' st' [= <- <-]. by exists []. Qed.

Lemma grows_get_mix : grows (W:=W) get_mix.
Proof. intros st a st' [= <- <-]. by exists []. Qed.

Lemma grows_out_of_fuel {A} : grows (W:=W) (A:=A) out_of_fuel.
Proof. intros st a st' [=]. Qed.

Lemma grows_emit e : grows (W:=W) (emit e).
Proof. intros st a st' [= <- <-]. by exists [e]. Qed.

Lemma grows_ext c : grows (ext c).
Proof.
  intros st a st'. unfold ext. destruct (respond _ _) as [r w].
  intros [= <- <-]. by exists [Called c r].
Qed.

Lemma grows_modify g : grows (W:=W) (modify_mix g).
Proof. intros st a st' [= <- <-]. by exists []. Qed.

Lemma grows_bind {A C} (c : M W A) (k : A → M W C) :
  grows c → (∀ a, grows (k a)) → grows (x <- c ;; k x).
Proof.
  intros Hc Hk st b st' (a & st1 & H1 & H2)%run_bind.
  destruct (Hc _ _ _ H1) as [ev1 E1], (Hk _ _ _ _ H2) as [ev2 E2].
  exists (ev2 ++ ev1). by rewrite E2, E1, (assoc_L (++)).
Qed.

Lemma grows_when b c : grows (W:=W) c → grows (when b c).
Proof. destruct b; [done | intros _; apply grows_ret]. Qed.

Lemma grows_for_each l body :
  (∀ i, grows (W:=W) (body i)) → grows (for_each l body).
Proof.
  intros Hb. induction l as [|i l IH]; simpl.
  - apply grows_ret.
  - apply grows_bind; auto.
Qed.

Lemma grows_lift {A} (c : M W A) : grows c → grows (lift c).
Proof. intros Hc. apply grows_bind; [done | intros; apply grows_ret]. Qed.

Lemma grows_goto_err_if b msg : grows (W:=W) (goto_err_if b msg).
Proof. apply grows_ret. Qed.

Lemma grows_ebind {A C} (c : M W (string + A)) (k : A → M W (string + C)) :
  grows c → (∀ a, grows (k a)) → grows (x <-? c ;; k x).
Proof.
  intros Hc Hk. apply grows_bind; [done |]. intros [e|a]; [apply grows_ret | done].
Qed.

(** The new events of a run are what the run put in front of the trace. *)
Lemma new_events_app (st st' : state W) ev :
  trace st' = ev ++ trace st → new_events st st' = ev.
Proof.
  intros E. unfold new_events. rewrite E, length_app.
  replace (length ev + length (trace st) - length (trace st))%nat
    with (length ev) by lia.
  by rewrite take_app_length.
Qed.

End Rules.

Ltac inv_step :=
  first
    [ apply inv_ret | apply inv_get_mix | apply inv_ext
    | apply inv_emit | apply inv_out_of_fuel
    | apply inv_modify; intros ? ?; auto; fail
    | apply inv_lift | apply inv_goto_err_if
    | apply inv_when
    | apply inv_for_each; intros ?
    | apply inv_ebind; [| intros ?]
    | apply inv_bind; [| intros ?]
    | match goal with
      | |- inv _ (if ?b then _ else _) => destruct b
      | |- inv _ (match ?x with _ => _ end) => destruct x
      end ].

Ltac grows_step :=
  first
    [ apply grows_ret | apply grows_get_mix | apply grows_ext
    | apply grows_emit | apply grows_out_of_fuel | apply grows_modify
    | apply grows_lift | apply grows_goto_err_if
    | apply grows_when
    | apply grows_for_each; intros ?
    | apply grows_ebind; [| intros ?]
    | apply grows_bind; [| intros ?]
    | match goal with
      | |- grows (if ?b then _ else _) => destruct b
      | |- grows (match ?x with _ => _ end) => destruct x
      end ].

Section Session.
Context {W : Type} `{!Extern W}.

(** *** What the parts of the mixer leave alone *)

Section Stable.
Context (P : mix_s → Prop).

Lemma mix_get_index_inv :
  (∀ m v, P m → P (set_next_idx m v)) → inv (W:=W) P mix_get_index.
Proof. intros H1. unfold mix_get_index. repeat inv_step. Qed.

Lemma mix_shutdown_inv :
  (∀ m v, P m → P (set_amix_ctx m v)) →
  (∀ m v, P m → P (set_sink_ctx m v)) →
  (∀ m i v, P m → P (set_src_ctxs m (<[i := v]> (src_ctxs m)))) →
  (∀ m v, P m → P (set_avresample m v)) →
  (∀ m v, P m → P (set_graph m v)) →
  inv P mix_shutdown.
Proof. intros H1 H2 H3 H4 H5. unfold mix_shutdown. repeat inv_step. Qed.

Lemma mix_config_inputs_inv l flt :
  (∀ m i v, P m → P (set_src_ctxs m (<[i := v]> (src_ctxs m)))) →
  inv P (mix_config_inputs l flt).
Proof. intros H1. induction l as [|i l IH]; simpl; repeat inv_step. done. Qed.

Lemma mix_config_inv cr ch :
  (∀ m v, P m → P (set_amix_ctx m v)) →
  (∀ m v, P m → P (set_sink_ctx m v)) →
  (∀ m i v, P m → P (set_src_ctxs m (<[i := v]> (src_ctxs m)))) →
  (∀ m v, P m → P (set_avresample m v)) →
  (∀ m v, P m → P (set_graph m v)) →
  (∀ m, P m → P (set_format m (s32 cr) (s32 ch))) →
  inv P (mix_config cr ch).
Proof.
  intros H1 H2 H3 H4 H5 H6.
  assert (inv P (mix_config_format_mismatch cr ch)).
  { unfold mix_config_format_mismatch, mix_config_build.
    repeat first [ apply mix_shutdown_inv; done
                 | apply mix_config_inputs_inv; done
                 | inv_step ]. }
  unfold mix_config. repeat inv_step; done.
Qed.

Lemma mix_silence_frame_inv s :
  (∀ m v, P m → P (set_silence_frame m v)) → inv P (mix_silence_frame s).
Proof. intros H1. unfold mix_silence_frame. repeat inv_step. Qed.

Lemma mix_silence_loop_inv fuel s idx upto :
  (∀ m v, P m → P (set_silence_frame m v)) →
  (∀ m v, P m → in_u64 v → P (set_in_pts m (<[idx := v]> (in_pts m)))) →
  inv P (mix_silence_loop fuel s idx upto).
Proof.
  intros H1 H2. induction fuel as [|fuel IH]; simpl.
  - repeat inv_step.
  - repeat first [ apply mix_silence_frame_inv; done | exact IH | inv_step ].
    apply inv_modify. intros m' Hm'. apply H2; [done |].
    unfold in_u64, u64. apply Z.mod_pos_bound. done.
Qed.

Lemma mix_silence_fill_idx_upto_inv fuel idx upto :
  (∀ m v, P m → P (set_silence_frame m v)) →
  (∀ m v, P m → in_u64 v → P (set_in_pts m (<[idx := v]> (in_pts m)))) →
  inv P (mix_silence_fill_idx_upto fuel idx upto).
Proof.
  intros H1 H2. unfold mix_silence_fill_idx_upto.
  repeat first [ apply mix_silence_loop_inv; done | inv_step ].
Qed.

Lemma mix_silence_fill_inv fuel :
  (∀ m v, P m → P (set_silence_frame m v)) →
  (∀ m i v, P m → in_u64 v → P (set_in_pts m (<[i := v]> (in_pts m)))) →
  inv P (mix_silence_fill fuel).
Proof.
  intros H1 H2. unfold mix_silence_fill.
  repeat first [ apply mix_silence_fill_idx_upto_inv; [done | by auto] | inv_step ].
Qed.

Lemma mix_resample_frame_inv frame :
  (∀ m v, P m → P (set_avresample m v)) →
  (∀ m v, P m → P (set_swr_frame m v)) →
  (∀ m v, P m → P (set_swr_buffers m v)) →
  inv P (mix_resample_frame frame).
Proof.
  intros H1 H2 H3.
  unfold mix_resample_frame, mix_resample_convert, mix_resample_open,
    mix_resample_grow, ilog, av_frame_free.
  repeat inv_step.
Qed.

Lemma mix_add_err_inv frame err : inv (W:=W) P (mix_add_err frame err).
Proof. unfold mix_add_err, ilog, av_frame_free. repeat inv_step. Qed.

Lemma mix_add_pull_inv frame :
  (∀ m v, P m → P (set_sink_frame m v)) →
  (∀ m v, P m → P (set_avresample m v)) →
  (∀ m v, P m → P (set_swr_frame m v)) →
  (∀ m v, P m → P (set_swr_buffers m v)) →
  inv P (mix_add_pull frame).
Proof.
  intros H1 H2 H3 H4. unfold mix_add_pull.
  repeat first [ apply mix_resample_frame_inv; done
               | apply mix_add_err_inv | inv_step ].
Qed.

Lemma mix_add_drain_inv fuel frame :
  (∀ m v, P m → P (set_sink_frame m v)) →
  (∀ m v, P m → P (set_avresample m v)) →
  (∀ m v, P m → P (set_swr_frame m v)) →
  (∀ m v, P m → P (set_swr_buffers m v)) →
  inv P (mix_add_drain fuel frame).
Proof.
  intros H1 H2 H3 H4. revert frame.
  induction fuel as [|fuel IH]; intros frame; simpl.
  - apply inv_out_of_fuel.
  - repeat first [ apply mix_add_pull_inv; done | apply IH | inv_step ].
Qed.

Lemma mix_add_submit_inv fuel frame idx :
  (∀ m v, P m → P (set_silence_frame m v)) →
  (∀ m v, P m → in_u64 v → P (set_in_pts m (<[idx := v]> (in_pts m)))) →
  (∀ m i v, P m → in_u64 v → P (set_in_pts m (<[i := v]> (in_pts m)))) →
  (∀ m v, P m → P (set_pts_offs m (<[idx := v]> (pts_offs m)))) →
  (∀ m v, P m → in_u64 v → P (set_out_pts m v)) →
  inv P (mix_add_submit fuel frame idx).
Proof.
  intros H1 H2 H2' H3 H4. unfold mix_add_submit.
  assert (∀ z, in_u64 (u64 z)) as Hu.
  { intros z. unfold in_u64, u64. by apply Z.mod_pos_bound. }
  repeat first [ apply mix_silence_fill_idx_upto_inv; done
               | apply mix_silence_fill_inv; done
               | apply mix_add_err_inv
               | apply inv_modify; intros ? ?; auto; fail
               | inv_step ].
Qed.

Lemma mix_add_inv fuel frame idx :
  (∀ m v, P m → P (set_silence_frame m v)) →
  (∀ m i v, P m → in_u64 v → P (set_in_pts m (<[i := v]> (in_pts m)))) →
  (∀ m v, P m → P (set_pts_offs m (<[idx := v]> (pts_offs m)))) →
  (∀ m v, P m → in_u64 v → P (set_out_pts m v)) →
  (∀ m v, P m → P (set_sink_frame m v)) →
  (∀ m v, P m → P (set_avresample m v)) →
  (∀ m v, P m → P (set_swr_frame m v)) →
  (∀ m v, P m → P (set_swr_buffers m v)) →
  inv P (mix_add fuel frame idx).
Proof.
  intros. unfold mix_add.
  repeat first [ apply mix_add_submit_inv; by auto
               | apply mix_add_drain_inv; done | inv_step ].
Qed.

End Stable.

(** *** Every part of the mixer only adds to the trace *)

Lemma mix_get_index_grows : grows (W:=W) mix_get_index.
Proof. unfold mix_get_index. repeat grows_step. Qed.

Lemma mix_shutdown_grows : grows mix_shutdown.
Proof. unfold mix_shutdown. repeat grows_step. Qed.

Lemma mix_config_inputs_grows l flt : grows (mix_config_inputs l flt).
Proof. induction l as [|i l IH]; simpl; repeat grows_step. done. Qed.

Lemma mix_config_grows cr ch : grows (mix_config cr ch).
Proof.
  assert (grows (mix_config_format_mismatch cr ch)).
  { unfold mix_config_format_mismatch, mix_config_build, ilog.
    repeat first [ apply mix_shutdown_grows | apply mix_config_inputs_grows
                 | grows_step ]. }
  unfold mix_config. repeat grows_step; done.
Qed.

Lemma mix_silence_frame_grows s : grows (mix_silence_frame s).
Proof. unfold mix_silence_frame, ilog. repeat grows_step. Qed.

Lemma mix_silence_loop_grows fuel s idx upto :
  grows (mix_silence_loop fuel s idx upto).
Proof.
  induction fuel as [|fuel IH]; simpl.
  - repeat grows_step.
  - unfold ilog.
    repeat first [ apply mix_silence_frame_grows | exact IH | grows_step ].
Qed.

Lemma mix_silence_fill_idx_upto_grows fuel idx upto :
  grows (mix_silence_fill_idx_upto fuel idx upto).
Proof.
  unfold mix_silence_fill_idx_upto.
  repeat first [ apply mix_silence_loop_grows | grows_step ].
Qed.

Lemma mix_silence_fill_grows fuel : grows (mix_silence_fill fuel).
Proof.
  unfold mix_silence_fill.
  repeat first [ apply mix_silence_fill_idx_upto_grows | grows_step ].
Qed.

Lemma mix_resample_frame_grows frame : grows (mix_resample_frame frame).
Proof.
  unfold mix_resample_frame, mix_resample_convert, mix_resample_open,
    mix_resample_grow, ilog, av_frame_free.
  repeat grows_step.
Qed.

Lemma mix_add_err_grows frame err : grows (W:=W) (mix_add_err frame err).
Proof. unfold mix_add_err, ilog, av_frame_free. repeat grows_step. Qed.

Lemma mix_add_pull_grows frame : grows (mix_add_pull frame).
Proof.
  unfold mix_add_pull.
  repeat first [ apply mix_resample_frame_grows | apply mix_add_err_grows
               | grows_step ].
Qed.

Lemma mix_add_drain_grows fuel frame : grows (mix_add_drain fuel frame).
Proof.
  revert frame. induction fuel as [|fuel IH]; intros frame; simpl.
  - apply grows_out_of_fuel.
  - repeat first [ apply mix_add_pull_grows | apply IH | grows_step ].
Qed.

Lemma mix_add_submit_grows fuel frame idx :
  grows (mix_add_submit fuel frame idx).
Proof.
  unfold mix_add_submit, av_frame_free.
  repeat first [ apply mix_silence_fill_idx_upto_grows
               | apply mix_silence_fill_grows | apply mix_add_err_grows
               | grows_step ].
Qed.

Lemma mix_add_grows fuel frame idx : grows (mix_add fuel frame idx).
Proof.
  unfold mix_add.
  repeat first [ apply mix_add_submit_grows | apply mix_add_drain_grows
               | grows_step ].
Qed.

Lemma run_op_grows fuel o : grows (run_op fuel o).
Proof.
  destruct o; simpl;
    repeat first [ apply mix_config_grows | apply mix_get_index_grows
                 | apply mix_add_grows | grows_step ].
Qed.

(** *** Well-formed sessions *)

Lemma mix_new_wf : mix_wf mix_new.
Proof.
  constructor; simpl; try done.
  all: repeat constructor; done.
Qed.

Lemma run_op_wf fuel o : inv mix_wf (run_op fuel o).
Proof.
  destruct o as [cr ch| |frame idx]; simpl.
  - apply mix_config_inv; wf_setter.
  - apply inv_bind; [| intros; apply inv_ret].
    apply mix_get_index_inv; wf_setter.
  - apply mix_add_inv; wf_setter.
Qed.

Lemma reachable_wf st : reachable st → mix_wf (mix st).
Proof.
  induction 1 as [w|st fuel o r st' _ IH Hrun]; simpl.
  - apply mix_new_wf.
  - by eapply run_op_wf.
Qed.

(** *** The loop of silence *)

Lemma mix_silence_frame_run s (st : state W) :
  mix_silence_frame s st =
  Some
    match silence_frame (mix st) with
    | Some sf => (Some sf, st)
    | None =>
        let sf := silence_template s (mix st) in
        let r1 := respond (world st) av_frame_alloc in
        let r2 := respond r1.2 (av_frame_get_buffer sf) in
        let tr := Called (av_frame_get_buffer sf) r2.1
                  :: Called av_frame_alloc r1.1 :: trace st in
        if rc r2.1 <? 0
        then (None, mkState (set_silence_frame (mix st) (Some sf)) r2.2
                      (silence_alloc_failed :: tr))
        else (Some (silence_cleared sf r2.1),
              mkState (set_silence_frame (mix st) (Some (silence_cleared sf r2.1)))
                r2.2 tr)
    end.
Proof.
  unfold mix_silence_frame, bind, get_mix, modify_mix, ext, ilog, emit, ret.
  destruct (silence_frame (mix st)); [done |]. simpl.
  destruct (respond (world st) av_frame_alloc) as [r1 w1]. simpl.
  destruct (respond w1 _) as [r2 w2]. simpl.
  destruct (rc r2 <? 0); done.
Qed.

Lemma mix_silence_loop_0 s idx upto (st : state W) :
  mix_silence_loop 0 s idx upto st =
  if in_pts (mix st) !!! idx <? upto then None else Some (tt, st).
Proof.
  simpl. unfold bind, get_mix. destruct (_ <? _); done.
Qed.

Lemma mix_silence_loop_S fuel s idx upto (st : state W) :
  mix_silence_loop (S fuel) s idx upto st =
  if in_pts (mix st) !!! idx <? upto then
    match mix_silence_frame s st with
    | Some (Some sf, st1) =>
        mix_silence_loop fuel s idx upto (silence_step s idx upto sf st1)
    | Some (None, st1) => Some (tt, st1)
    | None => None
    end
  else Some (tt, st).
Proof.
  simpl. unfold bind at 1, get_mix. simpl.
  destruct (_ <? _); [| done].
  unfold bind at 1. rewrite mix_silence_frame_run.
  destruct (silence_frame (mix st)) as [sf|] eqn:Esf.
  - unfold bind, modify_mix, ext, when, ilog, emit, ret, silence_step, silence_chunk. simpl.
    destruct (respond _ _) as [r w]. simpl.
    destruct (rc r =? 0); simpl; done.
  - simpl. destruct (rc _ <? 0); [done |].
    unfold bind, modify_mix, ext, when, ilog, emit, ret, silence_step, silence_chunk. simpl.
    destruct (respond _ (av_buffersrc_write_frame _ _)) as [r w]. simpl.
    destruct (rc r =? 0); simpl; done.
Qed.


Lemma silence_step_trace s idx upto sf (st1 : state W) :
  ∃ ev, trace (silence_step s idx upto sf st1) = ev ++ trace st1.
Proof.
  unfold silence_step. simpl. eexists (_ ++ [_]). by rewrite <-(assoc_L (++)).
Qed.

(** When the loop of silence returns, the input has reached the target,
    unless the loop has left because the silence frame got no buffers, which
    can only happen on its first turn. *)
Lemma mix_silence_loop_exit fuel s idx upto (st st' : state W) :
  mix_silence_loop fuel s idx upto st = Some (tt, st') →
  ∃ ev, trace st' = ev ++ trace st ∧
    ((upto ≤ in_pts (mix st) !!! idx ∧ st' = st)
     ∨ (in_pts (mix st) !!! idx < upto ∧
        (upto ≤ in_pts (mix st') !!! idx
         ∨ (silence_frame (mix st) = None ∧ silence_alloc_failed ∈ ev
            ∧ in_pts (mix st') = in_pts (mix st))))).
Proof.
  revert st. induction fuel as [|fuel IH]; intros st.
  - rewrite mix_silence_loop_0.
    destruct (_ <? _) eqn:E; [done |]. intros [= <-].
    exists []. split; [done |]. left. split; [lia | done].
  - rewrite mix_silence_loop_S.
    destruct (_ <? _) eqn:E.
    2:{ intros [= <-]. exists []. split; [done |]. left. split; [lia | done]. }
    rewrite mix_silence_frame_run.
    assert (∀ sf st1, trace st1 = trace st ∨ (∃ ev1, trace st1 = ev1 ++ trace st) →
              mix_silence_loop fuel s idx upto (silence_step s idx upto sf st1)
                = Some (tt, st') →
              ∃ ev, trace st' = ev ++ trace st
                    ∧ upto ≤ in_pts (mix st') !!! idx) as Hstep.
    { intros sf st1 Htr Hrun.
      destruct (IH _ Hrun) as (ev2 & Hev2 & Hcase).
      destruct (silence_step_trace s idx upto sf st1) as [ev1 Hev1].
      assert (∃ ev, trace st' = ev ++ trace st) as [ev Hev].
      { rewrite Hev2, Hev1. destruct Htr as [->|[ev0 ->]].
        - exists (ev2 ++ ev1). by rewrite (assoc_L (++)).
        - exists (ev2 ++ ev1 ++ ev0). by rewrite !(assoc_L (++)). }
      exists ev. split; [done |].
      destruct Hcase as [[? ->]|[_ [?|(Hsf & _)]]]; [done | done |].
      discriminate Hsf. }
    destruct (silence_frame (mix st)) as [sf|] eqn:Esf.
    + intros Hrun. destruct (Hstep sf st) as (ev & ? & ?); [by left | done |].
      exists ev. split; [done |]. right. split; [lia | by left].
    + simpl. destruct (rc _ <? 0).
      * intros [= <-]. simpl. eexists [_; _; _]. split; [done |].
        right. split; [lia |]. right. repeat split. apply list_elem_of_here.
      * intros Hrun. edestruct Hstep as (ev & ? & ?); [| exact Hrun |].
        { right. simpl. by eexists [_; _]. }
        exists ev. split; [done |]. right. split; [lia | by left].
Qed.

(** The counter of the input never goes back over a run of the loop. *)
Lemma mix_silence_loop_mono fuel s idx upto (st st' : state W) :
  mix_silence_loop fuel s idx upto st = Some (tt, st') →
  in_pts (mix st) !!! idx ≤ in_pts (mix st') !!! idx.
Proof.
  intros (ev & _ & [[_ ->]|[? [?|(_ & _ & ->)]]])%mix_silence_loop_exit; lia.
Qed.

Lemma silence_chunk_bounds s upto inp :
  0 ≤ s < 2 ^ 31 → in_u64 upto → 0 ≤ inp < upto →
  silence_chunk s upto inp = Z.min s (upto - inp)
  ∧ 0 ≤ silence_chunk s upto inp ∧ inp + silence_chunk s upto inp ≤ upto.
Proof.
  unfold silence_chunk, in_u64. intros Hs Hu Hi.
  rewrite (u64_id (upto - inp)) by (unfold in_u64; lia).
  rewrite s32_id by lia. lia.
Qed.

Lemma silence_step_in_pts s idx upto sf (st1 : state W) :
  (idx < length (in_pts (mix st1)))%nat →
  0 ≤ s < 2 ^ 31 → in_u64 upto → 0 ≤ in_pts (mix st1) !!! idx < upto →
  in_pts (mix (silence_step s idx upto sf st1)) !!! idx
  = in_pts (mix st1) !!! idx + Z.min s (upto - in_pts (mix st1) !!! idx).
Proof.
  intros Hlen Hs Hu Hi. unfold silence_step. simpl.
  rewrite list_lookup_total_insert_eq by done.
  destruct (silence_chunk_bounds s upto _ Hs Hu Hi) as (E & ? & ?).
  rewrite <-E. apply u64_id. unfold in_u64 in *. lia.
Qed.

(** With a chunk size that fits an [int], the loop of silence stops on the
    target, and every frame it writes, accepted or not, lies between the
    values of the counter before and after. *)
Lemma mix_silence_loop_within fuel s idx upto (st st' : state W) ev :
  mix_silence_loop fuel s idx upto st = Some (tt, st') →
  trace st' = ev ++ trace st →
  (idx < length (in_pts (mix st)))%nat →
  0 ≤ s < 2 ^ 31 → in_u64 upto → 0 ≤ in_pts (mix st) !!! idx →
  in_pts (mix st') !!! idx ≤ Z.max (in_pts (mix st) !!! idx) upto
  ∧ ∀ ctx f r, Called (av_buffersrc_write_frame ctx f) r ∈ ev →
      in_pts (mix st) !!! idx ≤ u64 (pts f) ∧ 0 ≤ nb_samples f
      ∧ u64 (pts f) + nb_samples f ≤ in_pts (mix st') !!! idx.
Proof.
  intros Hrun Hev Hlen Hs Hu. revert st ev Hrun Hev Hlen.
  induction fuel as [|fuel IH]; intros st ev.
  - rewrite mix_silence_loop_0. destruct (_ <? _) eqn:E; [done |].
    intros [= <-] Hev _ _. split; [lia |].
    replace ev with (@nil event); [by intros ??? ?%elem_of_nil |].
    apply (inj (.++ trace st)). done.
  - rewrite mix_silence_loop_S. destruct (_ <? _) eqn:E.
    2:{ intros [= <-] Hev _ _. split; [lia |].
        replace ev with (@nil event); [by intros ??? ?%elem_of_nil |].
        apply (inj (.++ trace st)). done. }
    rewrite mix_silence_frame_run.
    assert (∀ sf st1 ev1,
              in_pts (mix st1) = in_pts (mix st) →
              trace st1 = ev1 ++ trace st →
              (∀ ctx f r, Called (av_buffersrc_write_frame ctx f) r ∉ ev1) →
              mix_silence_loop fuel s idx upto (silence_step s idx upto sf st1)
                = Some (tt, st') →
              trace st' = ev ++ trace st →
              (idx < length (in_pts (mix st)))%nat →
              0 ≤ in_pts (mix st) !!! idx →
              in_pts (mix st') !!! idx ≤ Z.max (in_pts (mix st) !!! idx) upto
              ∧ ∀ ctx f r, Called (av_buffersrc_write_frame ctx f) r ∈ ev →
                  in_pts (mix st) !!! idx ≤ u64 (pts f) ∧ 0 ≤ nb_samples f
                  ∧ u64 (pts f) + nb_samples f ≤ in_pts (mix st') !!! idx)
      as Hstep.
    { intros sf st1 ev1 Hin Htr1 Hno Hrun Hev Hlen Hpos.
      assert (0 ≤ in_pts (mix st1) !!! idx < upto) as Hi by (rewrite Hin; lia).
      assert (idx < length (in_pts (mix st1)))%nat as Hlen1 by (by rewrite Hin).
      pose proof (silence_step_in_pts s idx upto sf st1 Hlen1 Hs Hu Hi) as Hin2.
      pose proof (mix_silence_loop_mono _ _ _ _ _ _ Hrun) as Hmono.
      destruct (mix_silence_loop_grows _ _ _ _ _ _ _ Hrun) as [ev2 Hev2].
      set (st2 := silence_step s idx upto sf st1) in *.
      destruct (IH st2 ev2 Hrun Hev2) as [Hle Hin_ev].
      { unfold st2, silence_step. simpl. by rewrite length_insert. }
      { rewrite Hin2. lia. }
      split; [rewrite Hin in Hin2; lia |].
      intros ctx f r Hel.
      assert (ev = ev2 ++ (if rc (respond (world st1)
                   (av_buffersrc_write_frame (src_ctxs (mix st1) !!! idx)
                      (frame_set_nb_samples
                         (frame_set_pts sf (s64 (in_pts (mix st1) !!! idx)))
                         (silence_chunk s upto (in_pts (mix st1) !!! idx))))).1 =? 0
                 then [] else [Logged LOG_WARN "Failed to write silence frame to buffer" ""])
               ++ Called (av_buffersrc_write_frame (src_ctxs (mix st1) !!! idx)
                      (frame_set_nb_samples
                         (frame_set_pts sf (s64 (in_pts (mix st1) !!! idx)))
                         (silence_chunk s upto (in_pts (mix st1) !!! idx))))
                    (respond (world st1)
                   (av_buffersrc_write_frame (src_ctxs (mix st1) !!! idx)
                      (frame_set_nb_samples
                         (frame_set_pts sf (s64 (in_pts (mix st1) !!! idx)))
                         (silence_chunk s upto (in_pts (mix st1) !!! idx))))).1
               :: ev1) as Eev.
      { apply (inj (.++ trace st)). rewrite <-Hev, Hev2. unfold st2, silence_step.
        simpl. rewrite Htr1. by rewrite <-!(assoc_L (++)). }
      rewrite Eev in Hel.
      apply elem_of_app in Hel as [Hel|Hel].
      { destruct (Hin_ev _ _ _ Hel) as (? & ? & ?). rewrite Hin in Hin2. lia. }
      apply elem_of_app in Hel as [Hel|Hel].
      { destruct (_ =? 0); [by apply elem_of_nil in Hel |].
        apply list_elem_of_singleton in Hel. discriminate Hel. }
      apply elem_of_cons in Hel as [Hel|Hel]; [| by apply Hno in Hel].
      injection Hel as -> -> ->. simpl.
      destruct (silence_chunk_bounds s upto _ Hs Hu Hi) as (Ec & ? & ?).
      rewrite u64_s64, u64_id by (unfold in_u64 in *; lia).
      rewrite Hin in *. lia. }
    destruct (silence_frame (mix st)) as [sf|] eqn:Esf.
    + intros Hrun Hev Hlen Hpos. apply (Hstep sf st []); try done.
      intros ??? ?%elem_of_nil. done.
    + simpl. destruct (rc _ <? 0).
      * intros [= <-]. simpl. intros Hev _ _. split; [lia |].
        intros ctx f r Hel.
        replace ev with ([silence_alloc_failed;
          Called (av_frame_get_buffer (silence_template s (mix st)))
            (respond (respond (world st) av_frame_alloc).2
               (av_frame_get_buffer (silence_template s (mix st)))).1;
          Called av_frame_alloc (respond (world st) av_frame_alloc).1]) in Hel.
        2:{ apply (inj (.++ trace st)). done. }
        repeat (apply elem_of_cons in Hel as [Hel|Hel]; [discriminate Hel |]).
        by apply elem_of_nil in Hel.
      * intros Hrun Hev Hlen Hpos.
        refine (Hstep _ _ [_; _] _ _ _ Hrun Hev Hlen Hpos);
          [reflexivity | reflexivity |].
        intros ctx f r Hel.
        repeat (apply elem_of_cons in Hel as [Hel|Hel]; [discriminate Hel |]).
        by apply elem_of_nil in Hel.
Qed.





Lemma silence_writes_app ev1 ev2 :
  silence_writes (ev2 ++ ev1) = silence_writes ev1 ++ silence_writes ev2.
Proof. unfold silence_writes. by rewrite reverse_app, omap_app. Qed.

Lemma silence_writes_cons e ev :
  silence_writes (e :: ev) = silence_writes ev ++ silence_writes [e].
Proof. apply (silence_writes_app ev [e]). Qed.



(** *** Filling inputs and submitting a frame *)

Lemma advanced_refl m : advanced m m.
Proof. unfold advanced. naive_solver. Qed.

Lemma advanced_trans m1 m2 m3 : advanced m1 m2 → advanced m2 m3 → advanced m1 m3.
Proof.
  unfold advanced. intros (?&?&?&?&?&Ha) (?&?&?&?&?&Hb).
  split_and!; try congruence. intros j. specialize (Ha j). specialize (Hb j). lia.
Qed.

Lemma inv_eq {A B} (f : mix_s → B) (c : M W A) st a st' :
  (∀ v, inv (λ m, f m = v) c) → c st = Some (a, st') → f (mix st') = f (mix st).
Proof. intros Hinv Hrun. by eapply (Hinv (f (mix st))). Qed.

Lemma mix_silence_fill_idx_upto_spec fuel idx upto (st st' : state W) :
  mix_silence_fill_idx_upto fuel idx upto st = Some (tt, st') →
  advanced (mix st) (mix st')
  ∧ (∀ j, j ≠ idx → in_pts (mix st') !!! j = in_pts (mix st) !!! j)
  ∧ ∃ ev, trace st' = ev ++ trace st
      ∧ (upto ≤ in_pts (mix st') !!! idx
         ∨ (silence_alloc_failed ∈ ev ∧ in_pts (mix st') = in_pts (mix st))).
Proof.
  intros Hrun.
  assert (∀ j, j ≠ idx → in_pts (mix st') !!! j = in_pts (mix st) !!! j) as Hother.
  { intros j Hj.
    refine (inv_eq (λ m, in_pts m !!! j) _ _ _ _ _ Hrun). intros v.
    apply mix_silence_fill_idx_upto_inv; [by intros [] |].
    intros m x Hm _. simpl. by rewrite list_lookup_total_insert_ne. }
  assert (in_pts (mix st) !!! idx ≤ in_pts (mix st') !!! idx
          ∧ ∃ ev, trace st' = ev ++ trace st
              ∧ (upto ≤ in_pts (mix st') !!! idx
                 ∨ (silence_alloc_failed ∈ ev ∧ in_pts (mix st') = in_pts (mix st))))
    as [Hmono Hev].
  { unfold mix_silence_fill_idx_upto, bind, get_mix in Hrun. simpl in Hrun.
    split; [by eapply mix_silence_loop_mono |].
    apply mix_silence_loop_exit in Hrun as (ev & Hev & Hcase).
    exists ev. split; [done |].
    destruct Hcase as [[? ->]|[_ [?|(_ & ? & ?)]]]; auto. }
  split_and!; [| done | done].
  unfold advanced. split_and!.
  - refine (inv_eq out_pts _ _ _ _ _ Hrun). intros v.
    apply mix_silence_fill_idx_upto_inv; by intros [].
  - refine (inv_eq clockrate _ _ _ _ _ Hrun). intros v.
    apply mix_silence_fill_idx_upto_inv; by intros [].
  - refine (inv_eq pts_offs _ _ _ _ _ Hrun). intros v.
    apply mix_silence_fill_idx_upto_inv; by intros [].
  - refine (inv_eq src_ctxs _ _ _ _ _ Hrun). intros v.
    apply mix_silence_fill_idx_upto_inv; by intros [].
  - refine (inv_eq (λ m, length (in_pts m)) _ _ _ _ _ Hrun). intros v.
    apply mix_silence_fill_idx_upto_inv; [by intros [] |].
    intros m x Hm _. simpl. by rewrite length_insert.
  - intros j. destruct (decide (j = idx)) as [->|Hj]; [done |].
    rewrite Hother by done. done.
Qed.


Lemma mix_silence_fill_each fuel l (st st' : state W) :
  for_each l (λ i, m <- get_mix ;;
                   mix_silence_fill_idx_upto fuel i
                     (u64 (out_pts m - u64 (clockrate m)))) st = Some (tt, st') →
  advanced (mix st) (mix st')
  ∧ ∃ ev, trace st' = ev ++ trace st
      ∧ (silence_alloc_failed ∈ ev
         ∨ ∀ i, i ∈ l →
             u64 (out_pts (mix st) - u64 (clockrate (mix st)))
             ≤ in_pts (mix st') !!! i).
Proof.
  revert st. induction l as [|i l IH]; intros st; simpl.
  - intros [= <-]. split; [apply advanced_refl |].
    exists []. split; [done |]. right. by intros i ?%elem_of_nil.
  - intros (u & st1 & H1 & H2)%run_bind. destruct u.
    unfold bind at 1, get_mix in H1. simpl in H1.
    apply mix_silence_fill_idx_upto_spec in H1 as (Ha1 & _ & ev1 & Hev1 & Hc1).
    apply IH in H2 as (Ha2 & ev2 & Hev2 & Hc2).
    split; [by eapply advanced_trans |].
    exists (ev2 ++ ev1). split; [by rewrite Hev2, Hev1, (assoc_L (++)) |].
    destruct Hc1 as [Hc1|[Hc1 _]]; [| left; apply elem_of_app; by right].
    destruct Hc2 as [Hc2|Hc2]; [left; apply elem_of_app; by left |].
    right. intros j [->|Hj]%elem_of_cons.
    + destruct Ha2 as (_ & _ & _ & _ & _ & Hmono). specialize (Hmono i). lia.
    + destruct Ha1 as (E1 & E2 & _). rewrite E1, E2 in Hc2. by apply Hc2.
Qed.

(** After the proactive pass every input is within a second of the output,
    unless the silence frame got no buffers. *)
Lemma mix_silence_fill_spec fuel (st st' : state W) :
  mix_silence_fill fuel st = Some (tt, st') → in_u64 (out_pts (mix st)) →
  advanced (mix st) (mix st')
  ∧ ∃ ev, trace st' = ev ++ trace st
      ∧ (silence_alloc_failed ∈ ev ∨ drift_bounded (mix st')).
Proof.
  intros Hrun Hout. unfold mix_silence_fill in Hrun.
  apply run_bind in Hrun as (m & st0 & [= <- <-] & Hrun).
  destruct (_ <? _) eqn:E.
  - injection Hrun as <-. split; [apply advanced_refl |].
    exists []. split; [done |]. right. intros ?. lia.
  - apply mix_silence_fill_each in Hrun as (Ha & ev & Hev & Hc).
    split; [done |]. exists ev. split; [done |].
    destruct Hc as [?|Hc]; [by left | right].
    unfold drift_bounded. destruct Ha as (-> & -> & _).
    intros Hle i Hi. rewrite <-(u64_id (_ - _)).
    + apply Hc, elem_of_seq. unfold NUM_INPUTS in *. lia.
    + pose proof (u64_range (clockrate (mix st))). unfold in_u64 in *. lia.
Qed.

Lemma mix_add_submit_run fuel frame idx (st : state W) :
  mix_add_submit fuel frame idx st =
  if (NUM_INPUTS <=? idx)%nat
  then Some (Some (-1), add_failed (Some frame) "index out of range" st)
  else if src_ctxs (mix st) !!! idx =? NULL
  then Some (Some (-1), add_failed (Some frame) "mixer not initialized" st)
  else
    let m1 := offset_resolved frame idx (mix st) in
    let fr := frame_adjusted frame idx m1 in
    match mix_silence_fill_idx_upto fuel idx (u64 (pts fr))
            (mkState m1 (world st) (trace st)) with
    | None => None
    | Some (_, st1) =>
        let c := av_buffersrc_add_frame (src_ctxs (mix st1) !!! idx) fr in
        let r := respond (world st1) c in
        let st2 := mkState (mix st1) r.2 (Called c r.1 :: trace st1) in
        if negb (rc r.1 =? 0)
        then Some (Some (-1),
                   add_failed (Some fr) "failed to add frame to mixer" st2)
        else
          match mix_silence_fill fuel
                  (mkState
                     (counters_updated (u64 (pts fr + nb_samples fr)) idx (mix st1))
                     r.2 (Freed (Some fr) :: Called c r.1 :: trace st1)) with
          | None => None
          | Some (_, st3) => Some (None, st3)
          end
    end.
Proof.
  unfold mix_add_submit.
  destruct (NUM_INPUTS <=? idx)%nat; [done |].
  unfold bind at 1, get_mix. simpl.
  destruct (src_ctxs (mix st) !!! idx =? NULL); [done |].
  unfold bind at 1.
  assert (when (pts_offs (mix st) !!! idx =? PTS_UNSET)
            (modify_mix (λ m, set_pts_offs m
               (<[idx := u64 (out_pts m - pts frame)]> (pts_offs m)))) st
          = Some (tt, mkState (offset_resolved frame idx (mix st)) (world st) (trace st)))
    as ->.
  { unfold offset_resolved, when. destruct (_ =? _); [done |]. by destruct st. }
  unfold bind at 1, get_mix. simpl. unfold frame_adjusted at 2. simpl.
  unfold bind at 1. fold (frame_adjusted frame idx (offset_resolved frame idx (mix st))).
  destruct (mix_silence_fill_idx_upto _ _ _ _) as [[[] st1]|]; [| done].
  unfold bind at 1, get_mix. simpl. unfold bind at 1, ext. simpl.
  destruct (respond (world st1) _) as [r w]. simpl.
  destruct (rc r =? 0) eqn:Er; simpl; [| done].
  unfold counters_updated, bind, when, modify_mix, av_frame_free, emit, ret. simpl.
  destruct (out_pts (mix st1) <? _), (in_pts (mix st1) !!! idx <? _); simpl;
    by destruct (mix_silence_fill _ _) as [[[] ?]|].
Qed.


Lemma drift_bounded_advanced m m' :
  advanced m m' → drift_bounded m → drift_bounded m'.
Proof.
  intros (Eo & Ec & _ & _ & _ & Hmono) Hd. unfold drift_bounded.
  rewrite Eo, Ec. intros Hle i Hi. specialize (Hd Hle i Hi). specialize (Hmono i). lia.
Qed.

Lemma counters_updated_out next idx m :
  in_u64 (out_pts m) → in_u64 next →
  in_u64 (out_pts (counters_updated next idx m)).
Proof.
  intros. unfold counters_updated.
  destruct (out_pts m <? next), (in_pts m !!! idx <? next); done.
Qed.

(** *** The timeline *)

Lemma max_list_nonneg (l : list Z) : 0 ≤ foldr Z.max 0 l.
Proof. induction l; simpl; lia. Qed.

Lemma max_list_ge (l : list Z) j :
  (j < length l)%nat → l !!! j ≤ foldr Z.max 0 l.
Proof.
  revert j. induction l as [|x l IH]; intros [|j] Hj; simpl in *; try lia.
  assert (j < length l)%nat as Hj' by lia. specialize (IH j Hj').
  change ((x :: l) !!! S j) with (l !!! j). lia.
Qed.

Lemma max_list_le (l : list Z) B :
  0 ≤ B → (∀ j, (j < length l)%nat → l !!! j ≤ B) → foldr Z.max 0 l ≤ B.
Proof.
  intros HB. induction l as [|x l IH]; intros Hl; simpl; [done |].
  apply Z.max_lub.
  - apply (Hl 0%nat). simpl. lia.
  - apply IH. intros j Hj. apply (Hl (S j)). simpl. lia.
Qed.

Lemma max_in_pts_mono m m' :
  length (in_pts m') = length (in_pts m) →
  (∀ j, in_pts m !!! j ≤ in_pts m' !!! j) →
  max_in_pts m ≤ max_in_pts m'.
Proof.
  intros Hlen Hmono. unfold max_in_pts.
  apply max_list_le; [apply max_list_nonneg |].
  intros j Hj. etrans; [apply Hmono |]. apply max_list_ge. by rewrite Hlen.
Qed.

Lemma counters_updated_spec next idx m :
  (idx < length (in_pts m))%nat →
  let m' := counters_updated next idx m in
  out_pts m' = Z.max (out_pts m) next
  ∧ clockrate m' = clockrate m
  ∧ length (in_pts m') = length (in_pts m)
  ∧ in_pts m' !!! idx = Z.max (in_pts m !!! idx) next
  ∧ ∀ j, j ≠ idx → in_pts m' !!! j = in_pts m !!! j.
Proof.
  intros Hlen. unfold counters_updated.
  destruct (out_pts m <? next) eqn:E1, (in_pts m !!! idx <? next) eqn:E2; simpl;
    rewrite ?length_insert, ?list_lookup_total_insert_eq by done;
    split_and!; try lia; try done;
    intros j Hj; by rewrite list_lookup_total_insert_ne.
Qed.

Lemma silence_samples_range cr :
  0 ≤ cr < 2 ^ 31 → 0 ≤ u32 (cr ÷ 100) < 2 ^ 31 ∧ u32 (cr ÷ 100) = cr / 100.
Proof.
  intros Hcr. rewrite Z.quot_div_nonneg by lia.
  assert (0 ≤ cr / 100 ≤ cr).
  { split; [apply Z.div_pos; lia |]. apply Z.div_le_upper_bound; lia. }
  unfold u32. rewrite Z.mod_small by lia. lia.
Qed.

(** With a clock rate that is not negative, filling an input up to a target
    below [B] leaves the input below [B], if it was. *)
Lemma mix_silence_fill_idx_upto_capped fuel idx upto B (st st' : state W) :
  mix_silence_fill_idx_upto fuel idx upto st = Some (tt, st') →
  mix_wf (mix st) → 0 ≤ clockrate (mix st) → (idx < NUM_INPUTS)%nat →
  in_u64 upto → upto ≤ B → in_pts (mix st) !!! idx ≤ B →
  in_pts (mix st') !!! idx ≤ B.
Proof.
  intros Hrun Hwf Hcr Hidx Hu HuB HiB.
  destruct (mix_silence_fill_idx_upto_grows _ _ _ _ _ _ Hrun) as [ev Hev].
  unfold mix_silence_fill_idx_upto, bind, get_mix in Hrun. simpl in Hrun.
  destruct (silence_samples_range (clockrate (mix st))) as [Hs _].
  { pose proof (wf_clockrate _ Hwf). lia. }
  pose proof (wf_in_pts _ Hwf) as Hlen.
  edestruct (mix_silence_loop_within _ _ _ _ _ _ _ Hrun Hev) as [Hle _]; try done.
  - by rewrite Hlen.
  - pose proof (wf_in_pts_range _ Hwf) as Hr.
    rewrite Forall_lookup in Hr.
    destruct (lookup_lt_is_Some_2 (in_pts (mix st)) idx) as [x Hx]; [by rewrite Hlen |].
    rewrite (list_lookup_total_correct _ _ _ Hx). apply (Hr _ _ Hx).
  - lia.
Qed.


Lemma mix_silence_fill_each_capped fuel l B (st st' : state W) :
  for_each l (λ i, m <- get_mix ;;
                   mix_silence_fill_idx_upto fuel i
                     (u64 (out_pts m - u64 (clockrate m)))) st = Some (tt, st') →
  mix_wf (mix st) → 0 ≤ clockrate (mix st) →
  (∀ i, i ∈ l → (i < NUM_INPUTS)%nat) →
  u64 (out_pts (mix st) - u64 (clockrate (mix st))) ≤ B →
  (∀ j, (j < NUM_INPUTS)%nat → in_pts (mix st) !!! j ≤ B) →
  ∀ j, (j < NUM_INPUTS)%nat → in_pts (mix st') !!! j ≤ B.
Proof.
  revert st. induction l as [|i l IH]; intros st; simpl.
  - intros [= <-]. done.
  - intros (u & st1 & H1 & H2)%run_bind Hwf Hcr Hl HB HQ. destruct u.
    unfold bind at 1, get_mix in H1. simpl in H1.
    pose proof (mix_silence_fill_idx_upto_spec _ _ _ _ _ H1)
      as ((Eo & Ec & _) & Hother & _).
    eapply (IH st1); [done | | | | |].
    + eapply (mix_silence_fill_idx_upto_inv mix_wf); [| | exact H1 | done]; wf_setter.
    + by rewrite Ec.
    + intros i' Hi'. apply Hl. by right.
    + by rewrite Eo, Ec.
    + intros j Hj. destruct (decide (j = i)) as [->|Hne].
      * eapply mix_silence_fill_idx_upto_capped; try done.
        apply u64_range. by apply HQ.
      * rewrite Hother by done. by apply HQ.
Qed.

Lemma mix_silence_fill_capped fuel B (st st' : state W) :
  mix_silence_fill fuel st = Some (tt, st') →
  mix_wf (mix st) → 0 ≤ clockrate (mix st) → out_pts (mix st) ≤ B →
  (∀ j, (j < NUM_INPUTS)%nat → in_pts (mix st) !!! j ≤ B) →
  ∀ j, (j < NUM_INPUTS)%nat → in_pts (mix st') !!! j ≤ B.
Proof.
  intros Hrun Hwf Hcr HoB HQ. unfold mix_silence_fill in Hrun.
  apply run_bind in Hrun as (m & st0 & [= <- <-] & Hrun).
  destruct (_ <? _) eqn:E.
  - by injection Hrun as <-.
  - eapply mix_silence_fill_each_capped; try done.
    + intros i Hi%elem_of_seq. unfold NUM_INPUTS in *. lia.
    + pose proof (wf_out_pts _ Hwf). pose proof (u64_range (clockrate (mix st))).
      apply Z.ltb_ge in E. rewrite u64_id; unfold in_u64 in *; lia.
Qed.

(** What a submission does to the timeline: the counters never go back,
    the output never passes the furthest input, and it stays level with it
    when the clock rate is not negative and the frame is accepted and
    fits. *)
Lemma mix_add_timeline fuel frame idx (st st' : state W) ret :
  mix_wf (mix st) →
  mix_add fuel frame idx st = Some (ret, st') →
  out_pts (mix st) ≤ out_pts (mix st')
  ∧ (∀ i, in_pts (mix st) !!! i ≤ in_pts (mix st') !!! i)
  ∧ (out_pts (mix st) ≤ max_in_pts (mix st) →
     out_pts (mix st') ≤ max_in_pts (mix st'))
  ∧ (0 ≤ clockrate (mix st) → frames_accepted (new_events st st') →
     out_pts (mix st) = max_in_pts (mix st) →
     out_pts (mix st') = max_in_pts (mix st')).
Proof.
  intros Hwf Hrun.
  destruct (mix_add_grows _ _ _ _ _ _ Hrun) as [ev Hev].
  rewrite (new_events_app _ _ _ Hev).
  unfold mix_add in Hrun. apply run_bind in Hrun as (r & st0 & Hsub & Hrun).
  rewrite mix_add_submit_run in Hsub.
  destruct (NUM_INPUTS <=? idx)%nat eqn:Eidx.
  { injection Hsub as <- <-. injection Hrun as <- <-. simpl. done. }
  apply Nat.leb_gt in Eidx.
  destruct (src_ctxs (mix st) !!! idx =? NULL).
  { injection Hsub as <- <-. injection Hrun as <- <-. simpl. done. }
  cbv zeta in Hsub.
  set (m1 := offset_resolved frame idx (mix st)) in *.
  set (fr := frame_adjusted frame idx m1) in *.
  assert (out_pts m1 = out_pts (mix st) ∧ in_pts m1 = in_pts (mix st)
          ∧ clockrate m1 = clockrate (mix st) ∧ mix_wf m1) as (Eo1 & Ei1 & Ec1 & Hwf1).
  { unfold m1, offset_resolved. destruct (_ =? PTS_UNSET); [| done].
    split_and!; try done. revert Hwf. wf_setter. }
  destruct (mix_silence_fill_idx_upto _ _ _ _) as [[[] st1]|] eqn:Hfill; [| done].
  pose proof (mix_silence_fill_idx_upto_spec _ _ _ _ _ Hfill)
    as ((Eo2 & Ec2 & _ & _ & Hlen2 & Hmono2) & Hother2 & ev1 & Hev1 & _).
  cbn [mix trace world] in Eo2, Ec2, Hlen2, Hmono2, Hother2, Hev1.
  assert (mix_wf (mix st1)) as Hwf2.
  { eapply (mix_silence_fill_idx_upto_inv mix_wf); [| | exact Hfill | done]; wf_setter. }
  assert (max_in_pts (mix st) ≤ max_in_pts (mix st1)) as Hmax2.
  { apply max_in_pts_mono; [by rewrite Hlen2, Ei1 |]. intros j. rewrite <-Ei1. apply Hmono2. }
  pose proof (wf_in_pts _ Hwf2) as Hlen.
  destruct (rc _ =? 0) eqn:Erc; cbn [negb] in Hsub.
  2:{ injection Hsub as <- <-. injection Hrun as <- <-. simpl.
      rewrite Eo2, Eo1. split_and!; [done | | lia |].
      - intros i. rewrite <-Ei1. apply Hmono2.
      - intros _ Hacc _. exfalso. apply Z.eqb_neq in Erc.
        eassert (ev = _ :: _ :: _ :: ev1) as Eev.
        { apply (inj (.++ trace st)). rewrite <-Hev. simpl. rewrite Hev1. reflexivity. }
        rewrite Eev in Hacc.
        edestruct Hacc as [Hz _]; [do 2 right; left |]. done. }
  destruct (mix_silence_fill _ _) as [[[] st3]|] eqn:Hsf; [| done].
  injection Hsub as <- <-.
  set (next := u64 (pts fr + nb_samples fr)) in *.
  destruct (counters_updated_spec next idx (mix st1)) as (Eo3 & Ec3 & Hlen3 & Ei3 & Hother3).
  { rewrite Hlen. done. }
  set (m2 := counters_updated next idx (mix st1)) in *.
  assert (mix_wf m2) as Hwf3.
  { unfold m2, counters_updated.
    destruct (_ <? _), (_ <? _); try done; revert Hwf2; wf_setter;
      try apply u64_range; apply Forall_insert; try done; apply u64_range. }
  pose proof (mix_silence_fill_spec _ _ _ Hsf (wf_out_pts _ Hwf3))
    as ((Eo4 & Ec4 & _ & _ & Hlen4 & Hmono4) & ev3 & Hev3 & _).
  cbn [mix trace world] in Eo4, Ec4, Hlen4, Hmono4, Hev3.
  assert (in_pts (mix st') = in_pts (mix st3)) as Ei5.
  { refine (inv_eq in_pts _ _ _ _ _ Hrun). intros v.
    apply mix_add_drain_inv; by intros []. }
  assert (out_pts (mix st') = out_pts (mix st3)) as Eo5.
  { refine (inv_eq out_pts _ _ _ _ _ Hrun). intros v.
    apply mix_add_drain_inv; by intros []. }
  assert (∀ j, in_pts (mix st1) !!! j ≤ in_pts m2 !!! j) as Hmono3.
  { intros j. destruct (decide (j = idx)) as [->|Hj]; [lia |].
    by rewrite Hother3. }
  assert (max_in_pts (mix st1) ≤ max_in_pts m2) as Hmax3.
  { by apply max_in_pts_mono. }
  assert (max_in_pts m2 ≤ max_in_pts (mix st3)) as Hmax4.
  { by apply max_in_pts_mono. }
  assert (next ≤ max_in_pts m2) as Hnext.
  { etrans; [| apply (max_list_ge _ idx)]; [lia |]. rewrite Hlen3, Hlen. done. }
  unfold max_in_pts at 2 4. rewrite Ei5, Eo5, Eo4, Eo3, Eo2, Eo1.
  fold (max_in_pts (mix st3)).
  assert (out_pts (mix st) ≤ max_in_pts (mix st) →
          Z.max (out_pts (mix st)) next ≤ max_in_pts (mix st3)) as HU by lia.
  split_and!; [lia | | done |].
  { intros i. specialize (Hmono2 i). specialize (Hmono3 i). specialize (Hmono4 i).
    rewrite Ei1 in Hmono2. lia. }
  intros Hcr Hacc Hmax. apply Z.le_antisymm; [apply HU; lia |].
  destruct (Hacc (src_ctxs (mix st1) !!! idx) fr
              (respond (world st1)
                 (av_buffersrc_add_frame (src_ctxs (mix st1) !!! idx) fr)).1)
    as (_ & Hnb & Hfit).
  { destruct (mix_add_drain_grows _ _ _ _ _ Hrun) as [ev4 Hev4].
    eassert (ev = ev4 ++ ev3 ++ _ :: _ :: ev1) as Eev.
    { apply (inj (.++ trace st)). rewrite <-Hev, Hev4, Hev3, Hev1.
      rewrite <-!(assoc_L (++)). reflexivity. }
    rewrite Eev. apply elem_of_app. right. apply elem_of_app. right. right. left. }
  assert (next = u64 (pts fr) + nb_samples fr) as Enext.
  { unfold next, u64 in *. rewrite <-Zplus_mod_idemp_l.
    apply Z.mod_small. pose proof (Z.mod_pos_bound (pts fr) (2 ^ 64)). lia. }
  assert (∀ j, (j < NUM_INPUTS)%nat → in_pts (mix st) !!! j ≤ out_pts (mix st)) as Hin.
  { intros j Hj. rewrite Hmax. apply max_list_ge. by rewrite (wf_in_pts _ Hwf). }
  assert (in_pts (mix st1) !!! idx ≤ Z.max (out_pts (mix st)) (u64 (pts fr))) as Hcap.
  { eapply mix_silence_fill_idx_upto_capped; [exact Hfill | done | | done | | |]; simpl.
    - lia.
    - apply u64_range.
    - lia.
    - rewrite Ei1. specialize (Hin idx Eidx). lia. }
  apply max_list_le; [pose proof (wf_out_pts _ Hwf); unfold in_u64 in *; lia |].
  intros j Hj. rewrite Hlen4, Hlen3, Hlen in Hj.
  eapply (mix_silence_fill_capped _ _ _ _ Hsf); cbn [mix]; try done.
  - rewrite Ec3, Ec2, Ec1. done.
  - rewrite Eo3, Eo2, Eo1. done.
  - intros k Hk. destruct (decide (k = idx)) as [->|Hne]; [lia |].
    rewrite Hother3, Hother2, Ei1 by done. specialize (Hin k Hk). lia.
Qed.


Lemma run_op_timeline fuel o (st st' : state W) r :
  mix_wf (mix st) →
  run_op fuel o st = Some (r, st') →
  out_pts (mix st) ≤ out_pts (mix st')
  ∧ (∀ i, in_pts (mix st) !!! i ≤ in_pts (mix st') !!! i)
  ∧ (out_pts (mix st) ≤ max_in_pts (mix st) →
     out_pts (mix st') ≤ max_in_pts (mix st'))
  ∧ (0 ≤ clockrate (mix st) → frames_accepted (new_events st st') →
     out_pts (mix st) = max_in_pts (mix st) →
     out_pts (mix st') = max_in_pts (mix st')).
Proof.
  intros Hwf Hrun.
  destruct o as [cr ch| |frame idx]; simpl in Hrun;
    [| | by eapply mix_add_timeline].
  - assert (in_pts (mix st') = in_pts (mix st)) as Ei.
    { refine (inv_eq in_pts _ _ _ _ _ Hrun). intros v.
      apply mix_config_inv; by intros []. }
    assert (out_pts (mix st') = out_pts (mix st)) as Eo.
    { refine (inv_eq out_pts _ _ _ _ _ Hrun). intros v.
      apply mix_config_inv; by intros []. }
    unfold max_in_pts. rewrite Ei, Eo. done.
  - apply run_bind in Hrun as (i & st1 & Hrun & [= <- <-]).
    assert (in_pts (mix st1) = in_pts (mix st)) as Ei.
    { refine (inv_eq in_pts _ _ _ _ _ Hrun). intros v.
      apply mix_get_index_inv; by intros []. }
    assert (out_pts (mix st1) = out_pts (mix st)) as Eo.
    { refine (inv_eq out_pts _ _ _ _ _ Hrun). intros v.
      apply mix_get_index_inv; by intros []. }
    unfold max_in_pts. rewrite Ei, Eo. done.
Qed.

Lemma reachable_out_pts_le (st : state W) :
  reachable st → out_pts (mix st) ≤ max_in_pts (mix st).
Proof.
  induction 1 as [w|st fuel o r st' Hreach IH Hrun]; [done |].
  by eapply run_op_timeline; [eapply reachable_wf | |].
Qed.

(** *** The drain loop and the rejection of a frame *)

Lemma wf_in_pts_lookup m idx :
  mix_wf m → (idx < NUM_INPUTS)%nat → in_u64 (in_pts m !!! idx).
Proof.
  intros Hwf Hidx. pose proof (wf_in_pts_range _ Hwf) as Hr.
  rewrite Forall_lookup in Hr.
  destruct (lookup_lt_is_Some_2 (in_pts m) idx) as [x Hx];
    [by rewrite (wf_in_pts _ Hwf) |].
  rewrite (list_lookup_total_correct _ _ _ Hx). apply (Hr _ _ Hx).
Qed.


Lemma silence_chunk_within fuel idx upto (st st' : state W) ctx f r :
  mix_wf (mix st) → 0 ≤ clockrate (mix st) → (idx < NUM_INPUTS)%nat →
  in_u64 upto →
  mix_silence_fill_idx_upto fuel idx upto st = Some (tt, st') →
  Called (av_buffersrc_write_frame ctx f) r ∈ new_events st st' →
  in_pts (mix st) !!! idx ≤ u64 (pts f) ∧ 0 ≤ nb_samples f
  ∧ u64 (pts f) + nb_samples f ≤ in_pts (mix st') !!! idx.
Proof.
  intros Hwf Hcr Hidx Hu Hrun Hel.
  destruct (mix_silence_fill_idx_upto_grows _ _ _ _ _ _ Hrun) as [ev Hev].
  rewrite (new_events_app _ _ _ Hev) in Hel.
  unfold mix_silence_fill_idx_upto, bind, get_mix in Hrun. simpl in Hrun.
  destruct (silence_samples_range (clockrate (mix st))) as [Hs _].
  { pose proof (wf_clockrate _ Hwf). lia. }
  edestruct (mix_silence_loop_within _ _ _ _ _ _ _ Hrun Hev) as [_ Hin]; try done.
  - by rewrite (wf_in_pts _ Hwf).
  - by apply wf_in_pts_lookup.
  - by eapply Hin.
Qed.

Lemma mix_add_pull_run frame (st : state W) :
  mix_add_pull frame st =
  let c := av_buffersink_get_frame (sink_ctx (mix st)) in
  let r := respond (world st) c in
  let st1 := mkState (mix st) r.2 (Called c r.1 :: trace st) in
  if rc r.1 <? 0 then
    if rc r.1 =? AVERROR_EAGAIN then Some (inl 0, st1)
    else Some (inl (-1), add_failed frame "failed to get frame from mixer" st1)
  else
    match mix_resample_frame (out_frame r.1)
            (mkState (set_sink_frame (mix st) (out_frame r.1)) r.2
               (Called c r.1 :: trace st)) with
    | None => None
    | Some (fr, st2) =>
        let c2 := output_add fr in
        let r2 := respond (world st2) c2 in
        let st3 := mkState (set_sink_frame (mix st2) frame_zero) r2.2
                     (Called c2 r2.1 :: trace st2) in
        if negb (rc r2.1 =? 0) then Some (inl (-1), st3)
        else Some (inr fr, st3)
    end.
Proof.
  unfold mix_add_pull. unfold bind at 1, get_mix. simpl.
  unfold bind at 1, ext. simpl.
  destruct (respond (world st) _) as [r w]. simpl.
  destruct (rc r <? 0).
  { destruct (rc r =? AVERROR_EAGAIN); done. }
  unfold bind at 1, modify_mix. simpl. unfold bind at 1.
  destruct (mix_resample_frame _ _) as [[fr st2]|]; [| done].
  unfold bind, ext, modify_mix, ret. simpl.
  destruct (respond (world st2) _) as [r2 w2]. simpl.
  destruct (rc r2 =? 0); done.
Qed.

Lemma mix_add_drain_pulled st frame k st' frame' n :
  pulled st frame k st' frame' →
  mix_add_drain (k + n) frame st = mix_add_drain n frame' st'.
Proof.
  induction 1 as [|st frame st1 frame1 k st2 frame2 Hpull _ IH]; [done |].
  simpl. unfold bind at 1. rewrite Hpull. done.
Qed.

Lemma pulled_inv (P : mix_s → Prop) st frame k st' frame' :
  (∀ m v, P m → P (set_sink_frame m v)) →
  (∀ m v, P m → P (set_avresample m v)) →
  (∀ m v, P m → P (set_swr_frame m v)) →
  (∀ m v, P m → P (set_swr_buffers m v)) →
  pulled st frame k st' frame' → P (mix st) → P (mix st').
Proof.
  intros H1 H2 H3 H4.
  induction 1 as [|st frame st1 frame1 k st2 frame2 Hpull _ IH]; [done |].
  intros HP. apply IH. by eapply (mix_add_pull_inv P).
Qed.

Lemma mix_add_rejected fuel frame idx (st : state W) :
  (NUM_INPUTS ≤ idx)%nat ∨ src_ctxs (mix st) !!! idx = NULL →
  ∃ err, mix_add fuel frame idx st
         = Some (-1, mkState (mix st) (world st)
                       (Freed (Some frame)
                        :: Logged LOG_ERR "Failed to add frame to mixer: %s" err
                        :: trace st)).
Proof.
  intros Hcase. unfold mix_add, bind. rewrite mix_add_submit_run.
  destruct (NUM_INPUTS <=? idx)%nat eqn:E; [by eexists |].
  apply Nat.leb_gt in E. destruct Hcase as [? | ->]; [lia |].
  simpl. by eexists.
Qed.

(** *** Sequences of operations, and a loop that cannot end *)

Lemma run_ops_reachable fuel l (st st' : state W) rs :
  reachable st → run_ops fuel l st = Some (rs, st') → reachable st'.
Proof.
  revert st rs. induction l as [|o l IH]; intros st rs Hreach; simpl.
  - by intros [= <- <-].
  - intros (r & st1 & H1 & (rs' & st2 & H2 & [= <- <-])%run_bind)%run_bind.
    eapply IH; [| done]. by eapply reachable_op.
Qed.

(** With chunks of no samples the loop of silence never returns, once the
    silence frame is there. *)
Lemma mix_silence_loop_stuck fuel idx upto (st : state W) :
  is_Some (silence_frame (mix st)) →
  (idx < length (in_pts (mix st)))%nat → in_u64 upto →
  0 ≤ in_pts (mix st) !!! idx < upto →
  mix_silence_loop fuel 0 idx upto st = None.
Proof.
  revert st. induction fuel as [|fuel IH]; intros st [sf Hsf] Hlen Hu Hin.
  - rewrite mix_silence_loop_0.
    destruct (_ <? _) eqn:E; [done | lia].
  - rewrite mix_silence_loop_S, mix_silence_frame_run, Hsf.
    destruct (_ <? _) eqn:E; [| lia].
    apply IH.
    + by eexists.
    + unfold silence_step. simpl. by rewrite length_insert.
    + done.
    + rewrite silence_step_in_pts by (done || lia). lia.
Qed.

(** At a clock rate below 100 a pass that has silence to write returns
    only by giving up on the buffers of the silence frame. *)
Lemma mix_silence_fill_idx_upto_stuck fuel idx upto (st st' : state W) :
  0 ≤ clockrate (mix st) < 100 →
  (idx < length (in_pts (mix st)))%nat → in_u64 upto →
  0 ≤ in_pts (mix st) !!! idx < upto →
  mix_silence_fill_idx_upto fuel idx upto st = Some (tt, st') →
  silence_frame (mix st) = None
  ∧ rc (respond (respond (world st) av_frame_alloc).2
          (av_frame_get_buffer (silence_template 0 (mix st)))).1 < 0.
Proof.
  intros Hcr Hlen Hu Hin Hrun.
  unfold mix_silence_fill_idx_upto, bind, get_mix in Hrun. simpl in Hrun.
  rewrite Z.quot_small in Hrun by done. change (u32 0) with 0 in Hrun.
  destruct fuel as [|fuel].
  { rewrite mix_silence_loop_0 in Hrun. destruct (_ <? _) eqn:E; [done | lia]. }
  rewrite mix_silence_loop_S, mix_silence_frame_run in Hrun.
  destruct (_ <? _) eqn:E; [| lia].
  destruct (silence_frame (mix st)) as [sf|] eqn:Esf.
  { rewrite mix_silence_loop_stuck in Hrun; [done | | | |].
    - by eexists.
    - unfold silence_step. simpl. by rewrite length_insert.
    - done.
    - rewrite silence_step_in_pts by (done || lia). lia. }
  split; [done |]. cbv zeta in Hrun.
  destruct (rc _ <? 0) eqn:Erc; [lia |].
  rewrite mix_silence_loop_stuck in Hrun; [done | | | |].
  - by eexists.
  - unfold silence_step. simpl. by rewrite length_insert.
  - done.
  - rewrite silence_step_in_pts by (done || lia). simpl. lia.
Qed.

(** *** The silence written, frame by frame *)

Lemma app_eq_tail {A} (ev ev' l : list A) : l = ev ++ l → ev' = [] → ev = ev'.
Proof. intros E ->. by apply (app_inv_tail l ev []). Qed.

Lemma mix_silence_loop_tiles fuel s idx upto (st st' : state W) ev :
  0 < s < 2 ^ 31 → in_u64 upto →
  mix_silence_loop fuel s idx upto st = Some (tt, st') →
  trace st' = ev ++ trace st →
  (idx < length (in_pts (mix st)))%nat → 0 ≤ in_pts (mix st) !!! idx →
  tiles s (in_pts (mix st) !!! idx) (in_pts (mix st') !!! idx)
    ((λ f, (u64 (pts f), nb_samples f)) <$> silence_writes ev).
Proof.
  intros Hs Hu. revert st ev.
  induction fuel as [|fuel IH]; intros st ev Hrun Hev Hlen Hpos.
  - rewrite mix_silence_loop_0 in Hrun. destruct (_ <? _); [done |].
    injection Hrun as <-. by rewrite (app_eq_tail ev [] _ Hev).
  - rewrite mix_silence_loop_S in Hrun. destruct (_ <? _) eqn:E.
    2:{ injection Hrun as <-. by rewrite (app_eq_tail ev [] _ Hev). }
    apply Z.ltb_lt in E.
    destruct (mix_silence_frame s st) as [[[sf|] st1]|] eqn:Hsf; [| | done].
    2:{ injection Hrun as <-.
        rewrite mix_silence_frame_run in Hsf.
        destruct (silence_frame (mix st)); [done |]. simpl in Hsf.
        destruct (rc _ <? 0); [| done]. injection Hsf as <-. simpl in *.
        symmetry in Hev. apply (app_inv_tail _ ev [_; _; _]) in Hev as ->. done. }
    assert (in_pts (mix st1) = in_pts (mix st)
            ∧ ∃ ev1, trace st1 = ev1 ++ trace st ∧ silence_writes ev1 = [])
      as (Hin & ev1 & Hev1 & Hw1).
    { rewrite mix_silence_frame_run in Hsf.
      destruct (silence_frame (mix st)).
      - injection Hsf as <- <-. split; [done |]. by exists [].
      - simpl in Hsf. destruct (rc _ <? 0); [done |].
        injection Hsf as <- <-. split; [done |]. by eexists [_; _]. }
    assert (0 ≤ in_pts (mix st1) !!! idx < upto) as Hi by (rewrite Hin; lia).
    assert (idx < length (in_pts (mix st1)))%nat as Hlen1 by (by rewrite Hin).
    assert (0 ≤ s < 2 ^ 31) as Hs' by lia.
    pose proof (silence_step_in_pts s idx upto sf st1 Hlen1 Hs' Hu Hi) as Hin2.
    destruct (silence_chunk_bounds s upto _ Hs' Hu Hi) as (Ec & Hc0 & Hc1).
    destruct (mix_silence_loop_grows _ _ _ _ _ _ _ Hrun) as [ev2 Hev2].
    specialize (IH _ ev2 Hrun Hev2).
    rewrite Hin2, Hin in IH.
    assert (ev = ev2 ++ (if rc (respond (world st1)
                                  (av_buffersrc_write_frame
                                     (src_ctxs (mix st1) !!! idx)
                                     (frame_set_nb_samples
                                        (frame_set_pts sf (s64 (in_pts (mix st1) !!! idx)))
                                        (silence_chunk s upto (in_pts (mix st1) !!! idx))))).1
                             =? 0
                         then []
                         else [Logged LOG_WARN "Failed to write silence frame to buffer" ""])
                 ++ Called (av_buffersrc_write_frame (src_ctxs (mix st1) !!! idx)
                              (frame_set_nb_samples
                                 (frame_set_pts sf (s64 (in_pts (mix st1) !!! idx)))
                                 (silence_chunk s upto (in_pts (mix st1) !!! idx))))
                      (respond (world st1)
                         (av_buffersrc_write_frame
                            (src_ctxs (mix st1) !!! idx)
                            (frame_set_nb_samples
                               (frame_set_pts sf (s64 (in_pts (mix st1) !!! idx)))
                               (silence_chunk s upto (in_pts (mix st1) !!! idx))))).1
                 :: ev1) as ->.
    { apply (app_inv_tail (trace st)). rewrite <-Hev, Hev2.
      unfold silence_step. cbn [trace]. rewrite Hev1.
      rewrite <-!(assoc_L (++)). done. }
    rewrite !silence_writes_app, silence_writes_cons, Hw1.
    replace (silence_writes (if _ : bool then [] else [_])) with (@nil AVFrame)
      by (by destruct (_ =? 0)).
    unfold silence_writes at 1. simpl.
    rewrite Ec, u64_s64, u64_id by (unfold in_u64 in *; lia).
    rewrite Hin. split_and!; [done | lia | lia |].
    apply IH.
    + unfold silence_step. simpl. by rewrite length_insert, Hin.
    + lia.
Qed.



Lemma silence_writes_written ev :
  silence_writes ev = (λ w, w.1.2) <$> silence_written ev.
Proof.
  unfold silence_writes, silence_written.
  induction (reverse ev) as [|e l IH]; [done |].
  destruct e as [[] ?| |]; try exact IH. simpl. f_equal. exact IH.
Qed.

Lemma elem_of_silence_written w ev :
  w ∈ silence_written ev →
  Called (av_buffersrc_write_frame w.1.1 w.1.2) w.2 ∈ ev.
Proof.
  unfold silence_written. intros (e & He & Hw)%list_elem_of_omap.
  rewrite elem_of_reverse in He.
  destruct e as [[] ?| |]; try done. injection Hw as <-. done.
Qed.









Lemma tiles_counted size from to (l : list (Z * AVFrame * reply)) :
  tiles size from to
    ((λ f, (u64 (pts f), nb_samples f)) <$> ((λ w, w.1.2) <$> l)) →
  counted from l to.
Proof.
  revert from. induction l as [|w l IH]; intros from; simpl; [done |].
  intros (? & ? & ?). split_and!; [done | lia | by apply IH].
Qed.

(** At a clock rate that is not negative, the frames a pass has written,
    refused or taken, account for the way the input has moved. *)
Lemma mix_silence_fill_idx_upto_counted fuel idx upto (st st' : state W) :
  mix_wf (mix st) → 0 ≤ clockrate (mix st) → (idx < NUM_INPUTS)%nat →
  in_u64 upto →
  mix_silence_fill_idx_upto fuel idx upto st = Some (tt, st') →
  counted (in_pts (mix st) !!! idx) (silence_written (new_events st st'))
    (in_pts (mix st') !!! idx).
Proof.
  intros Hwf Hcr Hidx Hu Hrun.
  destruct (mix_silence_fill_idx_upto_grows _ _ _ _ _ _ Hrun) as [ev Hev].
  rewrite (new_events_app _ _ _ Hev).
  pose proof (wf_clockrate _ Hwf) as Hcr'.
  pose proof (wf_in_pts_lookup _ _ Hwf Hidx) as Hin.
  assert (idx < length (in_pts (mix st)))%nat as Hlen
    by (by rewrite (wf_in_pts _ Hwf)).
  destruct (decide (100 ≤ clockrate (mix st))) as [Hbig|Hsmall].
  - destruct (silence_samples_range (clockrate (mix st))) as [Hs Es]; [lia |].
    assert (1 ≤ clockrate (mix st) / 100) by (apply Z.div_le_lower_bound; lia).
    unfold mix_silence_fill_idx_upto, bind, get_mix in Hrun. simpl in Hrun.
    apply (tiles_counted (u32 (clockrate (mix st) ÷ 100))).
    rewrite <-silence_writes_written.
    apply (mix_silence_loop_tiles fuel _ idx upto st st' ev); try done;
      [lia | apply Hin].
  - destruct (decide (in_pts (mix st) !!! idx < upto)) as [Hlt|Hge].
    + assert (0 ≤ clockrate (mix st) < 100) as Hcr100 by lia.
      assert (0 ≤ in_pts (mix st) !!! idx < upto) as Hin'
        by (unfold in_u64 in Hin; lia).
      destruct (mix_silence_fill_idx_upto_stuck _ _ _ _ _ Hcr100 Hlen Hu Hin' Hrun)
        as [Hnone Hrc].
      unfold mix_silence_fill_idx_upto, bind, get_mix in Hrun. simpl in Hrun.
      rewrite Z.quot_small in Hrun by lia. change (u32 0) with 0 in Hrun.
      destruct fuel as [|fuel].
      { rewrite mix_silence_loop_0 in Hrun.
        destruct (_ <? _) eqn:E; [done | lia]. }
      rewrite mix_silence_loop_S, mix_silence_frame_run, Hnone in Hrun.
      destruct (_ <? _) eqn:E; [| lia]. cbv zeta in Hrun.
      destruct (rc _ <? 0) eqn:Erc; [| lia].
      injection Hrun as <-. simpl in *.
      symmetry in Hev. apply (app_inv_tail _ ev [_; _; _]) in Hev as ->. done.
    + unfold mix_silence_fill_idx_upto, bind, get_mix in Hrun. simpl in Hrun.
      assert (st' = st) as ->.
      { destruct fuel as [|fuel];
          [rewrite mix_silence_loop_0 in Hrun | rewrite mix_silence_loop_S in Hrun];
          (destruct (_ <? _) eqn:E; [lia | by injection Hrun]). }
      by rewrite (app_eq_tail ev [] _ Hev).
Qed.

(** *** Configuring twice, and what a failed configuration leaves *)

(** A call of [mix_config] with the format the session already has does
    nothing and returns 0. *)
Lemma mix_config_same cr ch (st : state W) :
  u32 (clockrate (mix st)) = cr → u32 (channels (mix st)) = ch →
  mix_config cr ch st = Some (0, st).
Proof.
  intros Hcr Hch. unfold mix_config, bind, get_mix. simpl.
  rewrite Hcr, Hch, !Z.eqb_refl. done.
Qed.

Lemma mix_config_format_mismatch_stores cr ch (st st' : state W) r :
  mix_config_format_mismatch cr ch st = Some (r, st') →
  clockrate (mix st') = s32 cr ∧ channels (mix st') = s32 ch.
Proof.
  unfold mix_config_format_mismatch.
  intros (u & st1 & _ & Hrun)%run_bind.
  apply run_bind in Hrun as (u' & st2 & [= <- <-] & Hrun).
  apply run_bind in Hrun as (b & st3 & Hbuild & Hrun).
  assert (inv (λ m, clockrate m = s32 cr ∧ channels m = s32 ch)
            (W:=W) mix_config_build) as Hb.
  { unfold mix_config_build.
    repeat first [ apply mix_config_inputs_inv; by intros []
                 | apply inv_modify; by intros []
                 | inv_step ]. }
  assert (clockrate (mix st3) = s32 cr ∧ channels (mix st3) = s32 ch) as H3.
  { eapply Hb; [exact Hbuild |]. done. }
  destruct b as [err|[]].
  - eapply (inv_bind (λ m, clockrate m = s32 cr ∧ channels m = s32 ch));
      [| | exact Hrun | exact H3].
    + apply mix_shutdown_inv; by intros [].
    + intros. unfold ilog. repeat inv_step.
  - by injection Hrun as <- <-.
Qed.

(** Idempotence: whatever a call of [mix_config] returned, the same call
    again does nothing and returns 0. *)
Lemma mix_config_twice cr ch (st st' : state W) r :
  0 ≤ cr < 2 ^ 32 → 0 ≤ ch < 2 ^ 32 →
  mix_config cr ch st = Some (r, st') →
  mix_config cr ch st' = Some (0, st').
Proof.
  intros Hcr Hch Hrun. apply mix_config_same.
  - unfold mix_config in Hrun.
    apply run_bind in Hrun as (m & st0 & [= <- <-] & Hrun).
    destruct (u32 (clockrate (mix st)) =? cr) eqn:E1; simpl in Hrun.
    + destruct (u32 (channels (mix st)) =? ch) eqn:E2; simpl in Hrun.
      * injection Hrun as <- <-. by apply Z.eqb_eq.
      * apply mix_config_format_mismatch_stores in Hrun as [-> _].
        by apply u32_s32.
    + apply mix_config_format_mismatch_stores in Hrun as [-> _].
      by apply u32_s32.
  - unfold mix_config in Hrun.
    apply run_bind in Hrun as (m & st0 & [= <- <-] & Hrun).
    destruct (u32 (clockrate (mix st)) =? cr) eqn:E1; simpl in Hrun.
    + destruct (u32 (channels (mix st)) =? ch) eqn:E2; simpl in Hrun.
      * injection Hrun as <- <-. by apply Z.eqb_eq.
      * apply mix_config_format_mismatch_stores in Hrun as [_ ->].
        by apply u32_s32.
    + apply mix_config_format_mismatch_stores in Hrun as [_ ->].
      by apply u32_s32.
Qed.

(** *** The offset of an input *)

(** Once the offset of an input holds anything but the mark of an unset
    offset, [mix_add] leaves the offsets alone. *)
Lemma mix_add_keeps_offset fuel frame idx (st st' : state W) r :
  pts_offs (mix st) !!! idx ≠ PTS_UNSET →
  mix_add fuel frame idx st = Some (r, st') →
  pts_offs (mix st') = pts_offs (mix st).
Proof.
  intros Hset Hrun.
  unfold mix_add in Hrun. apply run_bind in Hrun as (o & st0 & Hsub & Hrun).
  assert (pts_offs (mix st') = pts_offs (mix st0)) as ->.
  { destruct o; [by injection Hrun as <- <- |].
    refine (inv_eq pts_offs _ _ _ _ _ Hrun). intros v.
    apply mix_add_drain_inv; by intros []. }
  rewrite mix_add_submit_run in Hsub.
  destruct (NUM_INPUTS <=? idx)%nat; [by injection Hsub as <- <- |].
  destruct (src_ctxs (mix st) !!! idx =? NULL); [by injection Hsub as <- <- |].
  cbv zeta in Hsub.
  assert (offset_resolved frame idx (mix st) = mix st) as E.
  { unfold offset_resolved. by apply Z.eqb_neq in Hset as ->. }
  rewrite !E in Hsub.
  destruct (mix_silence_fill_idx_upto _ _ _ _) as [[[] st1]|] eqn:Hfill; [| done].
  apply mix_silence_fill_idx_upto_spec in Hfill as ((_ & _ & Eo & _) & _).
  cbn [mix] in Eo.
  destruct (negb _); [by injection Hsub as <- <- |].
  destruct (mix_silence_fill _ _) as [[[] st3]|] eqn:Hsf; [| done].
  injection Hsub as <- <-.
  transitivity (pts_offs (counters_updated
                            (u64 (pts (frame_adjusted frame idx (mix st))
                                  + nb_samples (frame_adjusted frame idx (mix st))))
                            idx (mix st1))).
  - refine (inv_eq pts_offs _ _ _ _ _ Hsf). intros v.
    apply mix_silence_fill_inv; by intros [].
  - rewrite <-Eo. unfold counters_updated. by destruct (_ <? _), (_ <? _).
Qed.

(** An accepted first frame sets the offset of its input to the distance
    from its timestamp to the output, and enters the mixer at [out_pts]. *)
Lemma mix_add_sets_offset fuel frame idx (st st' : state W) r :
  mix_wf (mix st) → (idx < NUM_INPUTS)%nat →
  src_ctxs (mix st) !!! idx ≠ NULL →
  pts_offs (mix st) !!! idx = PTS_UNSET →
  mix_add fuel frame idx st = Some (r, st') →
  pts_offs (mix st') !!! idx = u64 (out_pts (mix st) - pts frame)
  ∧ u64 (pts (frame_adjusted frame idx (offset_resolved frame idx (mix st))))
    = out_pts (mix st).
Proof.
  intros Hwf Hidx Hsrc Hunset Hrun.
  assert (pts_offs (offset_resolved frame idx (mix st)) !!! idx
          = u64 (out_pts (mix st) - pts frame)) as Eoffs.
  { unfold offset_resolved. rewrite Hunset, Z.eqb_refl. simpl.
    apply list_lookup_total_insert_eq. by rewrite (wf_pts_offs _ Hwf). }
  split.
  - unfold mix_add in Hrun. apply run_bind in Hrun as (o & st0 & Hsub & Hrun).
    assert (pts_offs (mix st') = pts_offs (mix st0)) as ->.
    { destruct o; [by injection Hrun as <- <- |].
      refine (inv_eq pts_offs _ _ _ _ _ Hrun). intros v.
      apply mix_add_drain_inv; by intros []. }
    rewrite mix_add_submit_run in Hsub.
    destruct (NUM_INPUTS <=? idx)%nat eqn:E; [apply Nat.leb_le in E; lia |].
    apply Z.eqb_neq in Hsrc. rewrite Hsrc in Hsub. cbv zeta in Hsub.
    destruct (mix_silence_fill_idx_upto _ _ _ _) as [[[] st1]|] eqn:Hfill; [| done].
    apply mix_silence_fill_idx_upto_spec in Hfill as ((_ & _ & Eo & _) & _).
    cbn [mix] in Eo.
    destruct (negb _); [injection Hsub as <- <-; simpl; by rewrite Eo |].
    destruct (mix_silence_fill _ _) as [[[] st3]|] eqn:Hsf; [| done].
    injection Hsub as <- <-. rewrite <-Eoffs, <-Eo.
    f_equal.
    etrans.
    { refine (inv_eq pts_offs _ _ _ _ _ Hsf). intros v.
      apply mix_silence_fill_inv; by intros []. }
    cbn [mix]. unfold counters_updated. by destruct (_ <? _), (_ <? _).
  - unfold frame_adjusted. simpl. rewrite u64_s64, Eoffs.
    unfold u64. rewrite Zplus_mod_idemp_r.
    replace (pts frame + (out_pts (mix st) - pts frame)) with (out_pts (mix st)) by lia.
    apply Z.mod_small, Hwf.
Qed.


(** *** A session without topology *)

Lemma mix_shutdown_inputs l (st st' : state W) :
  for_each l (λ i,
    m <- get_mix ;;
    when (negb (src_ctxs m !!! i =? NULL))
      (ext (avfilter_free (src_ctxs m !!! i)) ;; ret tt) ;;
    modify_mix (λ m, set_src_ctxs m (<[i := NULL]> (src_ctxs m)))) st
  = Some (tt, st') →
  length (src_ctxs (mix st')) = length (src_ctxs (mix st))
  ∧ amix_ctx (mix st') = amix_ctx (mix st)
  ∧ sink_ctx (mix st') = sink_ctx (mix st)
  ∧ ∀ i, (i < length (src_ctxs (mix st)))%nat →
      i ∈ l ∨ src_ctxs (mix st) !!! i = NULL → src_ctxs (mix st') !!! i = NULL.
Proof.
  revert st. induction l as [|j l IH]; intros st; simpl.
  - intros [= <-]. split_and!; try done.
    intros i _ [?%elem_of_nil|?]; done.
  - intros (u & st1 & Hbody & Hrest)%run_bind.
    apply run_bind in Hbody as (m & st0 & [= <- <-] & Hbody).
    apply run_bind in Hbody as (u' & st2 & Hfree & Hmod).
    unfold modify_mix in Hmod. injection Hmod as _ <-. destruct u'.
    assert (mix st2 = mix st) as E.
    { unfold when in Hfree. destruct (negb _).
      - apply run_bind in Hfree as (r & st3 & Hext & [= <-]).
        unfold ext in Hext. destruct (respond _ _). by injection Hext as <- <-.
      - by injection Hfree as <-. }
    apply IH in Hrest as (Hlen & Ha & Hs & Hnull). simpl in *.
    rewrite E in *. rewrite length_insert in Hlen, Hnull.
    split_and!; try done.
    intros i Hi Hcase. apply Hnull; [done |].
    destruct (decide (i = j)) as [->|Hne].
    + right. by rewrite list_lookup_total_insert_eq.
    + rewrite list_lookup_total_insert_ne by done.
      destruct Hcase as [[->|?]%elem_of_cons|?]; [done | by left | by right].
Qed.

Lemma mix_shutdown_unbuilt (st st' : state W) :
  length (src_ctxs (mix st)) = NUM_INPUTS →
  mix_shutdown st = Some (tt, st') → unbuilt (mix st').
Proof.
  intros Hlen. unfold mix_shutdown.
  intros (m & st0 & [= <- <-] & Hrun)%run_bind.
  apply run_bind in Hrun as (u1 & st1 & H1 & Hrun).
  apply run_bind in Hrun as (u2 & st2 & Hm2 & Hrun).
  unfold modify_mix in Hm2. injection Hm2 as _ <-.
  apply run_bind in Hrun as (u3 & st3 & H3 & Hrun).
  apply run_bind in Hrun as (u4 & st4 & Hm4 & Hrun).
  unfold modify_mix in Hm4. injection Hm4 as _ <-.
  apply run_bind in Hrun as (u5 & st5 & H5 & Hrun).
  apply run_bind in Hrun as (m6 & st6 & [= <- <-] & Hrun).
  apply run_bind in Hrun as (r7 & st7 & H7 & Hrun).
  apply run_bind in Hrun as (u8 & st8 & Hm8 & Hrun).
  unfold modify_mix in Hm8. injection Hm8 as _ <-.
  apply run_bind in Hrun as (r9 & st9 & H9 & Hm9).
  unfold modify_mix in Hm9. injection Hm9 as <-.
  destruct u1, u3, u5.
  assert (∀ c (sa sb : state W) r, ext c sa = Some (r, sb) → mix sb = mix sa) as Hext.
  { intros c sa sb r. unfold ext. destruct (respond _ _). by intros [= <- <-]. }
  assert (∀ b c (sa sb : state W),
            when b (ext c ;; ret tt) sa = Some (tt, sb) → mix sb = mix sa) as Hwhen.
  { intros [] c sa sb; simpl.
    - intros (r & sc & He & [= <-])%run_bind. by eapply Hext.
    - by intros [= <-]. }
  apply Hwhen in H1, H3. apply Hext in H7, H9.
  apply mix_shutdown_inputs in H5 as (Hlen5 & Ha & Hs & Hnull).
  simpl in *. rewrite H3 in *. simpl in *. rewrite H1 in *.
  unfold unbuilt. simpl. rewrite H9. simpl. rewrite H7.
  split_and!; try done.
  intros i Hi. apply Hnull; [by rewrite Hlen |].
  left. change (i ∈ seq 0 4). apply elem_of_seq. unfold NUM_INPUTS in Hi. lia.
Qed.

(** A call of [mix_config] that fails leaves the session without
    topology, whatever it had before. *)
Lemma mix_config_failed_unbuilt cr ch (st st' : state W) r :
  mix_wf (mix st) → mix_config cr ch st = Some (r, st') → r ≠ 0 →
  unbuilt (mix st').
Proof.
  intros Hwf Hrun Hr.
  assert (mix_config_format_mismatch cr ch st = Some (r, st')) as Hfm.
  { unfold mix_config in Hrun.
    apply run_bind in Hrun as (m & st0 & [= <- <-] & Hrun).
    destruct (negb _); [done |]. destruct (negb _); [done |].
    injection Hrun as <- <-. done. }
  clear Hrun. unfold mix_config_format_mismatch in Hfm.
  apply run_bind in Hfm as (u & st1 & Hs1 & Hrun).
  apply run_bind in Hrun as (u' & st2 & Hm2 & Hrun).
  unfold modify_mix in Hm2. injection Hm2 as _ <-.
  apply run_bind in Hrun as (b & st3 & Hbuild & Hrun).
  destruct b as [err|[]]; [| by injection Hrun as <- <-].
  apply run_bind in Hrun as (u4 & st4 & Hs4 & Hrun).
  apply run_bind in Hrun as (u5 & st5 & Hlog & [= <- <-]).
  unfold ilog, emit in Hlog. injection Hlog as _ <-.
  simpl. destruct u4. eapply mix_shutdown_unbuilt; [| exact Hs4].
  refine (eq_trans (inv_eq (λ m, length (src_ctxs m)) _ _ _ _ _ Hbuild) _).
  { intros v. unfold mix_config_build.
    repeat first [ apply mix_config_inputs_inv;
                   intros m i x <-; simpl; by rewrite length_insert
                 | apply inv_modify; by intros []
                 | inv_step ]. }
  simpl. destruct u.
  refine (eq_trans (inv_eq (λ m, length (src_ctxs m)) _ _ _ _ _ Hs1) _).
  { intros v. apply mix_shutdown_inv; try by intros [].
    intros m i x <-. simpl. by rewrite length_insert. }
  apply Hwf.
Qed.


End Session.

(** * The claims *)

Section Claims.
Context {W : Type} `{!Extern W}.

(** C1, as amended. Drift bound: take a call of [mix_add] that returns and
    during which the silence frame was not refused its buffers. If the call
    returns 0, or if the bound held before the call, then after the call,
    once [out_pts] has reached the clock rate, every [in_pts] is at least
    [out_pts] less the clock rate: no input is more than a second behind. *)
Theorem drift_bound_after_mix_add fuel frame idx (st st' : state W) ret :
  mix_wf (mix st) →
  mix_add fuel frame idx st = Some (ret, st') →
  silence_alloc_failed ∉ new_events st st' →
  ret = 0 ∨ drift_bounded (mix st) →
  drift_bounded (mix st').
Proof.
  intros Hwf Hrun Hno Hcase.
  destruct (mix_add_grows _ _ _ _ _ _ Hrun) as [ev Hev].
  rewrite (new_events_app _ _ _ Hev) in Hno.
  unfold mix_add in Hrun. apply run_bind in Hrun as (r & st0 & Hsub & Hrun).
  rewrite mix_add_submit_run in Hsub.
  destruct (NUM_INPUTS <=? idx)%nat.
  { injection Hsub as <- <-. injection Hrun as <- <-.
    destruct Hcase as [|]; done. }
  destruct (src_ctxs (mix st) !!! idx =? NULL).
  { injection Hsub as <- <-. injection Hrun as <- <-.
    destruct Hcase as [|]; done. }
  simpl in Hsub.
  destruct (mix_silence_fill_idx_upto _ _ _ _) as [[[] st1]|] eqn:Hfill; [| done].
  apply mix_silence_fill_idx_upto_spec in Hfill as (Ha1 & _ & ev1 & Hev1 & _).
  simpl in Ha1, Hev1.
  assert (drift_bounded (mix st) → drift_bounded (mix st1)) as Hd1.
  { intros Hd. eapply drift_bounded_advanced; [exact Ha1 |].
    unfold offset_resolved. by destruct (_ =? PTS_UNSET). }
  destruct (negb _).
  { injection Hsub as <- <-. injection Hrun as <- <-.
    destruct Hcase as [|]; [done | by apply Hd1]. }
  destruct (mix_silence_fill _ _) as [[[] st3]|] eqn:Hsf; [| done].
  injection Hsub as <- <-.
  apply mix_silence_fill_spec in Hsf as (_ & ev3 & Hev3 & Hc3).
  2:{ simpl. apply counters_updated_out; [| apply u64_range].
      destruct Ha1 as (-> & _). unfold offset_resolved.
      destruct (_ =? PTS_UNSET); apply Hwf. }
  simpl in Hev3.
  destruct (mix_add_drain_grows _ _ _ _ _ Hrun) as [ev4 Hev4].
  eapply (mix_add_drain_inv drift_bounded); [by intros [] .. | exact Hrun |].
  destruct Hc3 as [Hfail|]; [| done].
  exfalso. apply Hno.
  eassert (ev = ev4 ++ ev3 ++ _ :: _ :: ev1) as ->.
  { apply (inj (.++ trace st)). rewrite <-Hev, Hev4, Hev3, Hev1.
    rewrite <-!(assoc_L (++)). reflexivity. }
  apply elem_of_app. right. apply elem_of_app. by left.
Qed.

(** C3, as amended. Timeline tracking: in every reachable state [out_pts]
    is at most the largest [in_pts]; every operation that returns, whether it
    succeeds or fails, leaves [out_pts] and every [in_pts] where they were or
    further on; and an operation run at a clock rate that is not negative, in
    which every frame handed to an input was accepted, had a sample count that
    is not negative and ended below 2^64, keeps [out_pts] equal to the
    largest [in_pts]. *)
Theorem timeline_tracking (st : state W) :
  reachable st →
  out_pts (mix st) ≤ max_in_pts (mix st)
  ∧ ∀ fuel o r st', run_op fuel o st = Some (r, st') →
      out_pts (mix st) ≤ out_pts (mix st')
      ∧ (∀ i, in_pts (mix st) !!! i ≤ in_pts (mix st') !!! i)
      ∧ (0 ≤ clockrate (mix st) → frames_accepted (new_events st st') →
         out_pts (mix st) = max_in_pts (mix st) →
         out_pts (mix st') = max_in_pts (mix st')).
Proof.
  intros Hreach. split; [by apply reachable_out_pts_le |].
  intros fuel o r st' Hrun.
  destruct (run_op_timeline fuel o st st' r) as (? & ? & _ & ?);
    [by apply reachable_wf | done | done].
Qed.


(** C6. Sink-failure abort: when a submission has reached the drain loop
    in [st0], the loop has handed [k] frames to the output, and the output
    refuses the next frame pulled, then [mix_add] returns -1 in the very state
    the refusal left: the world is the one [output_add] returned, its call is
    the last event, so nothing more is pulled or forwarded, and the counters
    and offsets are those the submission had on entering the loop. *)
Theorem sink_failure_aborts fuel frame idx (st st0 stk st2 : state W)
    k framek r w1 fr r' w3 :
  mix_add_submit fuel frame idx st = Some (None, st0) →
  pulled st0 None k stk framek →
  (k < fuel)%nat →
  respond (world stk) (av_buffersink_get_frame (sink_ctx (mix stk))) = (r, w1) →
  0 ≤ rc r →
  mix_resample_frame (out_frame r)
    (mkState (set_sink_frame (mix stk) (out_frame r)) w1
       (Called (av_buffersink_get_frame (sink_ctx (mix stk))) r :: trace stk))
  = Some (fr, st2) →
  respond (world st2) (output_add fr) = (r', w3) →
  rc r' ≠ 0 →
  mix_add fuel frame idx st
  = Some (-1, mkState (set_sink_frame (mix st2) frame_zero) w3
                (Called (output_add fr) r' :: trace st2))
  ∧ in_pts (mix st2) = in_pts (mix st0)
  ∧ out_pts (mix st2) = out_pts (mix st0)
  ∧ pts_offs (mix st2) = pts_offs (mix st0).
Proof.
  intros Hsub Hpulled Hk Hpull Hrc Hres Hout Hfail.
  split.
  - unfold mix_add, bind. rewrite Hsub.
    replace fuel with (k + S (fuel - S k))%nat by lia.
    rewrite (mix_add_drain_pulled _ _ _ _ _ _ Hpulled). simpl.
    unfold bind at 1. rewrite mix_add_pull_run. simpl.
    rewrite Hpull. simpl.
    destruct (rc r <? 0) eqn:E; [lia |].
    rewrite Hres. simpl. rewrite Hout. simpl.
    destruct (rc r' =? 0) eqn:E'; [lia | done].
  - assert (∀ {B} (f : mix_s → B),
              (∀ m v, f (set_sink_frame m v) = f m) →
              (∀ m v, f (set_avresample m v) = f m) →
              (∀ m v, f (set_swr_frame m v) = f m) →
              (∀ m v, f (set_swr_buffers m v) = f m) →
              f (mix st2) = f (mix st0)) as Hsame.
    { intros B f H1 H2 H3 H4.
      transitivity (f (mix stk)).
      - rewrite <-(H1 (mix stk) (out_frame r)).
        refine (inv_eq f _ _ _ _ _ Hres). intros v.
        apply mix_resample_frame_inv; intros m x <-; auto.
      - apply (pulled_inv (λ m, f m = f (mix st0)) _ _ _ _ _) in Hpulled;
          try done; intros m x <-; auto. }
    split_and!; apply Hsame; by intros [].
Qed.

(** C7, as amended. Index-error rejection: a submission to an index that
    is out of range, or whose source is not built (the session is not
    configured), returns -1, frees the frame, logs the error and changes
    neither the session nor the world. *)
Theorem mix_add_rejects_bad_index fuel frame idx (st : state W) :
  (NUM_INPUTS ≤ idx)%nat ∨ src_ctxs (mix st) !!! idx = NULL →
  ∃ err, mix_add fuel frame idx st
         = Some (-1, mkState (mix st) (world st)
                       (Freed (Some frame)
                        :: Logged LOG_ERR "Failed to add frame to mixer: %s" err
                        :: trace st)).
Proof. apply mix_add_rejected. Qed.

(** C9. Index allocation: on a new session, [NUM_INPUTS] calls of
    [mix_get_index] return 0, 1, 2 and 3, which are distinct and are exactly
    the indices below [NUM_INPUTS]; one more call returns [NUM_INPUTS], which
    is no index of an input: [mix_add] rejects it and leaves the session as
    it was. *)
Theorem mix_get_index_allocates (w : W) tr :
  ∃ st4 st5,
    mix_get_indices NUM_INPUTS (mkState mix_new w tr)
    = Some (seq 0 NUM_INPUTS, st4)
    ∧ NoDup (seq 0 NUM_INPUTS)
    ∧ (∀ i, i ∈ seq 0 NUM_INPUTS ↔ (i < NUM_INPUTS)%nat)
    ∧ mix_get_index st4 = Some (NUM_INPUTS, st5)
    ∧ ∀ fuel frame, ∃ st6,
        mix_add fuel frame NUM_INPUTS st5 = Some (-1, st6)
        ∧ mix st6 = mix st5.
Proof.
  exists (mkState (set_next_idx mix_new 4) w tr),
    (mkState (set_next_idx mix_new 5) w tr).
  split_and!.
  - reflexivity.
  - apply NoDup_seq.
  - intros i. rewrite elem_of_seq. lia.
  - reflexivity.
  - intros fuel frame.
    destruct (mix_add_rejected fuel frame NUM_INPUTS
                (mkState (set_next_idx mix_new 5) w tr)) as [err Hrej];
      [by left |].
    eexists. split; [exact Hrej | reflexivity].
Qed.

(** C10. A chunk of silence is counted whatever the input answers. Over a
    pass of [mix_silence_fill_idx_upto] that returns, at a clock rate that is
    not negative, the frames written to the input, taken with the answers of
    [av_buffersrc_write_frame] and whatever these were, account for the way
    [in_pts] has moved: the first starts where [in_pts] stood, each has at
    least one sample and has moved the counter on by its samples, the next
    starts there, and the last ends where the pass leaves [in_pts]; so a
    frame that was refused has moved the counter as one that was taken, and
    is not written a second time. And every frame written by a later pass on
    that input, which starts from a counter that has not gone back, begins at
    or after the end of every frame of this pass: the chunk is never made or
    sent again. *)
Theorem silence_chunk_never_resent fuel fuel' idx upto upto'
    (st1 st1' st2 st2' : state W) :
  mix_wf (mix st1) → 0 ≤ clockrate (mix st1) → (idx < NUM_INPUTS)%nat →
  in_u64 upto →
  mix_silence_fill_idx_upto fuel idx upto st1 = Some (tt, st1') →
  mix_wf (mix st2) → 0 ≤ clockrate (mix st2) → in_u64 upto' →
  in_pts (mix st1') !!! idx ≤ in_pts (mix st2) !!! idx →
  mix_silence_fill_idx_upto fuel' idx upto' st2 = Some (tt, st2') →
  counted (in_pts (mix st1) !!! idx) (silence_written (new_events st1 st1'))
    (in_pts (mix st1') !!! idx)
  ∧ ∀ w w', w ∈ silence_written (new_events st1 st1') →
      w' ∈ silence_written (new_events st2 st2') →
      u64 (pts w.1.2) + nb_samples w.1.2 ≤ u64 (pts w'.1.2).
Proof.
  intros Hwf1 Hcr1 Hidx Hu1 Hrun1 Hwf2 Hcr2 Hu2 Hlater Hrun2.
  split; [by apply (mix_silence_fill_idx_upto_counted fuel idx upto) |].
  intros w w' Hel1%elem_of_silence_written Hel2%elem_of_silence_written.
  destruct (silence_chunk_within _ _ _ _ _ _ _ _ Hwf1 Hcr1 Hidx Hu1 Hrun1 Hel1)
    as (Hlo & ? & ?).
  destruct (silence_chunk_within _ _ _ _ _ _ _ _ Hwf2 Hcr2 Hidx Hu2 Hrun2 Hel2)
    as (? & ? & ?).
  lia.
Qed.


End Claims.

(** * Further properties *)

(** ** Running a computation, and the events it adds *)

Section EmitsRules.
Context {W : Type} `{!Extern W}.

Lemma run_ext c (st st' : state W) r :
  ext c st = Some (r, st') ↔
  ∃ w, respond (world st) c = (r, w)
       ∧ st' = mkState (mix st) w (Called c r :: trace st).
Proof.
  unfold ext. destruct (respond _ _) as [r0 w0]. split.
  - intros [= <- <-]. by exists w0.
  - by intros (w & [= <- <-] & ->).
Qed.

Lemma run_ebind {A B} (c : M W (string + A)) (k : A → M W (string + B))
    (st st' : state W) b :
  (x <-? c ;; k x) st = Some (inr b, st') ↔
  ∃ a st1, c st = Some (inr a, st1) ∧ k a st1 = Some (inr b, st').
Proof.
  unfold ebind. rewrite run_bind. split.
  - intros ([e|a] & st1 & H1 & H2); [done | eauto].
  - intros (a & st1 & H1 & H2). by exists (inr a), st1.
Qed.

Lemma run_lift {A} (c : M W A) (st st' : state W) a :
  lift c st = Some (inr a, st') ↔ c st = Some (a, st').
Proof.
  unfold lift. rewrite run_bind. split.
  - by intros (a' & st1 & H1 & [= <- <-]).
  - intros H1. by exists a, st'.
Qed.

Lemma run_goto_err_if b msg (st st' : state W) u :
  goto_err_if b msg st = Some (inr u, st') ↔ b = false ∧ st' = st.
Proof.
  unfold goto_err_if, ret. destruct b, u; split; try done.
  - by intros [? ?].
  - by intros [= <-].
  - by intros [_ ->].
Qed.

Section Emits.
Context (Q : event → Prop).

Lemma emits_ret {A} (a : A) : emits (W:=W) Q (ret a).
Proof. intros st a' st' [= <- <-]. by exists []. Qed.

Lemma emits_get_mix : emits (W:=W) Q get_mix.
Proof. intros st a st' [= <- <-]. by exists []. Qed.

Lemma emits_out_of_fuel {A} : emits (W:=W) (A:=A) Q out_of_fuel.
Proof. intros st a st' [=]. Qed.

Lemma emits_emit e : Q e → emits (W:=W) Q (emit e).
Proof. intros He st a st' [= <- <-]. exists [e]. split; [done | by constructor]. Qed.

Lemma emits_ext c : (∀ r, Q (Called c r)) → emits Q (ext c).
Proof.
  intros Hc st a st' (w & _ & ->)%run_ext. eexists [_]. split; [done |].
  constructor; [apply Hc | constructor].
Qed.

Lemma emits_modify g : emits (W:=W) Q (modify_mix g).
Proof. intros st a st' [= <- <-]. by exists []. Qed.

Lemma emits_bind {A C} (c : M W A) (k : A → M W C) :
  emits Q c → (∀ a, emits Q (k a)) → emits Q (x <- c ;; k x).
Proof.
  intros Hc Hk st b st' (a & st1 & H1 & H2)%run_bind.
  destruct (Hc _ _ _ H1) as (ev1 & E1 & F1), (Hk _ _ _ _ H2) as (ev2 & E2 & F2).
  exists (ev2 ++ ev1). split; [by rewrite E2, E1, (assoc_L (++)) |].
  by apply Forall_app.
Qed.

Lemma emits_when b c : emits (W:=W) Q c → emits Q (when b c).
Proof. destruct b; [done | intros _; apply emits_ret]. Qed.

Lemma emits_for_each l body :
  (∀ i, emits (W:=W) Q (body i)) → emits Q (for_each l body).
Proof.
  intros Hb. induction l as [|i l IH]; simpl.
  - apply emits_ret.
  - apply emits_bind; auto.
Qed.

Lemma emits_lift {A} (c : M W A) : emits Q c → emits Q (lift c).
Proof. intros Hc. apply emits_bind; [done | intros; apply emits_ret]. Qed.

Lemma emits_goto_err_if b msg : emits (W:=W) Q (goto_err_if b msg).
Proof. apply emits_ret. Qed.

Lemma emits_ebind {A C} (c : M W (string + A)) (k : A → M W (string + C)) :
  emits Q c → (∀ a, emits Q (k a)) → emits Q (x <-? c ;; k x).
Proof.
  intros Hc Hk. apply emits_bind; [done |]. intros [e|a]; [apply emits_ret | done].
Qed.

End Emits.

Lemma emits_weaken {A} (Q Q' : event → Prop) (c : M W A) :
  (∀ e, Q e → Q' e) → emits Q c → emits Q' c.
Proof.
  intros HQ Hc st a st' Hrun. destruct (Hc _ _ _ Hrun) as (ev & E & F).
  exists ev. split; [done |]. eapply Forall_impl; eauto.
Qed.

Lemma emits_new_events {A} (Q : event → Prop) (c : M W A) st a st' :
  emits Q c → c st = Some (a, st') → Forall Q (new_events st st').
Proof.
  intros Hc Hrun. destruct (Hc _ _ _ Hrun) as (ev & E & F).
  by rewrite (new_events_app _ _ _ E).
Qed.

End EmitsRules.

Ltac emits_step :=
  first
    [ apply emits_ret | apply emits_get_mix
    | apply emits_ext; intros ?; simpl; auto; fail
    | apply emits_emit; simpl; auto; fail
    | apply emits_out_of_fuel | apply emits_modify
    | apply emits_lift | apply emits_goto_err_if
    | apply emits_when
    | apply emits_for_each; intros ?
    | apply emits_ebind; [| intros ?]
    | apply emits_bind; [| intros ?]
    | match goal with
      | |- emits _ (if ?b then _ else _) => destruct b eqn:?
      | |- emits _ (match ?x with _ => _ end) => destruct x eqn:?
      end ].

Section EmitsSession.
Context {W : Type} `{!Extern W}.

Lemma mix_get_index_emits Q : emits (W:=W) Q mix_get_index.
Proof. unfold mix_get_index. repeat emits_step. Qed.

Lemma mix_shutdown_emits : emits shutdown_event mix_shutdown.
Proof.
  unfold mix_shutdown.
  repeat first
    [ match goal with
      | |- emits _ (when (negb (?x =? NULL)) _) =>
          destruct (Z.eqb_spec x NULL); simpl
      end
    | emits_step ].
Qed.

Lemma shutdown_config_event e : shutdown_event e → config_event e.
Proof. destruct e as [[] ?| |]; simpl; done. Qed.

Lemma mix_config_inputs_emits l flt : emits config_event (mix_config_inputs l flt).
Proof. induction l as [|i l IH]; simpl; repeat emits_step. done. Qed.

Lemma mix_config_emits cr ch : emits config_event (mix_config cr ch).
Proof.
  assert (emits config_event (mix_config_format_mismatch cr ch)).
  { unfold mix_config_format_mismatch, mix_config_build, ilog.
    repeat first
      [ apply (emits_weaken _ _ _ shutdown_config_event), mix_shutdown_emits
      | apply mix_config_inputs_emits
      | emits_step ]. }
  unfold mix_config. repeat emits_step; done.
Qed.

Lemma mix_silence_frame_emits s : emits silence_event (mix_silence_frame s).
Proof. unfold mix_silence_frame, ilog. repeat emits_step. Qed.

Lemma mix_silence_loop_emits fuel s idx upto :
  emits silence_event (mix_silence_loop fuel s idx upto).
Proof.
  induction fuel as [|fuel IH]; simpl; unfold ilog;
    repeat first [ apply mix_silence_frame_emits | exact IH | emits_step ].
Qed.

Lemma mix_silence_fill_idx_upto_emits fuel idx upto :
  emits silence_event (mix_silence_fill_idx_upto fuel idx upto).
Proof.
  unfold mix_silence_fill_idx_upto.
  repeat first [ apply mix_silence_loop_emits | emits_step ].
Qed.

Lemma mix_silence_fill_emits fuel : emits silence_event (mix_silence_fill fuel).
Proof.
  unfold mix_silence_fill.
  repeat first [ apply mix_silence_fill_idx_upto_emits | emits_step ].
Qed.

Lemma mix_resample_frame_emits frame :
  emits resample_event (mix_resample_frame frame).
Proof.
  unfold mix_resample_frame, mix_resample_convert, mix_resample_open,
    mix_resample_grow, ilog, av_frame_free.
  repeat emits_step.
Qed.

End EmitsSession.

(** ** Taking the topology down *)

Section Shutdown.
Context {W : Type} `{!Extern W}.

Lemma filters_freed_app ev1 ev2 :
  filters_freed (ev2 ++ ev1) = filters_freed ev1 ++ filters_freed ev2.
Proof. unfold filters_freed. by rewrite reverse_app, omap_app. Qed.

Lemma frames_freed_app ev1 ev2 :
  frames_freed (ev2 ++ ev1) = frames_freed ev1 ++ frames_freed ev2.
Proof. unfold frames_freed. by rewrite reverse_app, omap_app. Qed.

Lemma frames_added_app ev1 ev2 :
  frames_added (ev2 ++ ev1) = frames_added ev1 ++ frames_added ev2.
Proof. unfold frames_added. by rewrite reverse_app, omap_app. Qed.

(** A context is freed if it is not null. *)
Lemma avfilter_free_if x (st st' : state W) :
  when (negb (x =? NULL)) (ext (avfilter_free x) ;; ret tt) st = Some (tt, st') →
  mix st' = mix st
  ∧ ∃ ev, trace st' = ev ++ trace st
      ∧ filters_freed ev = filter (λ p, p ≠ NULL) [x]
      ∧ frames_freed ev = [].
Proof.
  destruct (Z.eqb_spec x NULL) as [E|E]; simpl.
  - intros [= <-]. split; [done |]. exists []. split_and!; [done | | done].
    rewrite filter_cons_False by (intros ?; done). done.
  - intros (r & st1 & (w & _ & ->)%run_ext & [= <-])%run_bind. split; [done |].
    eexists [_]. split_and!; [done | | done].
    rewrite filter_cons_True by done. done.
Qed.

Lemma mix_shutdown_inputs_run l (st st' : state W) :
  for_each l (λ i,
    m <- get_mix ;;
    when (negb (src_ctxs m !!! i =? NULL))
      (ext (avfilter_free (src_ctxs m !!! i)) ;; ret tt) ;;
    modify_mix (λ m, set_src_ctxs m (<[i := NULL]> (src_ctxs m)))) st
  = Some (tt, st') →
  NoDup l →
  mix st' = set_src_ctxs (mix st) (foldl (λ s i, <[i := NULL]> s) (src_ctxs (mix st)) l)
  ∧ ∃ ev, trace st' = ev ++ trace st
      ∧ filters_freed ev
        = filter (λ p, p ≠ NULL) ((λ i, src_ctxs (mix st) !!! i) <$> l)
      ∧ frames_freed ev = [].
Proof.
  revert st. induction l as [|j l IH]; intros st; simpl.
  - intros [= <-] _. split; [by destruct (mix st) |]. by exists [].
  - intros (u & st1 & Hbody & Hrest)%run_bind [Hj Hnd]%NoDup_cons.
    apply run_bind in Hbody as (m & st0 & [= <- <-] & Hbody).
    apply run_bind in Hbody as ([] & st2 & Hfree & Hmod).
    unfold modify_mix in Hmod. injection Hmod as Hmod. subst st1.
    apply avfilter_free_if in Hfree as (E & ev1 & E1 & F1 & G1).
    apply IH in Hrest as (E' & ev2 & E2 & F2 & G2); [| done].
    simpl in *. rewrite E in *. split; [by rewrite E' |].
    exists (ev2 ++ ev1). split_and!.
    + by rewrite E2, E1, (assoc_L (++)).
    + rewrite filters_freed_app, F1, F2.
      assert (((λ i, <[j:=NULL]> (src_ctxs (mix st)) !!! i) <$> l)
              = ((λ i, src_ctxs (mix st) !!! i) <$> l)) as ->.
      { apply list_fmap_ext. intros k i Hk.
        apply list_lookup_total_insert_ne. intros <-.
        apply Hj. by eapply list_elem_of_lookup_2. }
      simpl. rewrite !filter_cons, filter_nil. by destruct (decide _).
    + by rewrite frames_freed_app, G1, G2.
Qed.

(** [mix_shutdown], in full: the session it leaves, the contexts it frees
    and the order in which the resampler and the graph go. *)
Lemma mix_shutdown_run (st st' : state W) :
  length (src_ctxs (mix st)) = NUM_INPUTS →
  mix_shutdown st = Some (tt, st') →
  mix st' = shut (mix st)
  ∧ ∃ ev r1 r2,
      trace st'
      = Called (avfilter_graph_free (graph (mix st))) r2
        :: Called (avresample_free (avresample (mix st))) r1 :: ev ++ trace st
      ∧ filters_freed ev
        = filter (λ p, p ≠ NULL)
            (amix_ctx (mix st) :: sink_ctx (mix st) :: src_ctxs (mix st))
      ∧ frames_freed ev = [].
Proof.
  intros Hlen. unfold mix_shutdown.
  intros (m & st0 & [= <- <-] & Hrun)%run_bind.
  apply run_bind in Hrun as ([] & st1 & H1 & Hrun).
  apply run_bind in Hrun as ([] & st2 & Hm2 & Hrun).
  unfold modify_mix in Hm2. injection Hm2 as Hm2. subst st2.
  apply run_bind in Hrun as ([] & st3 & H3 & Hrun).
  apply run_bind in Hrun as ([] & st4 & Hm4 & Hrun).
  unfold modify_mix in Hm4. injection Hm4 as Hm4. subst st4.
  apply run_bind in Hrun as ([] & st5 & H5 & Hrun).
  apply run_bind in Hrun as (m6 & st6 & [= <- <-] & Hrun).
  apply run_bind in Hrun as (r7 & st7 & (w7 & _ & ->)%run_ext & Hrun).
  apply run_bind in Hrun as ([] & st8 & Hm8 & Hrun).
  unfold modify_mix in Hm8. injection Hm8 as Hm8. subst st8.
  apply run_bind in Hrun as (r9 & st9 & (w9 & _ & ->)%run_ext & Hm9).
  unfold modify_mix in Hm9. injection Hm9 as Hm9. subst st'.
  apply avfilter_free_if in H1 as (M1 & ev1 & E1 & F1 & G1).
  apply avfilter_free_if in H3 as (M3 & ev3 & E3 & F3 & G3).
  apply mix_shutdown_inputs_run in H5 as (M5 & ev5 & E5 & F5 & G5);
    [| apply NoDup_seq].
  simpl in *. rewrite M3 in *. simpl in *. rewrite M1 in *. rewrite M5. simpl.
  split.
  - unfold shut. simpl. f_equal.
    destruct (src_ctxs (mix st)) as [|a [|b [|c [|d [|]]]]]; done.
  - eexists (ev5 ++ ev3 ++ ev1), _, _. split_and!.
    + rewrite E5, E3, E1, <-!(assoc_L (++)). done.
    + rewrite !filters_freed_app, F1, F3, F5.
      destruct (src_ctxs (mix st)) as [|a [|b [|c [|d [|]]]]]; try done.
      rewrite !filter_cons, !filter_nil. simpl.
      repeat destruct (decide _); done.
    + by rewrite !frames_freed_app, G1, G3, G5.
Qed.

End Shutdown.

(** ** Building the topology *)

(** One step of code that has not jumped to its [err] label. *)
Ltac run_step H :=
  let a := fresh "a" in
  let st := fresh "st" in
  let H1 := fresh "H" in
  apply (proj1 (run_ebind _ _ _ _ _)) in H as (a & st & H1 & H);
  first
    [ apply (proj1 (run_lift _ _ _ _)) in H1;
      first [ let w := fresh "w" in
              apply (proj1 (run_ext _ _ _ _)) in H1 as (w & H1 & ->)
            | progress unfold modify_mix in H1; injection H1 as <- <-
            | progress unfold get_mix in H1; injection H1 as <- <-
            | progress unfold av_frame_free, ilog, emit in H1;
              injection H1 as <- <- ]
    ].

Ltac run_goto H Hb :=
  let a := fresh "a" in
  let st := fresh "st" in
  apply (proj1 (run_ebind _ _ _ _ _)) in H as (a & st & Hb & H);
  apply (proj1 (run_goto_err_if _ _ _ _ _)) in Hb as [Hb ->].

Ltac tidy :=
  cbn [mix world trace graph amix_ctx sink_ctx src_ctxs clockrate channels
       set_graph set_amix_ctx set_sink_ctx set_src_ctxs] in *.

Section Build.
Context {W : Type} `{!Extern W}.

Lemma mix_config_inputs_built l flt (st st' : state W) u :
  mix_config_inputs l flt st = Some (inr u, st') →
  NoDup l →
  (∀ i, i ∈ l → (i < length (src_ctxs (mix st)))%nat) →
  mix st' = set_src_ctxs (mix st) (src_ctxs (mix st'))
  ∧ length (src_ctxs (mix st')) = length (src_ctxs (mix st))
  ∧ (∀ k, k ∉ l → src_ctxs (mix st') !!! k = src_ctxs (mix st) !!! k)
  ∧ ∃ ev, trace st' = ev ++ trace st
      ∧ ∀ i, i ∈ l →
          ∃ r1 r2,
            rc r1 = 0 ∧ out_ptr r1 = src_ctxs (mix st') !!! i ∧ rc r2 = 0
            ∧ Called (avfilter_graph_create_filter flt
                        (abuffer_args (clockrate (mix st))
                           (av_get_default_channel_layout (channels (mix st))))
                        (graph (mix st))) r1 ∈ ev
            ∧ Called (avfilter_link (src_ctxs (mix st') !!! i) 0
                        (amix_ctx (mix st)) i) r2 ∈ ev.
Proof.
  revert st. induction l as [|j l IH]; intros st; simpl.
  - intros [= <- <-] _ _. split_and!; [by destruct (mix st) | done | done |].
    exists []. split; [done |]. by intros i ?%elem_of_nil.
  - intros Hrun [Hj Hnd]%NoDup_cons Hlt.
    run_step Hrun. run_step Hrun. run_step Hrun. run_goto Hrun Hc1.
    run_step Hrun. run_step Hrun. run_goto Hrun Hl1.
    apply negb_false_iff, Z.eqb_eq in Hc1, Hl1.
    simpl in *.
    assert (j < length (src_ctxs (mix st)))%nat as Hjl by (apply Hlt; left).
    rewrite list_lookup_total_insert_eq in * by done.
    apply IH in Hrun as (E & Hlen & Hk & ev & Et & Hev); [| done |]; simpl in *.
    2:{ intros i Hi. rewrite length_insert. apply Hlt. by right. }
    rewrite length_insert in Hlen.
    assert (src_ctxs (mix st') !!! j = out_ptr a) as Ej.
    { rewrite (Hk j Hj). by apply list_lookup_total_insert_eq. }
    split_and!; [by rewrite E | done | |].
    { intros k [Hkj Hkl]%not_elem_of_cons. rewrite (Hk k Hkl).
      by apply list_lookup_total_insert_ne. }
    eexists (ev ++ [_; _]). split.
    { rewrite Et, <-(assoc_L (++)). done. }
    intros i [->|Hi]%elem_of_cons.
    + eexists _, _. split_and!; [exact Hc1 | by rewrite Ej | exact Hl1 | |].
      * apply elem_of_app. right. right. left.
      * apply elem_of_app. right. rewrite Ej. left.
    + destruct (Hev i Hi) as (r1 & r2 & ? & ? & ? & ? & ?).
      exists r1, r2. split_and!; try done; apply elem_of_app; by left.
Qed.

(** A build that reaches [return 0] has made the whole topology. *)
Lemma mix_config_build_built (st st' : state W) u :
  length (src_ctxs (mix st)) = NUM_INPUTS →
  mix_config_build st = Some (inr u, st') →
  ∃ ev, trace st' = ev ++ trace st ∧ built (mix st') ev.
Proof.
  intros Hlen Hrun. unfold mix_config_build in Hrun.
  run_step Hrun. run_step Hrun. run_goto Hrun Hg.
  run_step Hrun. run_goto Hrun Hf1.
  run_step Hrun. run_step Hrun. run_step Hrun. run_goto Hrun Ha.
  run_step Hrun. run_goto Hrun Hf2.
  apply (proj1 (run_ebind _ _ _ _ _)) in Hrun as (ui & sti & Hin & Hrun).
  run_step Hrun. run_goto Hrun Hf3.
  run_step Hrun. run_step Hrun. run_step Hrun. run_goto Hrun Hs.
  run_step Hrun. run_step Hrun. run_goto Hrun Hl.
  run_step Hrun.
  apply (proj1 (run_goto_err_if _ _ _ _ _)) in Hrun as [Hc ->].
  apply Z.eqb_neq in Hg.
  apply negb_false_iff, Z.eqb_eq in Ha, Hs, Hl, Hc.
  apply mix_config_inputs_built in Hin as (E & Hlen' & _ & ev & Et & Hev);
    [| apply NoDup_seq | ].
  2:{ intros i Hi%elem_of_seq. simpl. rewrite Hlen. lia. }
  tidy. rewrite E in *. tidy.
  eexists ([_; _; _; _] ++ ev ++ [_; _; _; _]). split.
  { rewrite Et, <-!(assoc_L (++)). done. }
  unfold built. simpl. split_and!.
  - done.
  - intros i Hi. destruct (Hev i) as (r1 & r2 & ? & ? & ? & ? & ?).
    { apply elem_of_seq. lia. }
    eexists _, r1, r2. split_and!; try done.
    + do 4 right. apply elem_of_app. by left.
    + do 4 right. apply elem_of_app. by left.
  - eexists. split; [exact Hl |]. right. left.
  - eexists. split; [exact Hc |]. left.
Qed.

End Build.

(** ** Configuring a session *)

Section Config.
Context {W : Type} `{!Extern W}.

Lemma shut_unbuilt m : unbuilt (shut m).
Proof.
  unfold unbuilt, shut. simpl. split_and!; try done.
  intros i Hi. unfold NUM_INPUTS in *.
  destruct i as [|[|[|[|]]]]; try done. lia.
Qed.

Lemma mix_config_build_inv (P : mix_s → Prop) :
  (∀ m v, P m → P (set_amix_ctx m v)) →
  (∀ m v, P m → P (set_sink_ctx m v)) →
  (∀ m i v, P m → P (set_src_ctxs m (<[i := v]> (src_ctxs m)))) →
  (∀ m v, P m → P (set_graph m v)) →
  inv (W:=W) P mix_config_build.
Proof.
  intros H1 H2 H3 H4. unfold mix_config_build.
  repeat first [ apply mix_config_inputs_inv; done | inv_step ].
Qed.

Lemma mix_config_build_shut (st st' : state W) b :
  mix_config_build st = Some (b, st') → shut (mix st') = shut (mix st).
Proof.
  intros Hrun.
  refine (inv_eq shut _ _ _ _ _ Hrun). intros v. unfold mix_config_build.
  repeat first [ apply mix_config_inputs_inv; by intros ? ? ? <-
               | apply inv_modify; by intros ? <-
               | inv_step ].
Qed.

Lemma mix_config_build_length (st st' : state W) b :
  mix_config_build st = Some (b, st') →
  length (src_ctxs (mix st')) = length (src_ctxs (mix st)).
Proof.
  intros Hrun.
  refine (inv_eq (λ m, length (src_ctxs m)) _ _ _ _ _ Hrun). intros v.
  unfold mix_config_build.
  repeat first [ apply mix_config_inputs_inv;
                 intros m i x <-; simpl; by rewrite length_insert
               | apply inv_modify; by intros ? <-
               | inv_step ].
Qed.

Lemma no_filters_freed ev :
  Forall (λ e, match e with Called (avfilter_free _) _ => False | _ => True end) ev →
  filters_freed ev = [].
Proof.
  unfold filters_freed. intros Hev%Forall_reverse.
  induction Hev as [|e l He _ IH]; [done |].
  destruct e as [[] ?| |]; first [done | exact IH].
Qed.

Lemma mix_config_build_frees_nothing (st st' : state W) b :
  mix_config_build st = Some (b, st') →
  ∃ ev, trace st' = ev ++ trace st ∧ filters_freed ev = [].
Proof.
  intros Hrun.
  assert (emits (W:=W)
            (λ e, match e with Called (avfilter_free _) _ => False | _ => True end)
            mix_config_build) as Hem.
  { assert (∀ l flt, emits (W:=W)
              (λ e, match e with Called (avfilter_free _) _ => False | _ => True end)
              (mix_config_inputs l flt)) as Hin.
    { intros l flt. induction l as [|i l IH]; simpl; repeat emits_step. done. }
    unfold mix_config_build. repeat first [ apply Hin | emits_step ]. }
  destruct (Hem _ _ _ Hrun) as (ev & Et & Hev).
  exists ev. split; [done |]. by apply no_filters_freed.
Qed.

(** [mix_config] past its label [format_mismatch], step by step. *)
Lemma mix_config_format_mismatch_run cr ch (st st' : state W) r :
  mix_config_format_mismatch cr ch st = Some (r, st') →
  ∃ st1 b st3,
    mix_shutdown st = Some (tt, st1)
    ∧ mix_config_build
        (mkState (set_format (mix st1) (s32 cr) (s32 ch)) (world st1) (trace st1))
      = Some (b, st3)
    ∧ match b with
      | inr _ => r = 0 ∧ st' = st3
      | inl err =>
          r = -1
          ∧ ∃ st4, mix_shutdown st3 = Some (tt, st4)
              ∧ st' = mkState (mix st4) (world st4)
                        (Logged LOG_ERR "Failed to initialize mixer: %s" err
                         :: trace st4)
      end.
Proof.
  unfold mix_config_format_mismatch.
  intros ([] & st1 & Hs1 & Hrun)%run_bind.
  apply run_bind in Hrun as ([] & st2 & Hm2 & Hrun).
  unfold modify_mix in Hm2. injection Hm2 as Hm2. subst st2.
  apply run_bind in Hrun as (b & st3 & Hbuild & Hrun).
  exists st1, b, st3. split_and!; [done | done |].
  destruct b as [err|[]].
  - apply run_bind in Hrun as ([] & st4 & Hs4 & Hrun).
    apply run_bind in Hrun as ([] & st5 & Hlog & [= <- <-]).
    unfold ilog, emit in Hlog. injection Hlog as Hlog. subst st5.
    split; [done |]. by exists st4.
  - by injection Hrun as <- <-.
Qed.

Lemma mix_config_mismatch cr ch (st st' : state W) r :
  mix_config cr ch st = Some (r, st') →
  u32 (clockrate (mix st)) ≠ cr ∨ u32 (channels (mix st)) ≠ ch →
  mix_config_format_mismatch cr ch st = Some (r, st').
Proof.
  unfold mix_config. intros (m & st0 & [= <- <-] & Hrun)%run_bind Hne.
  destruct (Z.eqb_spec (u32 (clockrate (mix st))) cr); simpl in Hrun; [| done].
  destruct (Z.eqb_spec (u32 (channels (mix st))) ch); simpl in Hrun; [| done].
  by destruct Hne.
Qed.

Lemma mix_config_nonzero cr ch (st st' : state W) r :
  mix_config cr ch st = Some (r, st') → r ≠ 0 →
  mix_config_format_mismatch cr ch st = Some (r, st').
Proof.
  unfold mix_config. intros (m & st0 & [= <- <-] & Hrun)%run_bind Hr.
  destruct (negb _); [done |]. destruct (negb _); [done |].
  injection Hrun as <- <-. done.
Qed.

Lemma built_mono m ev ev' : ev ⊆ ev' → built m ev → built m ev'.
Proof.
  intros Hsub (Hg & Hin & (r & ? & ?) & (r' & ? & ?)).
  split_and!; [done | | exists r; auto | exists r'; auto].
  intros i Hi. destruct (Hin i Hi) as (flt & r1 & r2 & ? & ? & ? & ? & ?).
  exists flt, r1, r2. split_and!; auto.
Qed.

End Config.

Section ConfigMore.
Context {W : Type} `{!Extern W}.

Lemma mix_config_failed cr ch (st st' : state W) r :
  mix_wf (mix st) →
  mix_config cr ch st = Some (r, st') → r ≠ 0 →
  r = -1
  ∧ mix st' = set_format (shut (mix st)) (s32 cr) (s32 ch)
  ∧ ∃ err tr,
      trace st' = Logged LOG_ERR "Failed to initialize mixer: %s" err :: tr.
Proof.
  intros Hwf Hrun Hr.
  apply mix_config_nonzero in Hrun; [| done].
  apply mix_config_format_mismatch_run in Hrun as (st1 & b & st3 & Hs1 & Hb & Hres).
  destruct b as [err|u]; [| by destruct Hres].
  destruct Hres as (-> & st4 & Hs4 & ->).
  apply mix_shutdown_run in Hs1 as (E1 & _); [| apply Hwf].
  pose proof (mix_config_build_shut _ _ _ Hb) as Eshut.
  pose proof (mix_config_build_length _ _ _ Hb) as Elen.
  simpl in Eshut, Elen.
  apply mix_shutdown_run in Hs4 as (E4 & _).
  2:{ rewrite Elen, E1. done. }
  split_and!; [done | | by eexists _, _].
  simpl. rewrite E4, Eshut, E1. done.
Qed.

Lemma mix_destroy_run (st st' : state W) :
  length (src_ctxs (mix st)) = NUM_INPUTS →
  mix_destroy st = Some (tt, st') →
  mix st' = shut (mix st)
  ∧ ∃ ev r1 r2,
      trace st'
      = Freed (silence_frame (mix st)) :: Freed (swr_frame (mix st))
        :: Freed (Some (sink_frame (mix st)))
        :: Called (avfilter_graph_free (graph (mix st))) r2
        :: Called (avresample_free (avresample (mix st))) r1 :: ev ++ trace st
      ∧ filters_freed ev
        = filter (λ p, p ≠ NULL)
            (amix_ctx (mix st) :: sink_ctx (mix st) :: src_ctxs (mix st))
      ∧ frames_freed ev = [].
Proof.
  intros Hlen. unfold mix_destroy, av_frame_free, emit.
  intros ([] & st1 & Hs & Hrun)%run_bind.
  apply run_bind in Hrun as (m & st2 & [= <- <-] & Hrun).
  apply run_bind in Hrun as ([] & st3 & [= <-] & Hrun).
  apply run_bind in Hrun as ([] & st4 & [= <-] & Hrun).
  injection Hrun as <-.
  apply mix_shutdown_run in Hs as (E & ev & r1 & r2 & Et & F & G); [| done].
  simpl. split; [done |]. exists ev, r1, r2. rewrite E, Et. done.
Qed.

End ConfigMore.

(** ** The loop that drains the sink *)

Section Drain.
Context {W : Type} `{!Extern W}.

Lemma resample_drain_event e : resample_event e → drain_event e.
Proof. destruct e as [[] ?| |]; simpl; try done. intros [-> ->]. auto. Qed.

Lemma resample_pulled_event e : resample_event e → pulled_event e.
Proof. destruct e as [[] ?| |]; simpl; done. Qed.

Lemma pulled_drain_event e : pulled_event e → drain_event e.
Proof. destruct e as [[] ?| |]; simpl; try done. intros [-> ->]. auto. Qed.

Lemma mix_add_err_emits frame err :
  emits (W:=W) drain_event (mix_add_err frame err).
Proof. unfold mix_add_err, ilog, av_frame_free. repeat emits_step. Qed.

Lemma mix_add_pull_emits frame : emits drain_event (mix_add_pull frame).
Proof.
  unfold mix_add_pull.
  repeat first
    [ apply (emits_weaken _ _ _ resample_drain_event), mix_resample_frame_emits
    | apply mix_add_err_emits
    | emits_step ].
Qed.

Lemma mix_add_drain_emits fuel frame : emits drain_event (mix_add_drain fuel frame).
Proof.
  revert frame. induction fuel as [|fuel IH]; intros frame; simpl.
  - apply emits_out_of_fuel.
  - repeat first [ apply mix_add_pull_emits | apply IH | emits_step ].
Qed.

(** A turn of the loop that goes round again. *)
Lemma mix_add_pull_again frame (st st' : state W) fr :
  mix_add_pull frame st = Some (inr fr, st') →
  sink_ctx (mix st') = sink_ctx (mix st)
  ∧ ∃ ev r, trace st' = Called (output_add fr) r :: ev ++ trace st
      ∧ rc r = 0 ∧ Forall pulled_event ev.
Proof.
  intros Hrun. split.
  { refine (inv_eq sink_ctx _ _ _ _ _ Hrun). intros v.
    apply mix_add_pull_inv; by intros ? ? <-. }
  rewrite mix_add_pull_run in Hrun. cbv zeta in Hrun.
  destruct (respond (world st) _) as [r w] eqn:Er. simpl in Hrun.
  destruct (rc r <? 0) eqn:Elt.
  { destruct (rc r =? AVERROR_EAGAIN); done. }
  apply Z.ltb_ge in Elt.
  destruct (mix_resample_frame _ _) as [[fr' st2]|] eqn:Hres; [| done].
  destruct (mix_resample_frame_emits _ _ _ _ Hres) as (ev & Et & Hev).
  destruct (respond (world st2) _) as [r2 w2] eqn:Er2. simpl in Hrun.
  destruct (Z.eqb_spec (rc r2) 0) as [E0|E0]; simpl in Hrun; [| done].
  injection Hrun as <- <-. simpl in *.
  eexists (ev ++ [_]), r2. split_and!; [| done |].
  - rewrite Et, <-(assoc_L (++)). done.
  - apply Forall_app. split.
    + eapply Forall_impl; [exact Hev | apply resample_pulled_event].
    + by repeat constructor.
Qed.

(** What [k] accepted turns have done. *)
Lemma pulled_run (st st' : state W) frame k frame' :
  pulled st frame k st' frame' →
  sink_ctx (mix st') = sink_ctx (mix st)
  ∧ (∃ ev, trace st' = ev ++ trace st ∧ Forall pulled_event ev)
  ∧ match k with
    | O => frame' = frame ∧ st' = st
    | S _ => ∃ r tr, trace st' = Called (output_add frame') r :: tr
    end.
Proof.
  induction 1 as [st frame|st frame st1 frame1 k st2 frame2 Hp Hk IH].
  - split_and!; try done. by exists [].
  - apply mix_add_pull_again in Hp as (Es & ev & r & Et & Hr & Hev).
    destruct IH as (Es' & (ev' & Et' & Hev') & Hlast).
    split_and!.
    + by rewrite Es', Es.
    + exists (ev' ++ Called (output_add frame1) r :: ev). split.
      * rewrite Et', Et, <-(assoc_L (++)). done.
      * apply Forall_app. split; [done |]. by constructor.
    + destruct k as [|k].
      * destruct Hlast as [-> ->]. by eexists _, _.
      * done.
Qed.

(** A loop that returns has made some accepted turns and a last one. *)
Lemma mix_add_drain_run fuel frame (st st' : state W) ret :
  mix_add_drain fuel frame st = Some (ret, st') →
  ∃ k stk framek,
    (k < fuel)%nat ∧ pulled st frame k stk framek
    ∧ mix_add_pull framek stk = Some (inl ret, st').
Proof.
  revert frame st. induction fuel as [|fuel IH]; intros frame st; simpl; [done |].
  intros ([code|fr] & st1 & Hp & Hrun)%run_bind.
  - injection Hrun as <- <-. exists 0%nat, st, frame.
    split_and!; [lia | constructor | done].
  - apply IH in Hrun as (k & stk & framek & Hk & Hpulled & Hlast).
    exists (S k), stk, framek. split_and!; [lia | | done].
    econstructor; eauto.
Qed.

(** The last turn of the loop. *)
Lemma mix_add_pull_last frame (st st' : state W) ret :
  mix_add_pull frame st = Some (inl ret, st') →
  ∃ r w,
    respond (world st) (av_buffersink_get_frame (sink_ctx (mix st))) = (r, w)
    ∧ ((rc r = AVERROR_EAGAIN ∧ ret = 0
        ∧ st' = mkState (mix st) w
                  (Called (av_buffersink_get_frame (sink_ctx (mix st))) r
                   :: trace st))
       ∨ (rc r < 0 ∧ rc r ≠ AVERROR_EAGAIN ∧ ret = -1
          ∧ st' = add_failed frame "failed to get frame from mixer"
                    (mkState (mix st) w
                       (Called (av_buffersink_get_frame (sink_ctx (mix st))) r
                        :: trace st)))
       ∨ (0 ≤ rc r ∧ ret = -1
          ∧ ∃ fr r' ev,
              trace st'
              = Called (output_add fr) r' :: ev
                ++ Called (av_buffersink_get_frame (sink_ctx (mix st))) r
                :: trace st
              ∧ rc r' ≠ 0 ∧ Forall resample_event ev)).
Proof.
  intros Hrun.
  rewrite mix_add_pull_run in Hrun. cbv zeta in Hrun.
  destruct (respond (world st) _) as [r w] eqn:Er. simpl in Hrun.
  exists r, w. split; [done |].
  destruct (rc r <? 0) eqn:Elt.
  - apply Z.ltb_lt in Elt.
    destruct (Z.eqb_spec (rc r) AVERROR_EAGAIN) as [E|E].
    + injection Hrun as <- <-. by left.
    + injection Hrun as <- <-. right. left. done.
  - apply Z.ltb_ge in Elt. right. right.
    destruct (mix_resample_frame _ _) as [[fr' st2]|] eqn:Hres; [| done].
    destruct (mix_resample_frame_emits _ _ _ _ Hres) as (ev & Et & Hev).
    destruct (respond (world st2) _) as [r2 w2] eqn:Er2. simpl in Hrun.
    destruct (Z.eqb_spec (rc r2) 0) as [E0|E0]; simpl in Hrun; [done |].
    injection Hrun as <- <-. simpl in *.
    split_and!; [done | done |].
    exists fr', r2, ev. rewrite Et. done.
Qed.

End Drain.

(** ** Submitting a frame *)

Section Submit.
Context {W : Type} `{!Extern W}.

Lemma offset_resolved_src frame idx m :
  src_ctxs (offset_resolved frame idx m) = src_ctxs m.
Proof. unfold offset_resolved. by destruct (_ =? _). Qed.

(** [mix_add] on an input that exists, up to the loop that drains the
    sink. *)
Lemma mix_add_submit_cases fuel frame idx (st st0 : state W) o :
  (idx < NUM_INPUTS)%nat → src_ctxs (mix st) !!! idx ≠ NULL →
  mix_add_submit fuel frame idx st = Some (o, st0) →
  let m1 := offset_resolved frame idx (mix st) in
  let fr := frame_adjusted frame idx m1 in
  let c := av_buffersrc_add_frame (src_ctxs (mix st) !!! idx) fr in
  ∃ st1 r w,
    mix_silence_fill_idx_upto fuel idx (u64 (pts fr))
      (mkState m1 (world st) (trace st)) = Some (tt, st1)
    ∧ respond (world st1) c = (r, w)
    ∧ if rc r =? 0
      then o = None
           ∧ mix_silence_fill fuel
               (mkState
                  (counters_updated (u64 (pts fr + nb_samples fr)) idx (mix st1))
                  w (Freed (Some fr) :: Called c r :: trace st1))
             = Some (tt, st0)
      else o = Some (-1)
           ∧ st0 = add_failed (Some fr) "failed to add frame to mixer"
                     (mkState (mix st1) w (Called c r :: trace st1)).
Proof.
  intros Hidx Hsrc Hsub m1 fr c. subst c.
  rewrite mix_add_submit_run in Hsub.
  destruct (NUM_INPUTS <=? idx)%nat eqn:E; [apply Nat.leb_le in E; lia |].
  apply Z.eqb_neq in Hsrc. rewrite Hsrc in Hsub. cbv zeta in Hsub.
  fold m1 in Hsub. fold fr in Hsub.
  destruct (mix_silence_fill_idx_upto _ _ _ _) as [[[] st1]|] eqn:Hfill; [| done].
  pose proof Hfill as Hspec.
  apply mix_silence_fill_idx_upto_spec in Hspec as ((_ & _ & _ & Es & _) & _).
  cbn [mix] in Es. unfold m1 in Es. rewrite offset_resolved_src in Es.
  rewrite Es in Hsub.
  destruct (respond (world st1) _) as [r w] eqn:Er. simpl in Hsub.
  exists st1, r, w. split_and!; [done | done |].
  destruct (rc r =? 0); simpl in Hsub.
  - destruct (mix_silence_fill _ _) as [[[] st3]|] eqn:Hsf; [| done].
    by injection Hsub as <- <-.
  - by injection Hsub as <- <-.
Qed.

Lemma mix_silence_fill_advanced fuel (st st' : state W) :
  mix_silence_fill fuel st = Some (tt, st') → advanced (mix st) (mix st').
Proof.
  unfold mix_silence_fill. intros (m & st0 & [= <- <-] & Hrun)%run_bind.
  destruct (_ <? _).
  - injection Hrun as <-. apply advanced_refl.
  - by apply mix_silence_fill_each in Hrun as [? _].
Qed.

Lemma no_frames_added (Q : event → Prop) ev :
  (∀ e, Q e → match e with
              | Called (av_buffersrc_add_frame _ _) _ => False
              | _ => True
              end) →
  Forall Q ev → frames_added ev = [].
Proof.
  intros HQ. unfold frames_added. intros Hev%Forall_reverse.
  induction Hev as [|e l He _ IH]; [done |].
  apply HQ in He. destruct e as [[] ?| |]; first [done | exact IH].
Qed.

Lemma silence_not_added e :
  silence_event e →
  match e with Called (av_buffersrc_add_frame _ _) _ => False | _ => True end.
Proof. by destruct e as [[] ?| |]. Qed.

Lemma drain_not_added e :
  drain_event e →
  match e with Called (av_buffersrc_add_frame _ _) _ => False | _ => True end.
Proof. by destruct e as [[] ?| |]. Qed.

(** The whole of a call of [mix_add] on an input that exists: the events
    of the gap fill, the submission, and what follows it. *)
Lemma mix_add_run fuel frame idx (st st' : state W) ret :
  (idx < NUM_INPUTS)%nat → src_ctxs (mix st) !!! idx ≠ NULL →
  mix_add fuel frame idx st = Some (ret, st') →
  let m1 := offset_resolved frame idx (mix st) in
  let fr := frame_adjusted frame idx m1 in
  let c := av_buffersrc_add_frame (src_ctxs (mix st) !!! idx) fr in
  ∃ (st1 : state W) r ev1,
    trace st1 = ev1 ++ trace st ∧ Forall silence_event ev1
    ∧ advanced m1 (mix st1)
    ∧ ((rc r ≠ 0 ∧ ret = -1
        ∧ mix st' = mix st1
        ∧ trace st'
          = Freed (Some fr)
            :: Logged LOG_ERR "Failed to add frame to mixer: %s"
                 "failed to add frame to mixer"
            :: Called c r :: trace st1)
       ∨ (rc r = 0
          ∧ ∃ (st0 : state W) ev2 ev3,
              advanced (counters_updated (u64 (pts fr + nb_samples fr)) idx (mix st1))
                (mix st0)
              ∧ mix_add_drain fuel None st0 = Some (ret, st')
              ∧ trace st0 = ev2 ++ Freed (Some fr) :: Called c r :: trace st1
              ∧ Forall silence_event ev2
              ∧ trace st' = ev3 ++ trace st0 ∧ Forall drain_event ev3)).
Proof.
  intros Hidx Hsrc Hrun m1 fr c.
  unfold mix_add in Hrun. apply run_bind in Hrun as (o & st0 & Hsub & Hrun).
  apply mix_add_submit_cases in Hsub as (st1 & r & w & Hfill & Er & Hcase);
    [| done | done].
  fold m1 fr c in Hfill, Er, Hcase.
  destruct (mix_silence_fill_idx_upto_emits _ _ _ _ _ _ Hfill) as (ev1 & Et1 & Hev1).
  pose proof Hfill as Hspec.
  apply mix_silence_fill_idx_upto_spec in Hspec as (Hadv & _).
  cbn [mix trace] in *.
  exists st1, r, ev1. split_and!; [done | done | done |].
  destruct (Z.eqb_spec (rc r) 0) as [E0|E0].
  - right. split; [done |]. destruct Hcase as [-> Hsf].
    destruct (mix_silence_fill_emits _ _ _ _ Hsf) as (ev2 & Et2 & Hev2).
    destruct (mix_add_drain_emits _ _ _ _ _ Hrun) as (ev3 & Et3 & Hev3).
    pose proof Hsf as Hspec2.
    apply mix_silence_fill_advanced in Hspec2 as Hadv2.
    exists st0, ev2, ev3. cbn [mix trace] in *. split_and!; done.
  - left. destruct Hcase as [-> ->]. injection Hrun as <- <-.
    split_and!; done.
Qed.

End Submit.

Section Events.
Context {W : Type} `{!Extern W}.

Lemma index_rejected_spec idx m :
  index_rejected idx m = true ↔ (NUM_INPUTS ≤ idx)%nat ∨ src_ctxs m !!! idx = NULL.
Proof.
  unfold index_rejected. rewrite orb_true_iff, Nat.leb_le, Z.eqb_eq. done.
Qed.

Lemma index_accepted_spec idx m :
  index_rejected idx m = false ↔ (idx < NUM_INPUTS)%nat ∧ src_ctxs m !!! idx ≠ NULL.
Proof.
  unfold index_rejected. rewrite orb_false_iff, Nat.leb_gt, Z.eqb_neq. done.
Qed.

Lemma mix_add_rejected_run fuel frame idx (st st' : state W) ret :
  index_rejected idx (mix st) = true →
  mix_add fuel frame idx st = Some (ret, st') →
  ret = -1 ∧ mix st' = mix st ∧ world st' = world st
  ∧ ∃ err, trace st'
           = Freed (Some frame)
             :: Logged LOG_ERR "Failed to add frame to mixer: %s" err :: trace st.
Proof.
  intros Hrej%index_rejected_spec Hrun.
  destruct (mix_add_rejected fuel frame idx st Hrej) as [err E].
  rewrite E in Hrun. injection Hrun as <- <-. split_and!; try done. by exists err.
Qed.

(** The events of a call of [mix_add] on an input that exists: the gap
    fill, the one submission, and what follows. *)
Lemma mix_add_events fuel frame idx (st st' : state W) ret :
  index_rejected idx (mix st) = false →
  mix_add fuel frame idx st = Some (ret, st') →
  let fr := frame_submitted frame idx (mix st) in
  let c := av_buffersrc_add_frame (src_ctxs (mix st) !!! idx) fr in
  ∃ r ev1 ev2,
    new_events st st' = ev2 ++ Called c r :: ev1
    ∧ Forall silence_event ev1
    ∧ Freed (Some fr) ∈ ev2
    ∧ if rc r =? 0
      then Forall (λ e, silence_event e ∨ drain_event e) ev2
      else ret = -1
           ∧ out_pts (mix st') = out_pts (mix st)
           ∧ ev2 = [Freed (Some fr);
                    Logged LOG_ERR "Failed to add frame to mixer: %s"
                      "failed to add frame to mixer"].
Proof.
  intros (Hidx & Hsrc)%index_accepted_spec Hrun fr c.
  apply mix_add_run in Hrun
    as (st1 & r & ev1 & Et1 & Hev1 & Hadv & Hcase); [| done | done].
  fold (frame_submitted frame idx (mix st)) in Hcase. fold fr c in Hcase.
  exists r, ev1.
  destruct Hcase
    as [(Hr & -> & Em & Et)
       |(Hr & st0 & ev2 & ev3 & Hadv2 & Hd & Et0 & Hev2 & Et & Hev3)].
  - eexists [_; _]. apply Z.eqb_neq in Hr. rewrite Hr. split_and!; try done.
    + apply new_events_app. rewrite Et, Et1. done.
    + left.
    + rewrite Em. destruct Hadv as (-> & _). unfold offset_resolved.
      by destruct (pts_offs (mix st) !!! idx =? PTS_UNSET).
  - exists (ev3 ++ ev2 ++ [Freed (Some fr)]). rewrite Hr. simpl.
    split_and!; try done.
    + apply new_events_app. rewrite Et, Et0, Et1, <-!(assoc_L (++)). done.
    + apply elem_of_app. right. apply elem_of_app. right. left.
    + apply Forall_app. split.
      { eapply Forall_impl; [exact Hev3 |]. by right. }
      apply Forall_app. split.
      { eapply Forall_impl; [exact Hev2 |]. by left. }
      constructor; [by right | constructor].
Qed.

End Events.

Section Add.
Context {W : Type} `{!Extern W}.

Lemma frames_added_cons ctx f r ev :
  frames_added (Called (av_buffersrc_add_frame ctx f) r :: ev)
  = frames_added ev ++ [(ctx, f)].
Proof.
  change (Called (av_buffersrc_add_frame ctx f) r :: ev)
    with ([Called (av_buffersrc_add_frame ctx f) r] ++ ev).
  by rewrite frames_added_app.
Qed.

Lemma mix_add_added fuel frame idx (st st' : state W) ret :
  mix_add fuel frame idx st = Some (ret, st') →
  frames_added (new_events st st')
  = if index_rejected idx (mix st) then []
    else [(src_ctxs (mix st) !!! idx, frame_submitted frame idx (mix st))].
Proof.
  intros Hrun. destruct (index_rejected idx (mix st)) eqn:Hrej.
  - apply mix_add_rejected_run in Hrun as (_ & _ & _ & err & Et); [| done].
    by rewrite (new_events_app st st' [_; _] Et).
  - apply mix_add_events in Hrun as (r & ev1 & ev2 & -> & Hev1 & _ & Hcase);
      [| done].
    rewrite frames_added_app, frames_added_cons.
    rewrite (no_frames_added _ _ silence_not_added Hev1).
    destruct (rc r =? 0).
    + rewrite (no_frames_added _ ev2 (λ e He, or_ind (silence_not_added e)
                                                (drain_not_added e) He) Hcase).
      done.
    + by destruct Hcase as (_ & _ & ->).
Qed.

Lemma added_ok_inv ctx f r ev1 ev2 :
  added_ok (ev2 ++ Called (av_buffersrc_add_frame ctx f) r :: ev1) → rc r = 0.
Proof. intros H. apply (H ctx f r). apply elem_of_app. right. left. Qed.

Lemma silence_no_topology e : silence_event e → no_topology e.
Proof. by destruct e as [[] ?| |]. Qed.

Lemma drain_no_topology e : drain_event e → no_topology e.
Proof. by destruct e as [[] ?| |]. Qed.

Lemma mix_add_emits fuel frame idx :
  emits (W:=W) no_topology (mix_add fuel frame idx).
Proof.
  unfold mix_add, mix_add_submit, mix_add_err, ilog, av_frame_free.
  repeat first
    [ apply (emits_weaken _ _ _ silence_no_topology),
        mix_silence_fill_idx_upto_emits
    | apply (emits_weaken _ _ _ silence_no_topology), mix_silence_fill_emits
    | apply (emits_weaken _ _ _ drain_no_topology), mix_add_drain_emits
    | emits_step ].
Qed.

Lemma mix_add_keeps fuel frame idx (st st' : state W) ret :
  mix_add fuel frame idx st = Some (ret, st') →
  graph (mix st') = graph (mix st)
  ∧ amix_ctx (mix st') = amix_ctx (mix st)
  ∧ sink_ctx (mix st') = sink_ctx (mix st)
  ∧ src_ctxs (mix st') = src_ctxs (mix st)
  ∧ clockrate (mix st') = clockrate (mix st)
  ∧ channels (mix st') = channels (mix st)
  ∧ next_idx (mix st') = next_idx (mix st)
  ∧ Forall no_topology (new_events st st').
Proof.
  intros Hrun.
  assert (∀ {B} (f : mix_s → B),
            (∀ m v, f (set_silence_frame m v) = f m) →
            (∀ m v, f (set_in_pts m v) = f m) →
            (∀ m v, f (set_pts_offs m v) = f m) →
            (∀ m v, f (set_out_pts m v) = f m) →
            (∀ m v, f (set_sink_frame m v) = f m) →
            (∀ m v, f (set_avresample m v) = f m) →
            (∀ m v, f (set_swr_frame m v) = f m) →
            (∀ m v, f (set_swr_buffers m v) = f m) →
            f (mix st') = f (mix st)) as Hsame.
  { intros B f H1 H2 H3 H4 H5 H6 H7 H8.
    refine (inv_eq f _ _ _ _ _ Hrun). intros v.
    apply mix_add_inv; intros; subst; auto. }
  split_and!; try (apply Hsame; by intros []).
  eapply emits_new_events; [apply mix_add_emits | exact Hrun].
Qed.

(** A loop that returns 0 ended on [EAGAIN], every frame before it taken
    by the output. *)
Lemma mix_add_drain_done fuel frame (st st' : state W) :
  mix_add_drain fuel frame st = Some (0, st') →
  ∃ r ev,
    trace st'
    = Called (av_buffersink_get_frame (sink_ctx (mix st))) r :: ev ++ trace st
    ∧ rc r = AVERROR_EAGAIN ∧ Forall pulled_event ev.
Proof.
  intros Hrun.
  apply mix_add_drain_run in Hrun as (k & stk & framek & Hk & Hp & Hlast).
  apply pulled_run in Hp as (Es & (ev & Et & Hev) & _).
  apply mix_add_pull_last in Hlast as (r & w & Er & Hcase).
  destruct Hcase as [(Hr & _ & ->)|[(_ & _ & ? & _)|(_ & ? & _)]]; [| done | done].
  exists r, ev. simpl. rewrite Es, Et. done.
Qed.

Lemma mix_add_drain_failed fuel frame (st st' : state W) ret :
  mix_add_drain fuel frame st = Some (ret, st') →
  ret = 0
  ∨ (ret = -1
     ∧ ((∃ f tr,
           trace st'
           = Freed f
             :: Logged LOG_ERR "Failed to add frame to mixer: %s"
                  "failed to get frame from mixer" :: tr)
        ∨ (∃ f r tr, trace st' = Called (output_add f) r :: tr ∧ rc r ≠ 0))).
Proof.
  intros Hrun.
  apply mix_add_drain_run in Hrun as (k & stk & framek & Hk & Hp & Hlast).
  apply mix_add_pull_last in Hlast as (r & w & Er & Hcase).
  destruct Hcase
    as [(_ & -> & _)
       |[(_ & _ & -> & ->)|(_ & -> & fr & r' & ev & Et & Hr' & _)]].
  - by left.
  - right. split; [done |]. left. by eexists _, _.
  - right. split; [done |]. right. by eexists _, _, _.
Qed.

End Add.

(** ** Silence, once more *)

Section Silence.
Context {W : Type} `{!Extern W}.

(** *** The silence frame, once made *)

Lemma same_make_refl f : same_make f f.
Proof. done. Qed.

Lemma mix_silence_loop_like sf fuel s idx upto :
  inv (W:=W) (silence_frame_like sf) (mix_silence_loop fuel s idx upto).
Proof.
  induction fuel as [|fuel IH]; intros st [] st' Hrun Hlike.
  - rewrite mix_silence_loop_0 in Hrun. destruct (_ <? _); [done |].
    by injection Hrun as <-.
  - rewrite mix_silence_loop_S in Hrun. destruct (_ <? _); [| by injection Hrun as <-].
    rewrite mix_silence_frame_run in Hrun.
    destruct Hlike as (sf0 & E0 & H0). rewrite E0 in Hrun.
    eapply IH; [exact Hrun |].
    unfold silence_step. simpl. eexists. split; [done |].
    destruct H0 as (? & ? & ?). split_and!; done.
Qed.

Lemma mix_silence_fill_idx_upto_like sf fuel idx upto :
  inv (W:=W) (silence_frame_like sf) (mix_silence_fill_idx_upto fuel idx upto).
Proof.
  unfold mix_silence_fill_idx_upto.
  repeat first [ apply mix_silence_loop_like | inv_step ].
Qed.

Lemma mix_silence_fill_like sf fuel :
  inv (W:=W) (silence_frame_like sf) (mix_silence_fill fuel).
Proof.
  unfold mix_silence_fill.
  repeat first [ apply mix_silence_fill_idx_upto_like | inv_step ].
Qed.

Lemma run_op_like sf fuel o : inv (W:=W) (silence_frame_like sf) (run_op fuel o).
Proof.
  destruct o as [cr ch| |frame idx]; simpl.
  - apply mix_config_inv; intros; done.
  - repeat first [ apply mix_get_index_inv; intros; done | inv_step ].
  - unfold mix_add, mix_add_submit.
    repeat first
      [ apply mix_silence_fill_idx_upto_like
      | apply mix_silence_fill_like
      | apply mix_add_err_inv
      | apply mix_add_drain_inv; intros; done
      | apply inv_modify; intros; done
      | inv_step ].
Qed.

Lemma run_ops_like sf fuel l : inv (W:=W) (silence_frame_like sf) (run_ops fuel l).
Proof.
  induction l as [|o l IH]; simpl.
  - apply inv_ret.
  - repeat first [ apply run_op_like | apply IH | inv_step ].
Qed.

(** *** The pass over all inputs *)

Lemma mix_silence_fill_each_max fuel l (st st' : state W) :
  for_each l (λ i, m <- get_mix ;;
                   mix_silence_fill_idx_upto fuel i
                     (u64 (out_pts m - u64 (clockrate m)))) st = Some (tt, st') →
  mix_wf (mix st) → 0 ≤ clockrate (mix st) →
  (∀ i, i ∈ l → (i < NUM_INPUTS)%nat) →
  ∀ j, (j < NUM_INPUTS)%nat →
    in_pts (mix st') !!! j
    ≤ Z.max (in_pts (mix st) !!! j)
        (u64 (out_pts (mix st) - u64 (clockrate (mix st)))).
Proof.
  revert st. induction l as [|i l IH]; intros st; simpl.
  - intros [= <-]. lia.
  - intros (u & st1 & H1 & H2)%run_bind Hwf Hcr Hl j Hj. destruct u.
    unfold bind at 1, get_mix in H1. simpl in H1.
    pose proof (mix_silence_fill_idx_upto_spec _ _ _ _ _ H1)
      as ((Eo & Ec & _) & Hother & _).
    etrans.
    { eapply (IH st1); [done | | | | done].
      + eapply (mix_silence_fill_idx_upto_inv mix_wf); [| | exact H1 | done]; wf_setter.
      + by rewrite Ec.
      + intros i' Hi'. apply Hl. by right. }
    rewrite Eo, Ec.
    destruct (decide (j = i)) as [->|Hne].
    + assert (in_pts (mix st1) !!! i
              ≤ Z.max (in_pts (mix st) !!! i)
                  (u64 (out_pts (mix st) - u64 (clockrate (mix st))))); [| lia].
      eapply mix_silence_fill_idx_upto_capped; try done.
      * apply u64_range.
      * lia.
      * lia.
    + rewrite Hother by done. lia.
Qed.

End Silence.

(** ** The messages of an error, and the resampler *)

Section Fails.
Context {W : Type} `{!Extern W} (L : list string).

Lemma fails_lift {A} (c : M W A) : fails_in L (lift c).
Proof. intros st e st' (a & st1 & _ & [=])%run_bind. Qed.

Lemma fails_goto_err_if b msg : msg ∈ L → fails_in (W:=W) L (goto_err_if b msg).
Proof. intros Hm st e st'. unfold goto_err_if, ret. by destruct b; intros [= <- <-]. Qed.

Lemma fails_ret_inr {A} (a : A) : fails_in (W:=W) L (ret (inr a)).
Proof. by intros st e st' [=]. Qed.

Lemma fails_ret_inl {A} msg : msg ∈ L → fails_in (W:=W) (A:=A) L (ret (inl msg)).
Proof. by intros Hm st e st' [= <- <-]. Qed.

Lemma fails_ebind {A C} (c : M W (string + A)) (k : A → M W (string + C)) :
  fails_in L c → (∀ a, fails_in L (k a)) → fails_in L (x <-? c ;; k x).
Proof.
  intros Hc Hk st e st' ([e'|a] & st1 & H1 & H2)%run_bind.
  - injection H2 as <- <-. by eapply Hc.
  - by eapply Hk.
Qed.

End Fails.

Ltac fails_step :=
  first
    [ apply fails_lift
    | apply fails_goto_err_if; solve [repeat constructor]
    | apply fails_ret_inr
    | apply fails_ret_inl; solve [repeat constructor]
    | apply fails_ebind; [| intros ?]
    | match goal with
      | |- fails_in _ (if ?b then _ else _) => destruct b
      | |- fails_in _ (match ?x with _ => _ end) => destruct x
      end ].

Section Resample.
Context {W : Type} `{!Extern W}.

Lemma mix_resample_convert_fails frame :
  fails_in (W:=W) resample_errors (mix_resample_convert frame).
Proof.
  unfold mix_resample_convert, mix_resample_open, mix_resample_grow,
    resample_errors.
  repeat fails_step.
Qed.

Lemma mix_config_inputs_fails l flt :
  fails_in (W:=W) config_errors (mix_config_inputs l flt).
Proof.
  induction l as [|i l IH]; simpl; unfold config_errors; repeat fails_step.
  exact IH.
Qed.

Lemma mix_config_build_fails : fails_in (W:=W) config_errors mix_config_build.
Proof.
  unfold mix_config_build.
  repeat first [ apply mix_config_inputs_fails
               | unfold config_errors; fails_step ].
Qed.

Lemma mix_resample_open_ok frame (st st1 : state W) u :
  mix_resample_open frame st = Some (inr u, st1) →
  avresample (mix st1) ≠ NULL
  ∧ clockrate (mix st1) = clockrate (mix st)
  ∧ swr_frame (mix st1) = swr_frame (mix st)
  ∧ swr_buffers (mix st1) = swr_buffers (mix st)
  ∧ (avresample (mix st) ≠ NULL → st1 = st).
Proof.
  unfold mix_resample_open. intros Hrun. run_step Hrun.
  destruct (Z.eqb_spec (avresample (mix st)) NULL) as [E|E].
  - run_step Hrun. run_step Hrun. run_goto Hrun Hh.
    do 7 run_step Hrun.
    apply (proj1 (run_goto_err_if _ _ _ _ _)) in Hrun as [_ ->].
    apply Z.eqb_neq in Hh. simpl. split_and!; done.
  - injection Hrun as <- <-. split_and!; done.
Qed.

Lemma mix_resample_grow_ok frame dst (st st1 : state W) sf :
  mix_resample_grow frame dst st = Some (inr sf, st1) →
  swr_buffers (mix st1) = dst
  ∧ avresample (mix st1) = avresample (mix st)
  ∧ clockrate (mix st1) = clockrate (mix st).
Proof.
  unfold mix_resample_grow. intros Hrun.
  run_step Hrun. run_step Hrun. run_step Hrun.
  match type of Hrun with
  | (if ?b then _ else _) _ = _ => destruct b
  end.
  { run_step Hrun. done. }
  run_step Hrun. run_step Hrun. run_goto Hrun Hb. run_step Hrun.
  injection Hrun as <- <-. done.
Qed.

End Resample.

(** ** What a configuration makes, it keeps or frees *)

Ltac prefix_of l tr :=
  lazymatch l with
  | tr => constr:(@nil event)
  | ?e :: ?l' => let p := prefix_of l' tr in constr:(e :: p)
  end.

Section Leaks.
Context {W : Type} `{!Extern W}.

(** Whatever way a build ends, the session holds the graph and every
    filter context the build has made. *)
Lemma mix_config_build_holds (st st3 : state W) b :
  length (src_ctxs (mix st)) = NUM_INPUTS →
  mix_config_build st = Some (b, st3) →
  ∃ ev, trace st3 = ev ++ trace st
    ∧ (∀ flt args g rp,
         Called (avfilter_graph_create_filter flt args g) rp ∈ ev →
         out_ptr rp ∈ contexts (mix st3))
    ∧ (∀ rp, Called avfilter_graph_alloc rp ∈ ev → rc rp = graph (mix st3)).
Proof.
  destruct st as [m w tr].
  destruct m as [cr ch g src offs inp amix sink nidx sfr avr swr swb outp sil].
  simpl. intros Hlen.
  destruct src as [|s0 [|s1 [|s2 [|s3 [|]]]]]; try done. clear Hlen.
  unfold mix_config_build, mix_config_inputs, ebind, lift, bind, ext, get_mix,
    modify_mix, goto_err_if, ret, NUM_INPUTS; simpl.
  repeat
    match goal with
    | |- context [respond ?w0 ?c] => destruct (respond w0 c) as [? ?]; simpl
    | |- context [if ?t then _ else _] => destruct t; simpl
    | |- Some (_, ?s) = Some _ → _ =>
        intros [= <- <-]; simpl;
        match goal with
        | |- ∃ ev, ?l = ev ++ ?t ∧ _ =>
            let p := prefix_of l t in exists p
        end;
        (split; [reflexivity |]); unfold contexts; simpl; split;
        [ intros ? ? ? ? Hin;
          repeat (apply elem_of_cons in Hin as [Hin|Hin];
                  [first [discriminate Hin
                         | injection Hin as _ _ _ <-;
                           solve [repeat constructor]] |]);
          by apply elem_of_nil in Hin
        | intros ? Hin;
          repeat (apply elem_of_cons in Hin as [Hin|Hin];
                  [first [discriminate Hin
                         | by injection Hin as <-] |]);
          by apply elem_of_nil in Hin ]
    end.
Qed.

Lemma mix_config_failed_message cr ch (st st' : state W) r :
  mix_config cr ch st = Some (r, st') → r ≠ 0 →
  ∃ err tr,
    trace st' = Logged LOG_ERR "Failed to initialize mixer: %s" err :: tr
    ∧ err ∈ config_errors.
Proof.
  intros Hrun Hr.
  apply mix_config_nonzero in Hrun; [| done].
  apply mix_config_format_mismatch_run in Hrun as (st1 & b & st3 & Hs1 & Hb & Hres).
  destruct b as [err|u]; [| by destruct Hres].
  destruct Hres as (-> & st4 & Hs4 & ->).
  exists err, (trace st4). split; [done |].
  by eapply mix_config_build_fails.
Qed.

(** [added_okb] decides [added_ok]. *)
Lemma added_okb_spec ev : added_okb ev = true ↔ added_ok ev.
Proof.
  unfold added_okb, added_ok. rewrite forallb_forall. split.
  - intros Hall ctx f r Hin. apply list_elem_of_In in Hin.
    apply Hall in Hin. by apply Z.eqb_eq.
  - intros Hall e Hin. apply list_elem_of_In in Hin.
    destruct e as [[] r| |]; try done. apply Z.eqb_eq. by eapply Hall.
Qed.

End Leaks.

(** ** Sessions without a graph *)

Section Sessions.
Context {W : Type} `{!Extern W}.

(** A build starts by asking for a graph. *)
Lemma mix_config_build_allocs (st st3 : state W) b :
  mix_config_build st = Some (b, st3) →
  ∃ rp ev, trace st3 = ev ++ Called avfilter_graph_alloc rp :: trace st.
Proof.
  unfold mix_config_build. unfold ebind at 1.
  intros (r0 & st1 & H1 & Hrest)%run_bind.
  unfold lift in H1.
  apply run_bind in H1 as (rp & st0 & (w & _ & ->)%run_ext & [= <- <-]).
  match type of Hrest with
  | ?c _ = _ => assert (grows c) as Hg
  end.
  { repeat first [ apply mix_config_inputs_grows | grows_step ]. }
  destruct (Hg _ _ _ Hrest) as [ev Hev]. by exists rp, ev.
Qed.

Lemma shut_shut m : shut (shut m) = shut m.
Proof. done. Qed.

Lemma shut_rejects m idx : shut m = m → index_rejected idx m = true.
Proof.
  intros E. apply index_rejected_spec.
  destruct (decide (NUM_INPUTS ≤ idx)%nat) as [?|Hlt]; [by left |]. right.
  rewrite <-E. unfold shut. simpl. unfold NUM_INPUTS in *.
  destruct idx as [|[|[|[|]]]]; try done. lia.
Qed.

End Sessions.

(** ** Further properties of the mixer, one by one *)

Section Further.
Context {W : Type} `{!Extern W}.

(** X1. [mix_shutdown] takes the topology down and nothing else: the
    session it leaves is the one it found with the graph, the resampler and
    every filter context set to null; [avfilter_free] is called on exactly
    the contexts that were not null, [amix] first, then the sink, then the
    inputs in order, and the resampler and the graph are freed after them. *)
Theorem mix_shutdown_releases (st st' : state W) :
  length (src_ctxs (mix st)) = NUM_INPUTS →
  mix_shutdown st = Some (tt, st') →
  mix st' = shut (mix st)
  ∧ unbuilt (mix st')
  ∧ filters_freed (new_events st st')
    = filter (λ p, p ≠ NULL) (contexts (mix st))
  ∧ ∃ r1 r2 ev,
      new_events st st'
      = Called (avfilter_graph_free (graph (mix st))) r2
        :: Called (avresample_free (avresample (mix st))) r1 :: ev.
Proof.
  intros Hlen Hrun.
  apply mix_shutdown_run in Hrun as (E & ev & r1 & r2 & Et & F & _); [| done].
  assert (new_events st st'
          = [Called (avfilter_graph_free (graph (mix st))) r2;
             Called (avresample_free (avresample (mix st))) r1] ++ ev) as Ene.
  { by apply new_events_app. }
  split_and!.
  - done.
  - rewrite E. apply shut_unbuilt.
  - rewrite Ene, filters_freed_app, F. apply (right_id_L [] (++)).
  - by exists r1, r2, ev.
Qed.

(** X2. [mix_destroy] releases all a session holds: what [mix_shutdown]
    releases, and then the three frames, the sink frame first, then the
    resampling frame and the silence frame, each once. *)
Theorem mix_destroy_releases (st st' : state W) :
  length (src_ctxs (mix st)) = NUM_INPUTS →
  mix_destroy st = Some (tt, st') →
  mix st' = shut (mix st)
  ∧ frames_freed (new_events st st')
    = [Some (sink_frame (mix st)); swr_frame (mix st); silence_frame (mix st)]
  ∧ filters_freed (new_events st st')
    = filter (λ p, p ≠ NULL) (contexts (mix st))
  ∧ ∃ r1 r2 ev,
      new_events st st'
      = Freed (silence_frame (mix st)) :: Freed (swr_frame (mix st))
        :: Freed (Some (sink_frame (mix st)))
        :: Called (avfilter_graph_free (graph (mix st))) r2
        :: Called (avresample_free (avresample (mix st))) r1 :: ev.
Proof.
  intros Hlen Hrun.
  apply mix_destroy_run in Hrun as (E & ev & r1 & r2 & Et & F & G); [| done].
  assert (new_events st st'
          = [Freed (silence_frame (mix st)); Freed (swr_frame (mix st));
             Freed (Some (sink_frame (mix st)));
             Called (avfilter_graph_free (graph (mix st))) r2;
             Called (avresample_free (avresample (mix st))) r1] ++ ev) as Ene.
  { by apply new_events_app. }
  split_and!.
  - done.
  - by rewrite Ene, frames_freed_app, G.
  - rewrite Ene, filters_freed_app, F. apply (right_id_L [] (++)).
  - by exists r1, r2, ev.
Qed.

(** X3. [mix_get_index] hands out consecutive numbers: from a session
    whose counter stands at [n], any number of calls return [n], [n + 1],
    and so on, wrapping round at 2^32; they touch nothing but the counter
    and call no library. No call fails, however many inputs there are. *)
Theorem mix_get_index_consecutive n (st : state W) :
  Z.of_nat (next_idx (mix st)) < 2 ^ 32 →
  mix_get_indices n st
  = Some ((λ k, Z.to_nat (u32 (Z.of_nat (next_idx (mix st)) + Z.of_nat k)))
            <$> seq 0 n,
          mkState
            (set_next_idx (mix st)
               (Z.to_nat (u32 (Z.of_nat (next_idx (mix st)) + Z.of_nat n))))
            (world st) (trace st)).
Proof.
  revert st. induction n as [|n IH]; intros st Hlt.
  - simpl. unfold ret. do 2 f_equal.
    rewrite Z.add_0_r. unfold u32. rewrite Z.mod_small by lia.
    rewrite Nat2Z.id. by destruct st as [[] ? ?].
  - cbn [mix_get_indices]. unfold bind at 1.
    unfold mix_get_index at 1, bind, get_mix, modify_mix, ret. simpl.
    set (st1 := mkState _ _ _).
    assert (Z.of_nat (next_idx (mix st1))
            = u32 (Z.of_nat (next_idx (mix st)) + 1)) as E1.
    { simpl. rewrite Z2Nat.id; [done |]. unfold u32.
      apply Z.mod_pos_bound. lia. }
    rewrite (IH st1).
    2:{ rewrite E1. unfold u32. apply Z.mod_pos_bound. lia. }
    rewrite E1. subst st1. simpl. do 2 f_equal.
    + f_equal.
      * rewrite Z.add_0_r. unfold u32. rewrite Z.mod_small by lia.
        by rewrite Nat2Z.id.
      * rewrite <-fmap_S_seq, <-list_fmap_compose. apply list_fmap_ext.
        intros i k _. simpl. f_equal. unfold u32.
        rewrite Zplus_mod_idemp_l. f_equal. lia.
    + assert (u32 (u32 (Z.of_nat (next_idx (mix st)) + 1) + Z.of_nat n)
              = u32 (Z.of_nat (next_idx (mix st)) + Z.of_nat (S n))) as ->; [| done].
      unfold u32. rewrite Zplus_mod_idemp_l. f_equal. lia.
Qed.

(** X4. [mix_config] is idempotent: after a call that returned, whatever
    it returned, the same call again returns 0 and changes neither the
    session nor the world, and calls no library. *)
Theorem mix_config_idempotent cr ch (st st' : state W) r :
  0 ≤ cr < 2 ^ 32 → 0 ≤ ch < 2 ^ 32 →
  mix_config cr ch st = Some (r, st') →
  mix_config cr ch st' = Some (0, st').
Proof. apply mix_config_twice. Qed.

(** X5. A [mix_config] that fails returns -1 and leaves exactly the
    session it found with the new format stored and no topology and no
    resampler; the last thing it does is to log the error, with one of the
    messages of its [err] label. *)
Theorem mix_config_failure_cleans_up cr ch (st st' : state W) r :
  mix_wf (mix st) →
  mix_config cr ch st = Some (r, st') → r ≠ 0 →
  r = -1
  ∧ mix st' = set_format (shut (mix st)) (s32 cr) (s32 ch)
  ∧ unbuilt (mix st')
  ∧ ∃ err tr,
      trace st' = Logged LOG_ERR "Failed to initialize mixer: %s" err :: tr
      ∧ err ∈ config_errors.
Proof.
  intros Hwf Hrun Hr.
  destruct (mix_config_failed _ _ _ _ _ Hwf Hrun Hr) as (-> & E & _).
  split_and!; [done | done | | by eapply mix_config_failed_message].
  rewrite E. apply (shut_unbuilt (set_format (mix st) (s32 cr) (s32 ch))).
Qed.

(** X6. [mix_config] leaves the timeline and the frames alone: offsets,
    input and output counters, the index counter, the sink frame, the
    resampling frame with its size and the silence frame are those it found,
    also when it builds a topology for another format; and it makes no call
    but on the topology, frees no frame and logs nothing but its own
    error. *)
Theorem mix_config_keeps_timeline cr ch (st st' : state W) r :
  mix_config cr ch st = Some (r, st') →
  pts_offs (mix st') = pts_offs (mix st)
  ∧ in_pts (mix st') = in_pts (mix st)
  ∧ out_pts (mix st') = out_pts (mix st)
  ∧ next_idx (mix st') = next_idx (mix st)
  ∧ sink_frame (mix st') = sink_frame (mix st)
  ∧ swr_frame (mix st') = swr_frame (mix st)
  ∧ swr_buffers (mix st') = swr_buffers (mix st)
  ∧ silence_frame (mix st') = silence_frame (mix st)
  ∧ Forall config_event (new_events st st').
Proof.
  intros Hrun.
  assert (∀ {B} (f : mix_s → B),
            (∀ m v, f (set_amix_ctx m v) = f m) →
            (∀ m v, f (set_sink_ctx m v) = f m) →
            (∀ m v, f (set_src_ctxs m v) = f m) →
            (∀ m v, f (set_avresample m v) = f m) →
            (∀ m v, f (set_graph m v) = f m) →
            (∀ m a b, f (set_format m a b) = f m) →
            f (mix st') = f (mix st)) as Hsame.
  { intros B f H1 H2 H3 H4 H5 H6.
    refine (inv_eq f _ _ _ _ _ Hrun). intros v.
    apply mix_config_inv; intros; subst; auto. }
  split_and!; try (apply Hsame; by intros []).
  eapply emits_new_events; [apply mix_config_emits | exact Hrun].
Qed.

(** X7. A [mix_config] that returns 0 for a format other than the stored
    one has stored the format, dropped the resampler, freed exactly the
    contexts the session held and built the whole topology: a graph, an
    [abuffer] per input for the new format linked to its pad of [amix],
    [amix] linked to the sink, and the graph configured. *)
Theorem mix_config_builds_topology cr ch (st st' : state W) :
  mix_wf (mix st) →
  mix_config cr ch st = Some (0, st') →
  u32 (clockrate (mix st)) ≠ cr ∨ u32 (channels (mix st)) ≠ ch →
  clockrate (mix st') = s32 cr ∧ channels (mix st') = s32 ch
  ∧ avresample (mix st') = NULL
  ∧ built (mix st') (new_events st st')
  ∧ filters_freed (new_events st st')
    = filter (λ p, p ≠ NULL) (contexts (mix st)).
Proof.
  intros Hwf Hrun Hne.
  apply mix_config_mismatch in Hrun; [| done].
  destruct (mix_config_format_mismatch_stores _ _ _ _ _ Hrun) as [Ecr Ech].
  apply mix_config_format_mismatch_run in Hrun as (st1 & b & st3 & Hs1 & Hb & Hr).
  destruct b as [err|u]; [by destruct Hr |]. destruct Hr as [_ ->].
  apply mix_shutdown_run in Hs1 as (E1 & ev1 & r1 & r2 & Et1 & F1 & _);
    [| apply Hwf].
  assert (length (src_ctxs (mix st1)) = NUM_INPUTS) as Hlen1.
  { rewrite E1. done. }
  pose proof Hb as Hb'.
  pose proof (mix_config_build_frees_nothing _ _ _ Hb) as Fb.
  apply mix_config_build_built in Hb as (ev & Et & Hbuilt); [| done].
  simpl in *.
  assert (new_events st st3
          = ev ++ Called (avfilter_graph_free (graph (mix st))) r2
               :: Called (avresample_free (avresample (mix st))) r1 :: ev1) as ->.
  { apply new_events_app. rewrite Et, Et1, <-(assoc_L (++)). done. }
  split_and!; [done | done | | |].
  - etrans.
    { refine (inv_eq avresample _ _ _ _ _ Hb'). intros v.
      apply mix_config_build_inv; intros; simpl; done. }
    simpl. by rewrite E1.
  - eapply built_mono; [| exact Hbuilt]. intros e He. apply elem_of_app. by left.
  - rewrite filters_freed_app.
    change (Called (avfilter_graph_free (graph (mix st))) r2
            :: Called (avresample_free (avresample (mix st))) r1 :: ev1)
      with ([Called (avfilter_graph_free (graph (mix st))) r2;
             Called (avresample_free (avresample (mix st))) r1] ++ ev1).
    rewrite filters_freed_app, F1.
    destruct Fb as (ev' & Et' & Fe). simpl in Et'. rewrite Et in Et'.
    apply app_inv_tail in Et' as ->. rewrite Fe.
    replace (filters_freed
               [Called (avfilter_graph_free (graph (mix st))) r2;
                Called (avresample_free (avresample (mix st))) r1])
      with (@nil Z) by done.
    by rewrite !(right_id_L [] (++)).
Qed.

(** X8. [mix_config] loses no filter context and no graph: of those made
    during a call, the session holds every one when the call returns 0, and
    every one that is not null has been freed when the call fails. *)
Theorem mix_config_never_leaks cr ch (st st' : state W) r :
  mix_wf (mix st) →
  mix_config cr ch st = Some (r, st') →
  (∀ flt args g rp,
     Called (avfilter_graph_create_filter flt args g) rp ∈ new_events st st' →
     out_ptr rp ≠ NULL →
     if r =? 0 then out_ptr rp ∈ contexts (mix st')
     else out_ptr rp ∈ filters_freed (new_events st st'))
  ∧ (∀ rp,
       Called avfilter_graph_alloc rp ∈ new_events st st' →
       if r =? 0 then graph (mix st') = rc rp
       else ∃ r', Called (avfilter_graph_free (rc rp)) r' ∈ new_events st st').
Proof.
  intros Hwf Hrun.
  destruct (decide (u32 (clockrate (mix st)) = cr ∧ u32 (channels (mix st)) = ch))
    as [[E1 E2]|Hne].
  { rewrite mix_config_same in Hrun by done. injection Hrun as <- <-.
    rewrite (new_events_app st st [] eq_refl).
    split; intros; by apply elem_of_nil in H. }
  apply mix_config_mismatch in Hrun.
  2:{ destruct (decide (u32 (clockrate (mix st)) = cr)); [| by left].
      right. intros ?. by apply Hne. }
  apply mix_config_format_mismatch_run in Hrun as (st1 & b & st3 & Hs1 & Hb & Hres).
  destruct (mix_shutdown_emits _ _ _ Hs1) as (ev1 & Et1 & Hev1).
  pose proof (mix_shutdown_run _ _ (wf_src_ctxs _ Hwf) Hs1) as (E1 & _).
  pose proof (mix_config_build_length _ _ _ Hb) as Elen. simpl in Elen.
  apply mix_config_build_holds in Hb as (evb & Etb & Hheld & Hgraph).
  2:{ simpl. rewrite E1. done. }
  simpl in Etb.
  assert (∀ e, e ∈ ev1 → shutdown_event e) as Hs by (by apply Forall_forall).
  destruct b as [err|u].
  - destruct Hres as (-> & st4 & Hs4 & ->).
    destruct (mix_shutdown_emits _ _ _ Hs4) as (ev4 & Et4 & Hev4).
    apply mix_shutdown_run in Hs4 as (E4 & ev4' & r1 & r2 & Et4' & F4 & _).
    2:{ rewrite Elen, E1. done. }
    assert (new_events st
              (mkState (mix st4) (world st4)
                 (Logged LOG_ERR "Failed to initialize mixer: %s" err :: trace st4))
            = [Logged LOG_ERR "Failed to initialize mixer: %s" err;
               Called (avfilter_graph_free (graph (mix st3))) r2;
               Called (avresample_free (avresample (mix st3))) r1]
              ++ ev4' ++ evb ++ ev1) as ->.
    { apply new_events_app. simpl. rewrite Et4', Etb, Et1.
      rewrite <-!(assoc_L (++)). done. }
    simpl (-1 =? 0). cbv iota. split.
    + intros flt args g rp Hin Hnn.
      rewrite !filters_freed_app, F4.
      apply elem_of_app. left. apply elem_of_app. right.
      apply list_elem_of_filter. split; [done |].
      apply (Hheld flt args g).
      apply elem_of_app in Hin as [Hin|Hin].
      { repeat (apply elem_of_cons in Hin as [?|Hin]; [done |]).
        by apply elem_of_nil in Hin. }
      apply elem_of_app in Hin as [Hin|Hin].
      { exfalso. assert (ev4' ⊆ ev4) as Hsub.
        { rewrite Et4' in Et4.
          change (Called (avfilter_graph_free (graph (mix st3))) r2
                  :: Called (avresample_free (avresample (mix st3))) r1
                  :: ev4' ++ trace st3)
            with ([Called (avfilter_graph_free (graph (mix st3))) r2;
                   Called (avresample_free (avresample (mix st3))) r1]
                  ++ ev4' ++ trace st3) in Et4.
          rewrite (assoc_L (++)) in Et4. apply app_inv_tail in Et4 as <-.
          intros e He. apply elem_of_app. by right. }
        rewrite Forall_forall in Hev4. by apply (Hev4 _ (Hsub _ Hin)). }
      apply elem_of_app in Hin as [Hin|Hin]; [done |].
      by apply Hs in Hin.
    + intros rp Hin. exists r2.
      assert (rc rp = graph (mix st3)) as ->.
      { apply Hgraph.
        apply elem_of_app in Hin as [Hin|Hin].
        { repeat (apply elem_of_cons in Hin as [?|Hin]; [done |]).
          by apply elem_of_nil in Hin. }
        apply elem_of_app in Hin as [Hin|Hin].
        { exfalso. assert (ev4' ⊆ ev4) as Hsub.
          { rewrite Et4' in Et4.
            change (Called (avfilter_graph_free (graph (mix st3))) r2
                    :: Called (avresample_free (avresample (mix st3))) r1
                    :: ev4' ++ trace st3)
              with ([Called (avfilter_graph_free (graph (mix st3))) r2;
                     Called (avresample_free (avresample (mix st3))) r1]
                    ++ ev4' ++ trace st3) in Et4.
            rewrite (assoc_L (++)) in Et4. apply app_inv_tail in Et4 as <-.
            intros e He. apply elem_of_app. by right. }
          rewrite Forall_forall in Hev4. by apply (Hev4 _ (Hsub _ Hin)). }
        apply elem_of_app in Hin as [Hin|Hin]; [done |].
        by apply Hs in Hin. }
      apply elem_of_app. left. right. left.
  - destruct Hres as [-> ->]. simpl.
    assert (new_events st st3 = evb ++ ev1) as ->.
    { apply new_events_app. rewrite Etb, Et1, (assoc_L (++)). done. }
    split.
    + intros flt args g rp Hin _. apply (Hheld flt args g).
      apply elem_of_app in Hin as [Hin|Hin]; [done |]. by apply Hs in Hin.
    + intros rp Hin. symmetry. apply Hgraph.
      apply elem_of_app in Hin as [Hin|Hin]; [done |]. by apply Hs in Hin.
Qed.

(** X9. [mix_resample_frame] hands back a frame that is S16 already as it
    is, without a call and without touching the session; for another format
    it returns the resampling frame of the session, or a null pointer after
    logging one of the messages of its [err] label. *)
Theorem mix_resample_frame_passes_or_logs frame (st st' : state W) o :
  mix_resample_frame frame st = Some (o, st') →
  if format frame =? AV_SAMPLE_FMT_S16 then o = Some frame ∧ st' = st
  else match o with
       | Some sf => swr_frame (mix st') = Some sf
       | None =>
           ∃ err tr,
             trace st' = Logged LOG_ERR "Error resampling: %s" err :: tr
             ∧ err ∈ resample_errors
       end.
Proof.
  unfold mix_resample_frame. destruct (format frame =? AV_SAMPLE_FMT_S16).
  { by intros [= <- <-]. }
  intros ([err|sf] & st1 & Hconv & Hrun)%run_bind.
  - apply run_bind in Hrun as ([] & st2 & [= <-] & [= <- <-]).
    eexists _, _. split; [done |]. by eapply mix_resample_convert_fails.
  - injection Hrun as <- <-. unfold mix_resample_convert in Hconv.
    apply (proj1 (run_ebind _ _ _ _ _)) in Hconv as (? & ? & _ & Hconv).
    run_step Hconv. run_step Hconv. run_step Hconv.
    apply (proj1 (run_ebind _ _ _ _ _)) in Hconv as (? & ? & _ & Hconv).
    run_step Hconv. run_step Hconv. run_step Hconv. run_goto Hconv Hc.
    run_step Hconv. by injection Hconv as <- <-.
Qed.

(** X10. A conversion that succeeds ends on the call of
    [avresample_convert], made on the resampler of the session, which is not
    null, for the frame given and for a number of samples the resampling
    frame has room for; the frame returned is the resampling frame of the
    session, carries the number of samples that call returned and the
    timestamp of the frame given, rescaled. *)
Theorem mix_resample_frame_converts frame (st st' : state W) sf :
  format frame ≠ AV_SAMPLE_FMT_S16 →
  mix_resample_frame frame st = Some (Some sf, st') →
  swr_frame (mix st') = Some sf
  ∧ avresample (mix st') ≠ NULL
  ∧ ∃ r dst tr,
      trace st'
      = Called (avresample_convert (avresample (mix st')) dst frame) r :: tr
      ∧ 0 ≤ rc r ∧ nb_samples sf = rc r
      ∧ pts sf = av_rescale (pts frame) (clockrate (mix st)) (clockrate (mix st))
      ∧ dst ≤ swr_buffers (mix st').
Proof.
  intros Hfmt%Z.eqb_neq. unfold mix_resample_frame. rewrite Hfmt.
  intros ([err|sf'] & st1 & Hconv & Hrun)%run_bind.
  { by apply run_bind in Hrun as ([] & st2 & _ & [=]). }
  injection Hrun as <- <-. unfold mix_resample_convert in Hconv.
  apply (proj1 (run_ebind _ _ _ _ _)) in Hconv as (u & st0 & Hopen & Hconv).
  apply mix_resample_open_ok in Hopen as (Ha & Ec & Ef & Eb & _).
  run_step Hconv. run_step Hconv. run_step Hconv.
  apply (proj1 (run_ebind _ _ _ _ _)) in Hconv as (sf0 & st3 & Hsf & Hconv).
  run_step Hconv. run_step Hconv. run_step Hconv. run_goto Hconv Hc.
  run_step Hconv. injection Hconv as <- <-. apply Z.ltb_ge in Hc. simpl in *.
  set (dst := s32 _) in *.
  assert (dst ≤ swr_buffers (mix st3)
          ∧ avresample (mix st3) = avresample (mix st0)) as [Hdst Ea3].
  { destruct (swr_frame (mix st0)) as [old|].
    - destruct (swr_buffers (mix st0) <? dst) eqn:Eb0.
      + apply mix_resample_grow_ok in Hsf as (-> & ? & _). split; [lia | done].
      + apply Z.ltb_ge in Eb0. injection Hsf as <- <-. done.
    - apply mix_resample_grow_ok in Hsf as (-> & ? & _). split; [lia | done]. }
  rewrite Ea3. split_and!; [done | done |].
  eexists _, dst, _. split; [done |]. split_and!; try done.
  by rewrite Ec.
Qed.

(** X11. The resampler is made once: when the session holds one,
    [mix_resample_frame] keeps it and neither allocates, sets up nor opens
    a resampler, whether the call succeeds or fails. *)
Theorem resampler_opened_once frame (st st' : state W) o :
  avresample (mix st) ≠ NULL →
  mix_resample_frame frame st = Some (o, st') →
  avresample (mix st') = avresample (mix st)
  ∧ Forall no_resampler_open (new_events st st').
Proof.
  intros Ha. unfold mix_resample_frame.
  destruct (format frame =? AV_SAMPLE_FMT_S16).
  { intros [= <- <-]. split; [done |].
    by rewrite (new_events_app st st []). }
  intros (rr & st1 & Hconv & Hrun)%run_bind.
  unfold mix_resample_convert in Hconv.
  match type of Hconv with
  | ebind _ ?k _ = _ =>
      assert (∀ u, emits no_resampler_open (k u)) as Hem;
      [| assert (∀ u v, inv (λ m, avresample m = v) (k u)) as Hinv ]
  end.
  { intros u. unfold mix_resample_grow, av_frame_free. repeat emits_step. }
  { intros u v. unfold mix_resample_grow, av_frame_free.
    repeat first [ apply inv_modify; by intros ? <- | inv_step ]. }
  unfold ebind in Hconv.
  apply run_bind in Hconv as (ro & st0 & Hopen & Hconv).
  assert (mix_resample_open frame st = Some (inr tt, st)) as Eopen.
  { unfold mix_resample_open, ebind, lift, bind, get_mix, ret. simpl.
    apply Z.eqb_neq in Ha. by rewrite Ha. }
  rewrite Eopen in Hopen. injection Hopen as <- <-.
  destruct (Hem tt _ _ _ Hconv) as (ev & Et & Hev).
  pose proof (Hinv tt _ _ _ _ Hconv eq_refl) as Ea1.
  destruct rr as [err|sf].
  - apply run_bind in Hrun as ([] & st2 & [= <-] & [= <- <-]).
    split; [done |]. simpl.
    rewrite (new_events_app st _ (Logged LOG_ERR "Error resampling: %s" err :: ev)).
    + by constructor.
    + simpl. by rewrite Et.
  - injection Hrun as <- <-. split; [done |].
    by rewrite (new_events_app _ _ _ Et).
Qed.

(** X12. The silence written by a pass of [mix_silence_fill_idx_upto]
    accounts for the way the input has moved: at a clock rate of at least
    100, the frames written lie end to end from where [in_pts] stood to
    where it stands after the pass, each of at least one sample and at most
    a hundredth of the clock rate; this whether the input took them or not,
    and also when the pass gave up for want of buffers. *)
Theorem silence_fill_tiles fuel idx upto (st st' : state W) :
  mix_wf (mix st) → 100 ≤ clockrate (mix st) → (idx < NUM_INPUTS)%nat →
  in_u64 upto →
  mix_silence_fill_idx_upto fuel idx upto st = Some (tt, st') →
  tiles (clockrate (mix st) / 100)
    (in_pts (mix st) !!! idx) (in_pts (mix st') !!! idx)
    ((λ f, (u64 (pts f), nb_samples f)) <$> silence_writes (new_events st st')).
Proof.
  intros Hwf Hcr Hidx Hu Hrun.
  destruct (mix_silence_fill_idx_upto_grows _ _ _ _ _ _ Hrun) as [ev Hev].
  rewrite (new_events_app _ _ _ Hev).
  unfold mix_silence_fill_idx_upto, bind, get_mix in Hrun. simpl in Hrun.
  destruct (silence_samples_range (clockrate (mix st))) as [Hs Es].
  { pose proof (wf_clockrate _ Hwf). lia. }
  rewrite Es in *.
  assert (1 ≤ clockrate (mix st) / 100).
  { apply Z.div_le_lower_bound; lia. }
  eapply mix_silence_loop_tiles; try done.
  - lia.
  - by rewrite (wf_in_pts _ Hwf).
  - apply wf_in_pts_lookup; done.
Qed.

(** X13. The silence frame is made once: when a session has one, every
    sequence of operations leaves it a silence frame of the same sample
    format, rate and channel layout, also when [mix_config] has changed the
    format of the session in between. *)
Theorem silence_frame_made_once fuel l (st st' : state W) rs sf :
  silence_frame (mix st) = Some sf →
  run_ops fuel l st = Some (rs, st') →
  silence_frame_like sf (mix st').
Proof.
  intros Hsf Hrun. eapply run_ops_like; [exact Hrun |].
  exists sf. split; [done | apply same_make_refl].
Qed.

(** X14. [mix_silence_fill] levels the inputs: when the silence frame was
    not refused its buffers and the clock rate is not negative, a pass that
    returns leaves [out_pts] where it was and every input at the later of
    its own position and one second before the output, and moves nothing
    while the output has not reached one second. *)
Theorem mix_silence_fill_levels_inputs fuel (st st' : state W) :
  mix_wf (mix st) → 0 ≤ clockrate (mix st) →
  mix_silence_fill fuel st = Some (tt, st') →
  silence_alloc_failed ∉ new_events st st' →
  out_pts (mix st') = out_pts (mix st)
  ∧ ∀ j, (j < NUM_INPUTS)%nat →
      in_pts (mix st') !!! j
      = if out_pts (mix st) <? clockrate (mix st) then in_pts (mix st) !!! j
        else Z.max (in_pts (mix st) !!! j) (out_pts (mix st) - clockrate (mix st)).
Proof.
  intros Hwf Hcr Hrun Hno.
  pose proof (mix_silence_fill_advanced _ _ _ Hrun) as (Eo & _ & _ & _ & _ & Hmono).
  split; [done |].
  unfold mix_silence_fill in Hrun.
  apply run_bind in Hrun as (m & st0 & [= <- <-] & Hrun).
  assert (u64 (clockrate (mix st)) = clockrate (mix st)) as Eu.
  { apply u64_id. pose proof (wf_clockrate _ Hwf). unfold in_u64. lia. }
  rewrite Eu in Hrun.
  destruct (out_pts (mix st) <? clockrate (mix st)) eqn:E.
  { injection Hrun as <-. done. }
  apply Z.ltb_ge in E. intros j Hj.
  assert (u64 (out_pts (mix st) - clockrate (mix st))
          = out_pts (mix st) - clockrate (mix st)) as Eu2.
  { apply u64_id. pose proof (wf_out_pts _ Hwf). unfold in_u64 in *. lia. }
  pose proof (mix_silence_fill_each_max _ _ _ _ Hrun Hwf Hcr) as Hmax.
  rewrite Eu, Eu2 in Hmax.
  pose proof (mix_silence_fill_each _ _ _ _ Hrun) as (_ & ev & Hev & Hlow).
  rewrite (new_events_app _ _ _ Hev) in Hno.
  destruct Hlow as [?|Hlow]; [done |].
  rewrite Eu, Eu2 in Hlow.
  assert (j ∈ seq 0 NUM_INPUTS) as Hjl by (apply elem_of_seq; lia).
  specialize (Hlow j Hjl). specialize (Hmono j).
  assert (in_pts (mix st') !!! j
          ≤ Z.max (in_pts (mix st) !!! j) (out_pts (mix st) - clockrate (mix st))).
  { apply Hmax; [| done]. intros i Hi%elem_of_seq. lia. }
  lia.
Qed.

(** X15. [mix_add] frees the frame passed to it in every call that
    returns: as it was given when the index is turned away, with its
    timestamp adjusted otherwise. *)
Theorem mix_add_frees_frame fuel frame idx (st st' : state W) ret :
  mix_add fuel frame idx st = Some (ret, st') →
  Freed (Some (if index_rejected idx (mix st) then frame
               else frame_submitted frame idx (mix st)))
  ∈ new_events st st'.
Proof.
  intros Hrun. destruct (index_rejected idx (mix st)) eqn:Hrej.
  - apply mix_add_rejected_run in Hrun as (_ & _ & _ & err & Et); [| done].
    rewrite (new_events_app st st' [_; _] Et). left.
  - apply mix_add_events in Hrun as (r & ev1 & ev2 & -> & _ & Hin & _); [| done].
    apply elem_of_app. by left.
Qed.

(** X16. [mix_add] hands its frame to the input once and hands nothing
    else to any input through [av_buffersrc_add_frame]: a call that returns
    has made no such call when the index was turned away, and otherwise
    exactly one, on the source of the input, for the frame with its
    timestamp adjusted. *)
Theorem mix_add_submits_once fuel frame idx (st st' : state W) ret :
  mix_add fuel frame idx st = Some (ret, st') →
  frames_added (new_events st st')
  = if index_rejected idx (mix st) then []
    else [(src_ctxs (mix st) !!! idx, frame_submitted frame idx (mix st))].
Proof. apply mix_add_added. Qed.

(** X17. The first frame of an input enters the mixer where the output
    stands: when the offset of the input is not set, the frame handed to
    the input carries the timestamp [out_pts] and its own sample count, and
    the offset becomes the distance from its timestamp to [out_pts]. *)
Theorem first_frame_enters_at_out_pts fuel frame idx (st st' : state W) ret :
  mix_wf (mix st) → index_rejected idx (mix st) = false →
  pts_offs (mix st) !!! idx = PTS_UNSET →
  mix_add fuel frame idx st = Some (ret, st') →
  ∃ f, frames_added (new_events st st') = [(src_ctxs (mix st) !!! idx, f)]
    ∧ u64 (pts f) = out_pts (mix st)
    ∧ nb_samples f = nb_samples frame
    ∧ pts_offs (mix st') !!! idx = u64 (out_pts (mix st) - pts frame).
Proof.
  intros Hwf Hacc Hunset Hrun.
  pose proof (mix_add_added _ _ _ _ _ _ Hrun) as Hadded. rewrite Hacc in Hadded.
  apply index_accepted_spec in Hacc as [Hidx Hsrc].
  destruct (mix_add_sets_offset _ _ _ _ _ _ Hwf Hidx Hsrc Hunset Hrun) as [Eo Ep].
  exists (frame_submitted frame idx (mix st)). split_and!; done.
Qed.

(** X18. A frame for an input whose offset holds anything but the mark of
    an unset offset is moved by that offset, as a 64-bit signed sum, and
    [mix_add] leaves the offsets of all inputs as they were. *)
Theorem later_frames_keep_offset fuel frame idx (st st' : state W) ret :
  index_rejected idx (mix st) = false →
  pts_offs (mix st) !!! idx ≠ PTS_UNSET →
  mix_add fuel frame idx st = Some (ret, st') →
  ∃ f, frames_added (new_events st st') = [(src_ctxs (mix st) !!! idx, f)]
    ∧ pts f = s64 (pts frame + pts_offs (mix st) !!! idx)
    ∧ nb_samples f = nb_samples frame
    ∧ pts_offs (mix st') = pts_offs (mix st).
Proof.
  intros Hacc Hset Hrun.
  pose proof (mix_add_added _ _ _ _ _ _ Hrun) as Hadded. rewrite Hacc in Hadded.
  exists (frame_submitted frame idx (mix st)). split_and!; try done.
  - unfold frame_submitted, offset_resolved.
    apply Z.eqb_neq in Hset. by rewrite Hset.
  - by eapply mix_add_keeps_offset.
Qed.

(** X19. A frame the input accepts moves the counters to its end: after
    the call [out_pts] is the later of its old value and the end of the
    adjusted frame, and the input stands at or beyond that end; this also
    when the call goes on to fail in the loop that drains the sink. *)
Theorem accepted_frame_moves_counters fuel frame idx (st st' : state W) ret :
  mix_wf (mix st) → index_rejected idx (mix st) = false →
  mix_add fuel frame idx st = Some (ret, st') →
  added_ok (new_events st st') →
  let f := frame_submitted frame idx (mix st) in
  out_pts (mix st') = Z.max (out_pts (mix st)) (u64 (pts f + nb_samples f))
  ∧ u64 (pts f + nb_samples f) ≤ in_pts (mix st') !!! idx.
Proof.
  intros Hwf Hacc Hrun Hok f.
  apply index_accepted_spec in Hacc as [Hidx Hsrc].
  apply mix_add_run in Hrun
    as (st1 & r & ev1 & Et1 & Hev1 & Hadv & Hcase); [| done | done].
  fold (frame_submitted frame idx (mix st)) in Hcase. fold f in Hcase.
  destruct Hcase
    as [(Hr & -> & Em & Et)
       |(Hr & st0 & ev2 & ev3 & Hadv2 & Hd & Et0 & Hev2 & Et & Hev3)].
  { exfalso. apply Hr. 
    assert (new_events st st'
            = [Freed (Some f);
               Logged LOG_ERR "Failed to add frame to mixer: %s"
                 "failed to add frame to mixer"]
              ++ Called (av_buffersrc_add_frame (src_ctxs (mix st) !!! idx) f) r
              :: ev1) as E2.
    { apply new_events_app. rewrite Et, Et1. done. }
    rewrite E2 in Hok. by apply added_ok_inv in Hok. }
  assert (out_pts (mix st') = out_pts (mix st0)
          ∧ in_pts (mix st') = in_pts (mix st0)) as [-> ->].
  { split.
    - refine (inv_eq out_pts _ _ _ _ _ Hd). intros v.
      apply mix_add_drain_inv; by intros ? ? <-.
    - refine (inv_eq in_pts _ _ _ _ _ Hd). intros v.
      apply mix_add_drain_inv; by intros ? ? <-. }
  destruct Hadv as (Eo1 & _ & _ & _ & El1 & _).
  destruct Hadv2 as (Eo2 & _ & _ & _ & _ & Hin2).
  assert (idx < length (in_pts (mix st1)))%nat as Hl.
  { rewrite El1. unfold offset_resolved.
    destruct (pts_offs (mix st) !!! idx =? PTS_UNSET); simpl;
      by rewrite (wf_in_pts _ Hwf). }
  destruct (counters_updated_spec (u64 (pts f + nb_samples f)) idx (mix st1) Hl)
    as (Eout & _ & _ & Ein & _).
  split.
  - rewrite Eo2, Eout, Eo1. unfold offset_resolved.
    by destruct (pts_offs (mix st) !!! idx =? PTS_UNSET).
  - etrans; [| apply Hin2]. rewrite Ein. lia.
Qed.

(** X20. A frame the input refuses produces no output: the call returns
    -1, leaves [out_pts] where it was and calls neither the sink of the
    graph nor the output. *)
Theorem refused_frame_gives_no_output fuel frame idx (st st' : state W) ret :
  mix_add fuel frame idx st = Some (ret, st') →
  ¬ added_ok (new_events st st') →
  ret = -1
  ∧ out_pts (mix st') = out_pts (mix st)
  ∧ Forall no_output (new_events st st').
Proof.
  intros Hrun Hno. destruct (index_rejected idx (mix st)) eqn:Hrej.
  { exfalso. apply Hno.
    apply mix_add_rejected_run in Hrun as (_ & _ & _ & err & Et); [| done].
    rewrite (new_events_app st st' [_; _] Et).
    intros ctx f r Hin. repeat (apply elem_of_cons in Hin as [?|Hin]; [done |]).
    by apply elem_of_nil in Hin. }
  apply mix_add_events in Hrun as (r & ev1 & ev2 & Ene & Hev1 & _ & Hcase);
    [| done].
  rewrite Ene in *.
  destruct (Z.eqb_spec (rc r) 0) as [E0|E0].
  { exfalso. apply Hno. intros ctx f r' Hin.
    apply elem_of_app in Hin as [Hin|Hin].
    - rewrite Forall_forall in Hcase. apply Hcase in Hin as [Hs|Hd]; done.
    - apply elem_of_cons in Hin as [[= _ _ ->]|Hin]; [done |].
      rewrite Forall_forall in Hev1. by apply Hev1 in Hin. }
  destruct Hcase as (-> & Eout & ->). split_and!; [done | done |].
  repeat constructor.
  eapply Forall_impl; [exact Hev1 |]. by intros [[] ?| |].
Qed.

(** X21. [mix_add] leaves the topology and the format alone: the graph,
    the contexts of [amix], of the sink and of the inputs, the clock rate,
    the channels and the index counter are those it found, and it makes no
    call that builds or frees a part of the topology. *)
Theorem mix_add_keeps_topology fuel frame idx (st st' : state W) ret :
  mix_add fuel frame idx st = Some (ret, st') →
  graph (mix st') = graph (mix st)
  ∧ amix_ctx (mix st') = amix_ctx (mix st)
  ∧ sink_ctx (mix st') = sink_ctx (mix st)
  ∧ src_ctxs (mix st') = src_ctxs (mix st)
  ∧ clockrate (mix st') = clockrate (mix st)
  ∧ channels (mix st') = channels (mix st)
  ∧ next_idx (mix st') = next_idx (mix st)
  ∧ Forall no_topology (new_events st st').
Proof. apply mix_add_keeps. Qed.

(** X22. [mix_add] returns 0 only when all went well: the index was
    taken, the input accepted the frame, the output accepted every frame
    pulled from the sink, and the call ended on the sink answering
    [EAGAIN]. *)
Theorem mix_add_success_drains_sink fuel frame idx (st st' : state W) :
  mix_add fuel frame idx st = Some (0, st') →
  index_rejected idx (mix st) = false
  ∧ added_ok (new_events st st')
  ∧ (∀ f r, Called (output_add f) r ∈ new_events st st' → rc r = 0)
  ∧ ∃ r tr,
      trace st' = Called (av_buffersink_get_frame (sink_ctx (mix st))) r :: tr
      ∧ rc r = AVERROR_EAGAIN.
Proof.
  intros Hrun. destruct (index_rejected idx (mix st)) eqn:Hrej.
  { by apply mix_add_rejected_run in Hrun as (? & _); [| done]. }
  split; [done |].
  apply index_accepted_spec in Hrej as [Hidx Hsrc].
  pose proof (mix_add_keeps _ _ _ _ _ _ Hrun) as (_ & _ & Esink & _).
  apply mix_add_run in Hrun
    as (st1 & r & ev1 & Et1 & Hev1 & Hadv & Hcase); [| done | done].
  destruct Hcase
    as [(_ & ? & _)
       |(Hr & st0 & ev2 & ev3 & Hadv2 & Hd & Et0 & Hev2 & Et & Hev3)];
    [done |].
  assert (sink_ctx (mix st0) = sink_ctx (mix st)) as Es.
  { rewrite <-Esink. symmetry.
    refine (inv_eq sink_ctx _ _ _ _ _ Hd). intros v.
    apply mix_add_drain_inv; by intros ? ? <-. }
  apply mix_add_drain_done in Hd as (r3 & ev & Et' & Hr3 & Hev).
  rewrite Es in Et'.
  set (c := av_buffersrc_add_frame _ _) in *.
  assert (new_events st st'
          = Called (av_buffersink_get_frame (sink_ctx (mix st))) r3
            :: ev ++ ev2 ++ Freed (Some (frame_adjusted frame idx
                                           (offset_resolved frame idx (mix st))))
            :: Called c r :: ev1) as ->.
  { apply new_events_app. rewrite Et', Et0, Et1. simpl.
    rewrite <-!(assoc_L (++)). done. }
  assert (∀ (Q : event → Prop),
            (∀ r', Q (Called (av_buffersink_get_frame (sink_ctx (mix st))) r')) →
            (∀ e, pulled_event e → Q e) →
            (∀ e, silence_event e → Q e) →
            (∀ f, Q (Freed f)) → Q (Called c r) →
            Forall Q (Called (av_buffersink_get_frame (sink_ctx (mix st))) r3
                      :: ev ++ ev2
                      ++ Freed (Some (frame_adjusted frame idx
                                        (offset_resolved frame idx (mix st))))
                      :: Called c r :: ev1)) as Hall.
  { intros Q Q1 Q2 Q3 Q4 Q5. constructor; [done |].
    apply Forall_app. split; [by eapply Forall_impl |].
    apply Forall_app. split; [by eapply Forall_impl |].
    constructor; [done |]. constructor; [done |]. by eapply Forall_impl. }
  split_and!.
  - intros ctx f r' Hin.
    pose proof (Hall (λ e, ∀ ctx f r', e = Called (av_buffersrc_add_frame ctx f) r'
                                       → rc r' = 0)) as HA.
    rewrite Forall_forall in HA. eapply HA; [| | | | | exact Hin | done].
    + done.
    + by intros [[] ?| |].
    + by intros [[] ?| |].
    + done.
    + by intros ? ? ? [= _ _ <-].
  - intros f r' Hin.
    pose proof (Hall (λ e, ∀ f r', e = Called (output_add f) r' → rc r' = 0)) as HA.
    rewrite Forall_forall in HA. eapply HA; [| | | | | exact Hin | done].
    + done.
    + intros [[] ?| |]; try done. simpl. by intros ? ? ? [= _ <-].
    + by intros [[] ?| |].
    + done.
    + done.
  - by eexists _, _.
Qed.

(** X23. [mix_add] returns 0 or -1, and a call that returns -1 ends in one
    of two ways: on its [err] label, having logged one of its four messages
    and freed the frame its local variable points to, or on the output
    refusing a frame, in which case [mix_add] itself logs nothing. *)
Theorem mix_add_failure_cause fuel frame idx (st st' : state W) ret :
  mix_add fuel frame idx st = Some (ret, st') →
  ret = 0
  ∨ (ret = -1
     ∧ ((∃ f err tr,
           trace st'
           = Freed f :: Logged LOG_ERR "Failed to add frame to mixer: %s" err :: tr
           ∧ err ∈ ["index out of range"; "mixer not initialized";
                    "failed to add frame to mixer";
                    "failed to get frame from mixer"]%string)
        ∨ (∃ f r tr, trace st' = Called (output_add f) r :: tr ∧ rc r ≠ 0))).
Proof.
  intros Hrun.
  unfold mix_add in Hrun. apply run_bind in Hrun as (o & st0 & Hsub & Hrun).
  rewrite mix_add_submit_run in Hsub.
  destruct (NUM_INPUTS <=? idx)%nat.
  { injection Hsub as <- <-. injection Hrun as <- <-.
    right. split; [done |]. left. eexists _, _, _. split; [done |]. left. }
  destruct (src_ctxs (mix st) !!! idx =? NULL).
  { injection Hsub as <- <-. injection Hrun as <- <-.
    right. split; [done |]. left. eexists _, _, _. split; [done |].
    right. left. }
  cbv zeta in Hsub.
  destruct (mix_silence_fill_idx_upto _ _ _ _) as [[[] st1]|]; [| done].
  destruct (negb _).
  { injection Hsub as <- <-. injection Hrun as <- <-.
    right. split; [done |]. left. eexists _, _, _. split; [done |].
    right. right. left. }
  destruct (mix_silence_fill _ _) as [[[] st3]|]; [| done].
  injection Hsub as <- <-.
  apply mix_add_drain_failed in Hrun as [->|(-> & [(f & tr & Et)|Hout])].
  - by left.
  - right. split; [done |]. left. eexists f, _, tr. split; [exact Et |].
    do 3 right. left.
  - right. split; [done |]. by right.
Qed.

(** X24. What a negative answer of the sink does to a call that has
    reached the loop and made [k] turns: on [EAGAIN] the call returns 0 in
    the state the answer left; on any other error it returns -1, logs the
    error and frees the frame its local variable points to, which is null on
    the first turn and otherwise the frame last handed to the output. *)
Theorem sink_answer_ends_drain fuel frame idx (st st0 stk : state W)
    k framek r w :
  mix_add_submit fuel frame idx st = Some (None, st0) →
  pulled st0 None k stk framek →
  (k < fuel)%nat →
  respond (world stk) (av_buffersink_get_frame (sink_ctx (mix stk))) = (r, w) →
  rc r < 0 →
  let stk' := mkState (mix stk) w
                (Called (av_buffersink_get_frame (sink_ctx (mix stk))) r
                 :: trace stk) in
  mix_add fuel frame idx st
  = Some (if rc r =? AVERROR_EAGAIN then (0, stk')
          else (-1, add_failed framek "failed to get frame from mixer" stk'))
  ∧ match k with
    | O => framek = None
    | S _ => ∃ r' tr, trace stk = Called (output_add framek) r' :: tr
    end.
Proof.
  intros Hsub Hpulled Hk Hpull Hrc stk'. split.
  - unfold mix_add, bind. rewrite Hsub.
    replace fuel with (k + S (fuel - S k))%nat by lia.
    rewrite (mix_add_drain_pulled _ _ _ _ _ _ Hpulled). simpl.
    unfold bind at 1. rewrite mix_add_pull_run. simpl.
    rewrite Hpull. simpl.
    apply Z.ltb_lt in Hrc. rewrite Hrc.
    by destruct (rc r =? AVERROR_EAGAIN).
  - apply pulled_run in Hpulled as (_ & _ & Hlast).
    destruct k; [by destruct Hlast | done].
Qed.

(** X25. The first [mix_config] of a new session: the format of a new
    session is -1 and -1, which read as unsigned are both 4294967295; a call
    with these two values finds nothing to do, returns 0 and leaves the
    session new, and a call with any other values stores them and starts a
    build by asking for a graph. *)
Theorem new_session_first_config cr ch (w : W) tr r (st' : state W) :
  mix_config cr ch (mkState mix_new w tr) = Some (r, st') →
  if (cr =? 4294967295) && (ch =? 4294967295)
  then r = 0 ∧ st' = mkState mix_new w tr
  else clockrate (mix st') = s32 cr ∧ channels (mix st') = s32 ch
       ∧ ∃ rp, Called avfilter_graph_alloc rp
               ∈ new_events (mkState mix_new w tr) st'.
Proof.
  intros Hrun.
  destruct ((cr =? 4294967295) && (ch =? 4294967295)) eqn:E.
  { apply andb_true_iff in E as [->%Z.eqb_eq ->%Z.eqb_eq].
    rewrite mix_config_same in Hrun by done. by injection Hrun as <- <-. }
  apply mix_config_mismatch in Hrun.
  2:{ apply andb_false_iff in E as [E|E]; apply Z.eqb_neq in E;
        [left | right]; intros <-; by apply E. }
  destruct (mix_config_format_mismatch_stores _ _ _ _ _ Hrun) as [-> ->].
  split_and!; [done | done |].
  apply mix_config_format_mismatch_run in Hrun
    as (st1 & b & st3 & Hs1 & Hb & Hres).
  destruct (mix_shutdown_grows _ _ _ Hs1) as [ev1 Et1].
  apply mix_config_build_allocs in Hb as (rp & ev & Et). simpl in Et.
  exists rp. destruct b as [err|u].
  - destruct Hres as (_ & st4 & Hs4 & ->).
    destruct (mix_shutdown_grows _ _ _ Hs4) as [ev4 Et4].
    rewrite (new_events_app _ _
               (Logged LOG_ERR "Failed to initialize mixer: %s" err
                :: ev4 ++ ev ++ Called avfilter_graph_alloc rp :: ev1)).
    + right. apply elem_of_app. right. apply elem_of_app. right. left.
    + simpl. rewrite Et4, Et, Et1. simpl. rewrite <-!(assoc_L (++)). done.
  - destruct Hres as [_ ->].
    rewrite (new_events_app _ _ (ev ++ Called avfilter_graph_alloc rp :: ev1)).
    + apply elem_of_app. right. left.
    + rewrite Et, Et1. simpl. rewrite <-!(assoc_L (++)). done.
Qed.

(** X26. A session without a graph holds nothing of a topology: in every
    state a session can reach, if the graph is null then so are the
    resampler and every filter context, and [mix_add] turns every frame
    away. *)
Theorem session_without_graph_is_empty (st : state W) :
  reachable st →
  graph (mix st) = NULL →
  shut (mix st) = mix st ∧ ∀ idx, index_rejected idx (mix st) = true.
Proof.
  intros Hreach Hg.
  assert (shut (mix st) = mix st) as E; [| split; [done | intros; by apply shut_rejects]].
  induction Hreach as [w|st fuel o r st' Hreach IH Hrun]; [done |].
  pose proof (reachable_wf _ Hreach) as Hwf.
  destruct o as [cr ch| |frame idx]; simpl in Hrun.
  - destruct (decide (r = 0)) as [->|Hr].
    + destruct (decide (u32 (clockrate (mix st)) = cr
                        ∧ u32 (channels (mix st)) = ch)) as [[E1 E2]|Hne].
      { rewrite mix_config_same in Hrun by done. injection Hrun as <-. auto. }
      exfalso.
      apply mix_config_mismatch in Hrun.
      2:{ destruct (decide (u32 (clockrate (mix st)) = cr)); [| by left].
          right. intros ?. by apply Hne. }
      apply mix_config_format_mismatch_run in Hrun
        as (st1 & b & st3 & Hs1 & Hb & Hres).
      destruct b as [err|u]; [by destruct Hres |]. destruct Hres as [_ ->].
      apply mix_shutdown_run in Hs1 as (E1 & _); [| apply Hwf].
      apply mix_config_build_built in Hb as (ev & _ & Hne' & _).
      { done. }
      simpl. by rewrite E1.
    + destruct (mix_config_failed _ _ _ _ _ Hwf Hrun Hr) as (_ & -> & _). done.
  - apply run_bind in Hrun as (i & st1 & Hi & [= _ <-]).
    unfold mix_get_index in Hi.
    apply run_bind in Hi as (m & st0 & [= <- <-] & Hi).
    apply run_bind in Hi as ([] & st2 & [= <-] & [= _ <-]).
    simpl in *.
    set (v := Z.to_nat _).
    transitivity (set_next_idx (shut (mix st)) v); [done |]. by rewrite (IH Hg).
  - pose proof (mix_add_keeps _ _ _ _ _ _ Hrun) as (Eg & _).
    rewrite Eg in Hg. specialize (IH Hg).
    apply mix_add_rejected_run in Hrun as (_ & -> & _); [done |].
    by apply shut_rejects.
Qed.

End Further.


(** * Runs of the mixer *)

Lemma sim_after_reachable fuel w l st :
  sim_after fuel w l = Some st → reachable st.
Proof.
  unfold sim_after. destruct (run_ops _ _ _) as [[rs st']|] eqn:E; [| done].
  intros [= <-]. eapply run_ops_reachable; [apply reachable_new | exact E].
Qed.

(** Closed goals are settled by evaluation. *)
Ltac run := vm_compute; reflexivity.

Ltac decide_trace := apply (bool_decide_unpack _); vm_compute; exact I.

Ltac sim_range := vm_compute; first [discriminate | reflexivity].

Ltac sim_reachable fuel w l := apply (sim_after_reachable fuel w l); run.

Ltac sim_wf :=
  constructor;
  [ run | run | run
  | match goal with
    | |- Forall _ ?l =>
        let l' := eval vm_compute in l in
        change (Forall in_u64 l'); repeat constructor; sim_range
    end
  | split; sim_range
  | split; sim_range ].

(** C1, a run within the bound: at 8000 Hz a first frame of 8160 samples
    takes the output past one second, and the three silent inputs are filled
    up to 160. *)
Lemma drift_bound_after_mix_add_witness :
  drift_bounded
    (mix (sim_state 30 sim_ok [op_config 8000 1; op_add (pcm 0 8160) 0])).
Proof.
  apply (drift_bound_after_mix_add 30 (pcm 0 8160) 0
           (sim_state 30 sim_ok [op_config 8000 1]) _ 0).
  - sim_wf.
  - run.
  - decide_trace.
  - left. reflexivity.
Defined.

(** C1, against the claim as stated: when the silence frame gets no
    buffers, [mix_add] returns 0 with the output at 8160 and input 1 still
    at 0, more than a second behind. *)
Lemma drift_bound_fails_without_buffers :
  ∃ st st',
    reachable st
    ∧ mix_add 30 (pcm 0 8160) 0 st = Some (0, st')
    ∧ clockrate (mix st') = 8000 ∧ out_pts (mix st') = 8160
    ∧ in_pts (mix st') !!! 1%nat = 0
    ∧ ¬ drift_bounded (mix st').
Proof.
  exists (sim_state 30 sim_no_buffers [op_config 8000 1]),
    (sim_state 30 sim_no_buffers [op_config 8000 1; op_add (pcm 0 8160) 0]).
  set (st' := sim_state 30 sim_no_buffers [op_config 8000 1; op_add (pcm 0 8160) 0]).
  assert (clockrate (mix st') = 8000) as Ecr by run.
  assert (out_pts (mix st') = 8160) as Eout by run.
  assert (in_pts (mix st') !!! 1%nat = 0) as Ein by run.
  split_and!; [| | exact Ecr | exact Eout | exact Ein |].
  - sim_reachable 30%nat sim_no_buffers [op_config 8000 1].
  - run.
  - unfold drift_bounded. rewrite Ecr, Eout. intros Hd.
    assert (u64 8000 ≤ 8160) as Hle by sim_range.
    assert (1 < NUM_INPUTS)%nat as Hi by (unfold NUM_INPUTS; lia).
    specialize (Hd Hle 1%nat Hi). rewrite Ein in Hd.
    revert Hd. vm_compute. intros Hd. by apply Hd.
Qed.

(** C3, at a state reached by configuring and submitting one frame. *)
Lemma timeline_tracking_witness :
  let st := sim_state 30 sim_ok [op_config 8000 1; op_add (pcm 0 160) 0] in
  reachable st
  ∧ out_pts (mix st) ≤ max_in_pts (mix st)
  ∧ ∀ fuel o r st', run_op fuel o st = Some (r, st') →
      out_pts (mix st) ≤ out_pts (mix st')
      ∧ (∀ i, in_pts (mix st) !!! i ≤ in_pts (mix st') !!! i)
      ∧ (0 ≤ clockrate (mix st) → frames_accepted (new_events st st') →
         out_pts (mix st) = max_in_pts (mix st) →
         out_pts (mix st') = max_in_pts (mix st')).
Proof.
  intros st.
  assert (reachable st) as Hreach.
  { sim_reachable 30%nat sim_ok [op_config 8000 1; op_add (pcm 0 160) 0]. }
  split; [exact Hreach |]. exact (timeline_tracking st Hreach).
Defined.

(** C3, against the claim as stated: a frame that comes after a gap is
    refused by its input once the gap has been filled with silence; the
    input stands at 1000 and the output at 160. *)
Lemma timeline_max_fails_after_refused_frame :
  ∃ st,
    reachable st
    ∧ out_pts (mix st) = 160 ∧ in_pts (mix st) = [1000; 0; 0; 0]
    ∧ out_pts (mix st) ≠ max_in_pts (mix st).
Proof.
  exists (sim_state 30 sim_add_refused
            [op_config 8000 1; op_add (pcm 0 160) 0; op_add (pcm 1000 160) 0]).
  split_and!.
  - sim_reachable 30%nat sim_add_refused
      [op_config 8000 1; op_add (pcm 0 160) 0; op_add (pcm 1000 160) 0].
  - run.
  - run.
  - vm_compute. discriminate.
Qed.



(** C6, a run: the sink of the graph has three frames ready, the output
    takes the first and refuses the second; [mix_add] returns -1 on that
    refusal and the third frame is still in the graph. *)
Lemma sink_failure_aborts_witness :
  ∃ st',
    mix_add 10 (pcm 0 160) 0 (sim_state 30 sim_sink_refuses [op_config 8000 1])
    = Some (-1, st')
    ∧ sim_ready (world st') = [pcm 320 160]
    ∧ ∃ tr, trace st' = Called (output_add (Some (pcm 160 160))) (sim_reply (-1)) :: tr.
Proof.
  eexists. split.
  - eapply proj1.
    eapply (sink_failure_aborts 10 (pcm 0 160) 0
              (sim_state 30 sim_sink_refuses [op_config 8000 1])) with (k := 1%nat).
    + run.
    + eapply pulled_S; [run | apply pulled_0].
    + lia.
    + run.
    + sim_range.
    + run.
    + run.
    + vm_compute. discriminate.
  - split; [run |]. eexists. run.
Defined.

(** C7, a run: a frame for input 0 of a session never configured. *)
Lemma mix_add_rejects_bad_index_witness :
  src_ctxs (mix (sim_new sim_ok)) !!! 0%nat = NULL
  ∧ ∃ err, mix_add 10 (pcm 0 160) 0 (sim_new sim_ok)
           = Some (-1, mkState mix_new sim_ok
                         [Freed (Some (pcm 0 160));
                          Logged LOG_ERR "Failed to add frame to mixer: %s" err]).
Proof.
  split; [reflexivity |].
  apply (mix_add_rejects_bad_index 10 (pcm 0 160) 0 (sim_new sim_ok)).
  right. reflexivity.
Defined.

(** C7, against the claim as stated: the session is configured and no
    index was ever allocated, yet a frame for input 2 is accepted and sets
    the offset of that input and the output timestamp. *)
Lemma mix_add_accepts_unallocated_index :
  ∃ st st',
    reachable st
    ∧ next_idx (mix st) = 0%nat
    ∧ mix_add 10 (pcm 0 160) 2 st = Some (0, st')
    ∧ pts_offs (mix st) !!! 2%nat = PTS_UNSET
    ∧ pts_offs (mix st') !!! 2%nat = 0
    ∧ out_pts (mix st) = 0 ∧ out_pts (mix st') = 160.
Proof.
  exists (sim_state 30 sim_ok [op_config 8000 1]),
    (sim_state 30 sim_ok [op_config 8000 1; op_add (pcm 0 160) 2]).
  split_and!; [| run ..].
  sim_reachable 30%nat sim_ok [op_config 8000 1].
Qed.

(** C10, a run: the first chunk written to input 1 is refused; it has
    moved the input to 80 all the same, the second chunk starts there, the
    pass leaves the input at 160 and the next pass starts its chunks
    there. *)
Lemma silence_chunk_never_resent_witness :
  let st1 := sim_state 30 sim_write_refused
               [op_config 8000 1; op_add (pcm 0 160) 0] in
  let st1' := default st1 (snd <$> mix_silence_fill_idx_upto 10 1 160 st1) in
  let st2' := default st1 (snd <$> mix_silence_fill_idx_upto 10 1 320 st1') in
  let f t := mkFrame AV_SAMPLE_FMT_S16 t 80 8000 4 (replicate 160 0) in
  silence_written (new_events st1 st1')
  = [(6, f 0, sim_reply (-1)); (6, f 80, sim_reply 0)]
  ∧ silence_written (new_events st1' st2')
    = [(6, f 160, sim_reply 0); (6, f 240, sim_reply 0)]
  ∧ counted 0 (silence_written (new_events st1 st1')) 160
  ∧ ∀ w w', w ∈ silence_written (new_events st1 st1') →
      w' ∈ silence_written (new_events st1' st2') →
      u64 (pts w.1.2) + nb_samples w.1.2 ≤ u64 (pts w'.1.2).
Proof.
  assert (1 < NUM_INPUTS)%nat as Hidx by (unfold NUM_INPUTS; lia).
  assert (in_u64 160) as Hu by (split; sim_range).
  assert (in_u64 320) as Hu' by (split; sim_range).
  intros st1 st1' st2' f.
  assert (mix_wf (mix st1)) as Hwf1 by sim_wf.
  assert (mix_wf (mix st1')) as Hwf2 by sim_wf.
  assert (0 ≤ clockrate (mix st1)) as Hcr1 by sim_range.
  assert (0 ≤ clockrate (mix st1')) as Hcr2 by sim_range.
  assert (silence_written (new_events st1 st1')
          = [(6, f 0, sim_reply (-1)); (6, f 80, sim_reply 0)]) as H1 by run.
  assert (silence_written (new_events st1' st2')
          = [(6, f 160, sim_reply 0); (6, f 240, sim_reply 0)]) as H2 by run.
  assert (in_pts (mix st1) !!! 1%nat = 0) as E1 by run.
  assert (in_pts (mix st1') !!! 1%nat = 160) as E1' by run.
  assert (mix_silence_fill_idx_upto 10 1 160 st1 = Some (tt, st1')) as Hrun1
    by run.
  assert (mix_silence_fill_idx_upto 10 1 320 st1' = Some (tt, st2')) as Hrun2
    by run.
  split; [exact H1 |]. split; [exact H2 |].
  clearbody st1 st1' st2'.
  rewrite <-E1 at 1. rewrite <-E1'.
  apply (silence_chunk_never_resent 10 10 1 160 320 st1 st1' st1' st2');
    try done.
Defined.

(** C2, where the code departs from the claim. The first frame of input 0
    has timestamp 1 while the output is at 0, so its offset is
    [(uint64_t) -1], the very value that marks an offset as not set. The
    second frame, stamped 200, therefore has the offset computed again, as
    160 - 200, and enters the mixer at 160 instead of 199. *)
Theorem offset_recomputed_after_first_frame :
  ∃ st1 st2,
    sim_after 10 sim_ok [op_config 8000 1; op_get_index; op_add (pcm 1 160) 0]
    = Some st1
    ∧ pts_offs (mix st1) !!! 0%nat = u64 (0 - 1)
    ∧ mix_add 10 (pcm 200 160) 0 st1 = Some (0, st2)
    ∧ pts_offs (mix st2) !!! 0%nat = u64 (160 - 200)
    ∧ pts_offs (mix st2) !!! 0%nat ≠ pts_offs (mix st1) !!! 0%nat
    ∧ Called (av_buffersrc_add_frame 5 (pcm 160 160)) (sim_reply 0) ∈ trace st2.
Proof.
  eexists _, _. split_and!.
  - run.
  - run.
  - run.
  - run.
  - vm_compute. discriminate.
  - decide_trace.
Qed.

(** C4, where the code departs from the claim. The first [mix_config] fails
    to allocate the graph and returns -1, but has already stored the format;
    the same call again finds the format unchanged and returns 0 without
    building anything, although a build would now succeed, as the call with
    another rate shows. The session has no topology and rejects frames. *)
Theorem mix_config_noop_without_topology :
  ∃ st1,
    mix_config 8000 1 (sim_new sim_no_graph) = Some (-1, st1)
    ∧ graph (mix st1) = NULL ∧ src_ctxs (mix st1) = [NULL; NULL; NULL; NULL]
    ∧ mix_config 8000 1 st1 = Some (0, st1)
    ∧ (∃ st2, mix_config 16000 1 st1 = Some (0, st2) ∧ graph (mix st2) ≠ NULL)
    ∧ ∃ st3, mix_add 10 (pcm 0 160) 0 st1 = Some (-1, st3).
Proof.
  eexists. split_and!.
  - run.
  - run.
  - run.
  - run.
  - eexists. split; [run |]. vm_compute. discriminate.
  - eexists. run.
Qed.

(** C8, where the code departs from the claim. The frame drained needs
    conversion and the resampler cannot be opened: [mix_resample_frame] logs
    the error and returns a null pointer, which [mix_add] hands to
    [output_add]. What happens next is up to the output: if it returns 0 the
    loop goes on, if it returns an error the whole submission fails. *)
Theorem resample_failure_reaches_output :
  (∃ st,
     run_ops 10 [op_config 8000 1; op_add (pcm 0 160) 0] (sim_new sim_no_resampler)
     = Some ([0; 0], st)
     ∧ Logged LOG_ERR "Error resampling: %s" "failed to init resample context"
       ∈ trace st
     ∧ Called (output_add None) (sim_reply 0) ∈ trace st)
  ∧ ∃ st,
      run_ops 10 [op_config 8000 1; op_add (pcm 0 160) 0]
        (sim_new sim_no_resampler_strict)
      = Some ([0; -1], st)
      ∧ ∃ tr, trace st = Called (output_add None) (sim_reply (-1)) :: tr.
Proof.
  split.
  - eexists. split_and!; [run | decide_trace | decide_trace].
  - eexists. split; [run |]. eexists. run.
Qed.

(** ** Runs for the further properties *)

(** X1, a run: the topology of a configured session is taken down. *)
Lemma mix_shutdown_releases_witness :
  let st := sim_state 30 sim_ok [op_config 8000 1] in
  let st' := default st (snd <$> mix_shutdown st) in
  mix st' = shut (mix st)
  ∧ unbuilt (mix st')
  ∧ filters_freed (new_events st st')
    = filter (λ p, p ≠ NULL) (contexts (mix st))
  ∧ ∃ r1 r2 ev,
      new_events st st'
      = Called (avfilter_graph_free (graph (mix st))) r2
        :: Called (avresample_free (avresample (mix st))) r1 :: ev.
Proof.
  intros st st'. apply (mix_shutdown_releases st st'); run.
Defined.

(** X2, a run: a configured session that has made its silence frame is
    destroyed. *)
Lemma mix_destroy_releases_witness :
  let st := sim_state 30 sim_ok [op_config 8000 1; op_add (pcm 0 8160) 0] in
  let st' := default st (snd <$> mix_destroy st) in
  mix st' = shut (mix st)
  ∧ frames_freed (new_events st st')
    = [Some (sink_frame (mix st)); swr_frame (mix st); silence_frame (mix st)]
  ∧ filters_freed (new_events st st')
    = filter (λ p, p ≠ NULL) (contexts (mix st))
  ∧ ∃ r1 r2 ev,
      new_events st st'
      = Freed (silence_frame (mix st)) :: Freed (swr_frame (mix st))
        :: Freed (Some (sink_frame (mix st)))
        :: Called (avfilter_graph_free (graph (mix st))) r2
        :: Called (avresample_free (avresample (mix st))) r1 :: ev.
Proof.
  intros st st'. apply (mix_destroy_releases st st'); run.
Defined.

(** X3, a run: six indices from a new session. *)
Lemma mix_get_index_consecutive_witness :
  mix_get_indices 6 (sim_new sim_ok)
  = Some ((λ j, Z.to_nat (u32 (Z.of_nat (next_idx (mix (sim_new sim_ok)))
                              + Z.of_nat j))) <$> seq 0 6,
          mkState
            (set_next_idx (mix (sim_new sim_ok))
               (Z.to_nat (u32 (Z.of_nat (next_idx (mix (sim_new sim_ok)))
                               + Z.of_nat 6))))
            (world (sim_new sim_ok)) (trace (sim_new sim_ok))).
Proof.
  apply (mix_get_index_consecutive 6 (sim_new sim_ok)). sim_range.
Defined.

(** X4, a run: a new session configured twice for 8000 Hz, mono. *)
Lemma mix_config_idempotent_witness :
  mix_config 8000 1 (sim_state 30 sim_ok [op_config 8000 1])
  = Some (0, sim_state 30 sim_ok [op_config 8000 1]).
Proof.
  apply (mix_config_idempotent 8000 1 (sim_new sim_ok) _ 0); [lia | lia | run].
Defined.

(** X5, a run: the graph cannot be allocated. *)
Lemma mix_config_failure_cleans_up_witness :
  let st := sim_new sim_no_graph in
  let st' := sim_state 30 sim_no_graph [op_config 8000 1] in
  -1 = -1
  ∧ mix st' = set_format (shut (mix st)) (s32 8000) (s32 1)
  ∧ unbuilt (mix st')
  ∧ ∃ err tr,
      trace st' = Logged LOG_ERR "Failed to initialize mixer: %s" err :: tr
      ∧ err ∈ config_errors.
Proof.
  intros st st'. apply (mix_config_failure_cleans_up 8000 1 st st' (-1)).
  - sim_wf.
  - run.
  - lia.
Defined.

(** X6, a run: a session that has taken a frame is configured for another
    rate. *)
Lemma mix_config_keeps_timeline_witness :
  let st := sim_state 30 sim_ok [op_config 8000 1; op_add (pcm 0 8160) 0] in
  let st' := sim_state 30 sim_ok
               [op_config 8000 1; op_add (pcm 0 8160) 0; op_config 16000 1] in
  pts_offs (mix st') = pts_offs (mix st)
  ∧ in_pts (mix st') = in_pts (mix st)
  ∧ out_pts (mix st') = out_pts (mix st)
  ∧ next_idx (mix st') = next_idx (mix st)
  ∧ sink_frame (mix st') = sink_frame (mix st)
  ∧ swr_frame (mix st') = swr_frame (mix st)
  ∧ swr_buffers (mix st') = swr_buffers (mix st)
  ∧ silence_frame (mix st') = silence_frame (mix st)
  ∧ Forall config_event (new_events st st').
Proof.
  intros st st'. apply (mix_config_keeps_timeline 16000 1 st st' 0). run.
Defined.

(** X7, a run: a new session is configured. *)
Lemma mix_config_builds_topology_witness :
  let st := sim_new sim_ok in
  let st' := sim_state 30 sim_ok [op_config 8000 1] in
  clockrate (mix st') = s32 8000 ∧ channels (mix st') = s32 1
  ∧ avresample (mix st') = NULL
  ∧ built (mix st') (new_events st st')
  ∧ filters_freed (new_events st st')
    = filter (λ p, p ≠ NULL) (contexts (mix st)).
Proof.
  intros st st'. apply (mix_config_builds_topology 8000 1 st st').
  - sim_wf.
  - run.
  - left. vm_compute. discriminate.
Defined.

(** X8, a run: the session keeps the six contexts of a build that
    succeeds. *)
Lemma mix_config_never_leaks_witness :
  let st := sim_new sim_ok in
  let st' := sim_state 30 sim_ok [op_config 8000 1] in
  (∀ flt args g rp,
     Called (avfilter_graph_create_filter flt args g) rp ∈ new_events st st' →
     out_ptr rp ≠ NULL →
     if 0 =? 0 then out_ptr rp ∈ contexts (mix st')
     else out_ptr rp ∈ filters_freed (new_events st st'))
  ∧ (∀ rp,
       Called avfilter_graph_alloc rp ∈ new_events st st' →
       if 0 =? 0 then graph (mix st') = rc rp
       else ∃ r', Called (avfilter_graph_free (rc rp)) r' ∈ new_events st st').
Proof.
  intros st st'. apply (mix_config_never_leaks 8000 1 st st' 0).
  - sim_wf.
  - run.
Defined.

(** X9, a run: an S16 frame comes back as it is. *)
Lemma mix_resample_frame_passes_or_logs_witness :
  let st := sim_state 30 sim_ok [op_config 8000 1] in
  if format (pcm 0 160) =? AV_SAMPLE_FMT_S16
  then Some (pcm 0 160) = Some (pcm 0 160) ∧ st = st
  else swr_frame (mix st) = Some (pcm 0 160).
Proof.
  intros st.
  apply (mix_resample_frame_passes_or_logs (pcm 0 160) st st (Some (pcm 0 160))).
  run.
Defined.

(** X10, a run: a frame of planar float audio is converted. *)
Lemma mix_resample_frame_converts_witness :
  let st := sim_state 30 sim_ok [op_config 8000 1] in
  let st' := default st (snd <$> mix_resample_frame (fltp 0 160) st) in
  let sf := fltp 0 160 in
  swr_frame (mix st') = Some sf
  ∧ avresample (mix st') ≠ NULL
  ∧ ∃ r dst tr,
      trace st'
      = Called (avresample_convert (avresample (mix st')) dst (fltp 0 160)) r :: tr
      ∧ 0 ≤ rc r ∧ nb_samples sf = rc r
      ∧ pts sf = av_rescale (pts (fltp 0 160)) (clockrate (mix st))
                   (clockrate (mix st))
      ∧ dst ≤ swr_buffers (mix st').
Proof.
  intros st st' sf.
  apply (mix_resample_frame_converts (fltp 0 160) st st' sf).
  - vm_compute. discriminate.
  - run.
Defined.

(** X11, a run: a second frame is converted with the resampler the first
    one opened. *)
Lemma resampler_opened_once_witness :
  let st0 := sim_state 30 sim_ok [op_config 8000 1] in
  let st := default st0 (snd <$> mix_resample_frame (fltp 0 160) st0) in
  let st' := default st (snd <$> mix_resample_frame (fltp 160 160) st) in
  avresample (mix st') = avresample (mix st)
  ∧ Forall no_resampler_open (new_events st st').
Proof.
  intros st0 st st'.
  apply (resampler_opened_once (fltp 160 160) st st' (Some (fltp 160 160))).
  - vm_compute. discriminate.
  - run.
Defined.

(** X12, a run: input 1 is filled from 0 to 400 at 8000 Hz. *)
Lemma silence_fill_tiles_witness :
  let st := sim_state 30 sim_ok [op_config 8000 1; op_add (pcm 0 160) 0] in
  let st' := default st (snd <$> mix_silence_fill_idx_upto 10 1 400 st) in
  tiles (clockrate (mix st) / 100)
    (in_pts (mix st) !!! 1%nat) (in_pts (mix st') !!! 1%nat)
    ((λ f, (u64 (pts f), nb_samples f)) <$> silence_writes (new_events st st')).
Proof.
  intros st st'. apply (silence_fill_tiles 10 1 400 st st').
  - sim_wf.
  - sim_range.
  - unfold NUM_INPUTS. lia.
  - split; sim_range.
  - run.
Defined.

(** X13, a run: the silence frame made at 8000 Hz, mono, is still the
    one of the session after it was configured for 16000 Hz, stereo, and
    took another frame. *)
Lemma silence_frame_made_once_witness :
  let st := sim_state 30 sim_ok [op_config 8000 1; op_add (pcm 0 8160) 0] in
  let l := [op_config 16000 2; op_add (pcm 0 160) 1] in
  let st' := default st (snd <$> run_ops 100 l st) in
  silence_frame_like (default frame_zero (silence_frame (mix st))) (mix st').
Proof.
  intros st l st'.
  apply (silence_frame_made_once 100 l st st' [0; 0]); run.
Defined.

(** X14, a run: the output stands at 8160 and three inputs at 0; the pass
    takes them to 160. *)
Lemma mix_silence_fill_levels_inputs_witness :
  let st := sim_state 30 sim_no_buffers [op_config 8000 1; op_add (pcm 0 8160) 0] in
  let st' := default st (snd <$> mix_silence_fill 30 st) in
  out_pts (mix st') = out_pts (mix st)
  ∧ ∀ j, (j < NUM_INPUTS)%nat →
      in_pts (mix st') !!! j
      = if out_pts (mix st) <? clockrate (mix st) then in_pts (mix st) !!! j
        else Z.max (in_pts (mix st) !!! j) (out_pts (mix st) - clockrate (mix st)).
Proof.
  intros st st'. apply (mix_silence_fill_levels_inputs 30 st st').
  - sim_wf.
  - sim_range.
  - run.
  - decide_trace.
Defined.

(** X15, a run: a first frame on input 0. *)
Lemma mix_add_frees_frame_witness :
  let st := sim_state 30 sim_ok [op_config 8000 1] in
  let st' := sim_state 30 sim_ok [op_config 8000 1; op_add (pcm 5 160) 0] in
  Freed (Some (if index_rejected 0 (mix st) then pcm 5 160
               else frame_submitted (pcm 5 160) 0 (mix st)))
  ∈ new_events st st'.
Proof.
  intros st st'. apply (mix_add_frees_frame 30 (pcm 5 160) 0 st st' 0). run.
Defined.

(** X16, a run: the same frame is handed to input 0 once. *)
Lemma mix_add_submits_once_witness :
  let st := sim_state 30 sim_ok [op_config 8000 1] in
  let st' := sim_state 30 sim_ok [op_config 8000 1; op_add (pcm 5 160) 0] in
  frames_added (new_events st st')
  = if index_rejected 0 (mix st) then []
    else [(src_ctxs (mix st) !!! 0%nat, frame_submitted (pcm 5 160) 0 (mix st))].
Proof.
  intros st st'. apply (mix_add_submits_once 30 (pcm 5 160) 0 st st' 0). run.
Defined.

(** X17, a run: input 1 starts late, with a frame stamped 5 while the
    output stands at 160. *)
Lemma first_frame_enters_at_out_pts_witness :
  let st := sim_state 30 sim_ok [op_config 8000 1; op_add (pcm 0 160) 0] in
  let st' := sim_state 30 sim_ok
               [op_config 8000 1; op_add (pcm 0 160) 0; op_add (pcm 5 160) 1] in
  ∃ f, frames_added (new_events st st') = [(src_ctxs (mix st) !!! 1%nat, f)]
    ∧ u64 (pts f) = out_pts (mix st)
    ∧ nb_samples f = nb_samples (pcm 5 160)
    ∧ pts_offs (mix st') !!! 1%nat = u64 (out_pts (mix st) - pts (pcm 5 160)).
Proof.
  intros st st'.
  apply (first_frame_enters_at_out_pts 30 (pcm 5 160) 1 st st' 0).
  - sim_wf.
  - run.
  - run.
  - run.
Defined.

(** X18, a run: the second frame of input 0. *)
Lemma later_frames_keep_offset_witness :
  let st := sim_state 30 sim_ok [op_config 8000 1; op_add (pcm 0 160) 0] in
  let st' := sim_state 30 sim_ok
               [op_config 8000 1; op_add (pcm 0 160) 0; op_add (pcm 160 160) 0] in
  ∃ f, frames_added (new_events st st') = [(src_ctxs (mix st) !!! 0%nat, f)]
    ∧ pts f = s64 (pts (pcm 160 160) + pts_offs (mix st) !!! 0%nat)
    ∧ nb_samples f = nb_samples (pcm 160 160)
    ∧ pts_offs (mix st') = pts_offs (mix st).
Proof.
  intros st st'.
  apply (later_frames_keep_offset 30 (pcm 160 160) 0 st st' 0).
  - run.
  - vm_compute. discriminate.
  - run.
Defined.

(** X19, a run: the second frame of input 0 is accepted and takes the
    counters to 320. *)
Lemma accepted_frame_moves_counters_witness :
  let st := sim_state 30 sim_ok [op_config 8000 1; op_add (pcm 0 160) 0] in
  let st' := sim_state 30 sim_ok
               [op_config 8000 1; op_add (pcm 0 160) 0; op_add (pcm 160 160) 0] in
  let f := frame_submitted (pcm 160 160) 0 (mix st) in
  out_pts (mix st') = Z.max (out_pts (mix st)) (u64 (pts f + nb_samples f))
  ∧ u64 (pts f + nb_samples f) ≤ in_pts (mix st') !!! 0%nat.
Proof.
  intros st st'.
  apply (accepted_frame_moves_counters 30 (pcm 160 160) 0 st st' 0).
  - sim_wf.
  - run.
  - run.
  - apply added_okb_spec. run.
Defined.

(** X20, a run: the input refuses the second frame. *)
Lemma refused_frame_gives_no_output_witness :
  let st := sim_state 30 sim_add_refused [op_config 8000 1; op_add (pcm 0 160) 0] in
  let st' := sim_state 30 sim_add_refused
               [op_config 8000 1; op_add (pcm 0 160) 0; op_add (pcm 1000 160) 0] in
  -1 = -1
  ∧ out_pts (mix st') = out_pts (mix st)
  ∧ Forall no_output (new_events st st').
Proof.
  intros st st'.
  apply (refused_frame_gives_no_output 30 (pcm 1000 160) 0 st st' (-1)).
  - run.
  - intros Hok%added_okb_spec. revert Hok. vm_compute. discriminate.
Defined.

(** X21, a run: a frame on input 0 of a configured session. *)
Lemma mix_add_keeps_topology_witness :
  let st := sim_state 30 sim_ok [op_config 8000 1] in
  let st' := sim_state 30 sim_ok [op_config 8000 1; op_add (pcm 0 160) 0] in
  graph (mix st') = graph (mix st)
  ∧ amix_ctx (mix st') = amix_ctx (mix st)
  ∧ sink_ctx (mix st') = sink_ctx (mix st)
  ∧ src_ctxs (mix st') = src_ctxs (mix st)
  ∧ clockrate (mix st') = clockrate (mix st)
  ∧ channels (mix st') = channels (mix st)
  ∧ next_idx (mix st') = next_idx (mix st)
  ∧ Forall no_topology (new_events st st').
Proof.
  intros st st'. apply (mix_add_keeps_topology 30 (pcm 0 160) 0 st st' 0). run.
Defined.

(** X22, a run: the sink has one frame ready, the output takes it, and the
    call ends on [EAGAIN]. *)
Lemma mix_add_success_drains_sink_witness :
  let st := sim_state 30 sim_one_ready [op_config 8000 1] in
  let st' := sim_state 30 sim_one_ready [op_config 8000 1; op_add (pcm 0 160) 0] in
  index_rejected 0 (mix st) = false
  ∧ added_ok (new_events st st')
  ∧ (∀ f r, Called (output_add f) r ∈ new_events st st' → rc r = 0)
  ∧ ∃ r tr,
      trace st' = Called (av_buffersink_get_frame (sink_ctx (mix st))) r :: tr
      ∧ rc r = AVERROR_EAGAIN.
Proof.
  intros st st'. apply (mix_add_success_drains_sink 30 (pcm 0 160) 0 st st'). run.
Defined.

(** X23, a run: the output refuses the second frame pulled. *)
Lemma mix_add_failure_cause_witness :
  let st := sim_state 30 sim_sink_refuses [op_config 8000 1] in
  let st' := sim_state 30 sim_sink_refuses [op_config 8000 1; op_add (pcm 0 160) 0] in
  -1 = 0
  ∨ (-1 = -1
     ∧ ((∃ f err tr,
           trace st'
           = Freed f :: Logged LOG_ERR "Failed to add frame to mixer: %s" err :: tr
           ∧ err ∈ ["index out of range"; "mixer not initialized";
                    "failed to add frame to mixer";
                    "failed to get frame from mixer"]%string)
        ∨ (∃ f r tr, trace st' = Called (output_add f) r :: tr ∧ rc r ≠ 0))).
Proof.
  intros st st'. apply (mix_add_failure_cause 30 (pcm 0 160) 0 st st' (-1)). run.
Defined.

(** X24, a run: after one turn of the loop the sink answers [EAGAIN]. *)
Lemma sink_answer_ends_drain_witness :
  ∃ (stk : state sim) w,
    let r := sim_reply AVERROR_EAGAIN in
    let stk' := mkState (mix stk) w
                  (Called (av_buffersink_get_frame (sink_ctx (mix stk))) r
                   :: trace stk) in
    mix_add 10 (pcm 0 160) 0 (sim_state 30 sim_one_ready [op_config 8000 1])
    = Some (if rc r =? AVERROR_EAGAIN then (0, stk')
            else (-1, add_failed (Some (pcm 0 160))
                        "failed to get frame from mixer" stk'))
    ∧ ∃ r' tr, trace stk = Called (output_add (Some (pcm 0 160))) r' :: tr.
Proof.
  eexists _, _.
  eapply (sink_answer_ends_drain 10 (pcm 0 160) 0
            (sim_state 30 sim_one_ready [op_config 8000 1]))
    with (k := 1%nat) (r := sim_reply AVERROR_EAGAIN)
         (framek := Some (pcm 0 160)).
  - run.
  - eapply pulled_S; [run | apply pulled_0].
  - lia.
  - run.
  - sim_range.
Defined.

(** X25, a run: the first configuration of a new session, for 8000 Hz,
    mono. *)
Lemma new_session_first_config_witness :
  let st' := sim_state 30 sim_ok [op_config 8000 1] in
  if (8000 =? 4294967295) && (1 =? 4294967295)
  then 0 = 0 ∧ st' = mkState mix_new sim_ok []
  else clockrate (mix st') = s32 8000 ∧ channels (mix st') = s32 1
       ∧ ∃ rp, Called avfilter_graph_alloc rp
               ∈ new_events (mkState mix_new sim_ok []) st'.
Proof.
  intros st'. apply (new_session_first_config 8000 1 sim_ok [] 0 st'). run.
Defined.

(** X26, a run: a session whose only configuration failed. *)
Lemma session_without_graph_is_empty_witness :
  let st := sim_state 30 sim_no_graph [op_config 8000 1; op_get_index] in
  shut (mix st) = mix st ∧ ∀ idx, index_rejected idx (mix st) = true.
Proof.
  intros st. apply (session_without_graph_is_empty st).
  - sim_reachable 30%nat sim_no_graph [op_config 8000 1; op_get_index].
  - run.
Defined.
